(** * oneTBB task.cpp: wait contexts and the resumable-task protocol

    A shallow embedding of [src/src/tbb/task.cpp].

    - The member functions of [d1::wait_context] run concurrently with
      other threads on the atomic counter [m_ref_count].  They are
      interaction trees over the atomic operations they perform; a
      runner executes a tree against the memory of one wait context,
      lets the other threads interfere before every operation, and
      records what the caller did and saw.
    - The resumable-task functions of namespace [r1] work on objects the
      calling thread owns; they are state-passing functions on a store
      of those objects, with the coroutine swap as an oracle.

    [__TBB_ASSERT] is modelled as checked (a debug build): a violated
    assertion ends the run.  Memory orders are not modelled: every
    atomic operation is one step of an interleaving. *)

From Stdlib Require Import ZArith List Bool Lia.
From ITree Require Import ITree Eq.Shallow.
Import ListNotations.
Import ITreeNotations.
Local Open Scope Z_scope.
Local Open Scope itree_scope.

Set Implicit Arguments.

(** ** Pointers *)

(** Objects live in stores indexed by address; a nullable pointer is an
    [option]. *)
Definition addr := nat.
Definition ptr := option addr.
Bind Scope nat_scope with addr.

Definition ptr_eqb (p q : ptr) : bool :=
  match p, q with
  | Some a, Some b => Nat.eqb a b
  | None, None => true
  | _, _ => false
  end.

(** ** Wait context *)

Module WaitContext.

(** [uint64_t] complement. *)
Definition not64 (f : Z) : Z := Z.land (Z.lnot f) (Z.ones 64).

(** C++ truth value of [r & flag]. *)
Definition has_flag (r flag : Z) : bool := negb (Z.land r flag =? 0).

(** A wait node: the link to the next node and the suspend point to
    resume on notification. *)
Record wait_node : Type := mk_wait_node {
  my_next : ptr;
  my_suspend_point : addr
}.

(** The wait context as one thread sees it: the atomic counter, the head
    of the waiter list, the protocol version. *)
Record wait_context : Type := mk_wait_context {
  m_version_and_traits : Z;
  m_ref_count : Z;
  m_wait_head : ptr
}.

Definition set_ref_count (v : Z) (wc : wait_context) : wait_context :=
  mk_wait_context (m_version_and_traits wc) v (m_wait_head wc).

Definition set_wait_head (p : ptr) (wc : wait_context) : wait_context :=
  mk_wait_context (m_version_and_traits wc) (m_ref_count wc) p.

(** What a member function does to the wait context, one event per
    atomic operation or call out of this file. *)
Variant wcE : Type -> Type :=
| RefLoad : wcE Z                         (* m_ref_count.load() *)
| RefFetchOr (v : Z) : wcE Z              (* m_ref_count.fetch_or(v) *)
| RefFetchAnd (v : Z) : wcE Z             (* m_ref_count.fetch_and(v) *)
| RefCas (expected desired : Z) : wcE (bool * Z)
                                          (* compare_exchange_strong *)
| RefStore (v : Z) : wcE unit             (* m_ref_count.store(v) *)
| HeadRead : wcE ptr                      (* read m_wait_head *)
| HeadWrite (p : ptr) : wcE unit          (* m_wait_head = p *)
| VersionRead : wcE Z                     (* read m_version_and_traits *)
| NodeNext (node : addr) : wcE ptr        (* node.my_next *)
| NodeUnlink (node : addr) : wcE unit     (* node.unlink() *)
| NodeNotifyAll (head : addr) : wcE unit  (* head->notify_all(this) *)
| TryRegisterWaiter (node : addr) : wcE bool
                                          (* try_register_waiter(node, pred) *)
| Resume (sp : addr) : wcE unit           (* r1::resume(sp) *)
| Pause : wcE unit                        (* backoff.pause() *)
| AssertFailed : wcE Empty_set.           (* a violated __TBB_ASSERT *)

Definition tbb_assert (c : bool) : itree wcE unit :=
  if c then Ret tt
  else ITree.bind (ITree.trigger AssertFailed)
                  (fun v : Empty_set => match v with end).

Section Flags.

(** [lock_flag] and [waiter_flag] are constants of the class declaration,
    which [task.cpp] does not contain: two reserved bits of the counter. *)
Variables lock_flag waiter_flag : Z.

(** The outstanding work: the counter without its two flag bits. *)
Definition work_count (r : Z) : Z :=
  Z.land r (not64 (Z.lor lock_flag waiter_flag)).

(** Modelled from the spec: [wait_context::continue_execution()] is
    declared in the class header, which is missing; the spec gives it as
    "outstanding count > 0" on a fresh load of the counter. *)
Definition continue_execution : itree wcE bool :=
  r <- ITree.trigger RefLoad ;;
  Ret (0 <? work_count r).

Definition is_locked : itree wcE bool :=
  r <- ITree.trigger RefLoad ;;
  Ret (has_flag r lock_flag).

(** The lambda of [lock()]. *)
Definition try_lock : itree wcE bool :=
  old <- ITree.trigger (RefFetchOr lock_flag) ;;
  Ret (negb (has_flag old lock_flag)).

(** [while (is_locked() || !try_lock()) backoff.pause();]  The [||] does
    not call [try_lock] while [is_locked] returns true. *)
Definition lock : itree wcE unit :=
  ITree.iter (fun _ : unit =>
    l <- is_locked ;;
    if l then ITree.trigger Pause ;; Ret (inl tt)
    else
      got <- try_lock ;;
      if got then Ret (inr tt)
      else ITree.trigger Pause ;; Ret (inl tt)) tt.

Definition unlock : itree wcE unit :=
  l <- is_locked ;;
  tbb_assert l ;;
  ITree.trigger (RefFetchAnd (not64 lock_flag)) ;;
  Ret tt.

(** One round of the loop of [publish_wait_list]; [inl] goes round
    again, [inr] leaves the loop. *)
Definition publish_round (expected : Z) : itree wcE (Z + Z) :=
  if has_flag expected waiter_flag then Ret (inr expected)
  else
    c <- continue_execution ;;
    if c then
      r <- ITree.trigger (RefCas expected (Z.lor expected waiter_flag)) ;;
      if (fst r : bool) then
        tbb_assert (negb (has_flag expected waiter_flag)) ;;
        Ret (inr (Z.lor expected waiter_flag))
      else Ret (inl (snd r))
    else Ret (inr expected).

Definition publish_wait_list : itree wcE bool :=
  expected <- ITree.trigger RefLoad ;;
  l <- is_locked ;;
  (if l then Ret tt
   else v <- ITree.trigger VersionRead ;; tbb_assert (v =? 0)) ;;
  expected <- ITree.iter publish_round expected ;;
  Ret (has_flag expected waiter_flag).

(** The [lock_guard] around a body: [lock()] on entry,
    [unlock()] when the scope is left. *)
Definition lock_guard {R} (body : itree wcE R) : itree wcE R :=
  lock ;;
  r <- body ;;
  unlock ;;
  Ret r.

Definition unregister_waiter (node : addr) : itree wcE unit :=
  lock_guard (
    h <- ITree.trigger HeadRead ;;
    match h with
    | Some _ =>
        (if ptr_eqb h (Some node)
         then nx <- ITree.trigger (NodeNext node) ;;
              ITree.trigger (HeadWrite nx)
         else Ret tt) ;;
        ITree.trigger (NodeUnlink node)
    | None => Ret tt
    end).

Definition notify_waiters : itree wcE unit :=
  lock_guard (
    h <- ITree.trigger HeadRead ;;
    match h with
    | Some head =>
        ITree.trigger (NodeNotifyAll head) ;;
        ITree.trigger (HeadWrite None)
    | None => Ret tt
    end ;;
    r <- ITree.trigger RefLoad ;;
    ITree.trigger (RefStore (Z.land r (not64 waiter_flag)))).

(** [r1::notify_waiters(wc)]. *)
Definition r1_notify_waiters : itree wcE unit :=
  v <- ITree.trigger VersionRead ;;
  tbb_assert (0 <? v) ;;
  notify_waiters.

(** The [register_waiter] case of [thread_data::do_post_resume_action],
    on the wait context [data.wo]; [node] is [data.node] and [sp] its
    [my_suspend_point].  The legacy branch stores the suspend point in
    [m_wait_head] through a [reinterpret_cast]. *)
Definition register_waiter_action (node sp : addr) : itree wcE unit :=
  v <- ITree.trigger VersionRead ;;
  if v =? 0 then
    ITree.trigger (HeadWrite (Some sp)) ;;
    ok <- publish_wait_list ;;
    if negb ok then ITree.trigger (Resume sp) else Ret tt
  else
    ok <- ITree.trigger (TryRegisterWaiter node) ;;
    if negb ok then ITree.trigger (Resume sp) else Ret tt.

End Flags.

(** *** Running a member function among other threads *)

(** The runner's state: the wait context and the wait nodes. *)
Record wstate : Type := mk_wstate {
  ws_wc : wait_context;
  ws_nodes : addr -> wait_node
}.

Definition on_wc (f : wait_context -> wait_context) (s : wstate) : wstate :=
  mk_wstate (f (ws_wc s)) (ws_nodes s).

Definition ref_of (s : wstate) : Z := m_ref_count (ws_wc s).

(** The functions of other files that the member functions call.  Their
    code is not in [task.cpp]; each is a parameter of the runner. *)
Record externals : Type := mk_externals {
  ext_unlink : addr -> wstate -> wstate;
  ext_notify_all : addr -> wstate -> wstate;
  ext_try_register_waiter : addr -> wstate -> bool * wstate
}.

(** What the caller did and saw at one event. [OHeadWrite] also records
    the counter at the moment of the write. *)
Inductive obs : Type :=
| OLoad (seen : Z)
| OFetchOr (v seen : Z)
| OFetchAnd (v seen : Z)
| OCas (expected desired : Z) (ok : bool) (seen : Z)
| OStore (v : Z)
| OHeadRead (p : ptr)
| OHeadWrite (p : ptr) (ref : Z)
| OVersion (v : Z)
| ONext (node : addr) (p : ptr)
| OUnlink (node : addr)
| ONotifyAll (head : addr)
| OTryRegister (node : addr) (ok : bool)
| OResume (sp : addr)
| OPause.

(** One event on the state: the answer, the new state, the record.
    [None] is a violated assertion. *)
Definition handle (x : externals) {X} (e : wcE X) (s : wstate)
  : option (X * wstate * obs) :=
  match e in wcE X return option (X * wstate * obs) with
  | RefLoad => Some (ref_of s, s, OLoad (ref_of s))
  | RefFetchOr v =>
      Some (ref_of s, on_wc (set_ref_count (Z.lor (ref_of s) v)) s,
            OFetchOr v (ref_of s))
  | RefFetchAnd v =>
      Some (ref_of s, on_wc (set_ref_count (Z.land (ref_of s) v)) s,
            OFetchAnd v (ref_of s))
  | RefCas expected desired =>
      if ref_of s =? expected
      then Some ((true, expected), on_wc (set_ref_count desired) s,
                 OCas expected desired true (ref_of s))
      else Some ((false, ref_of s), s,
                 OCas expected desired false (ref_of s))
  | RefStore v => Some (tt, on_wc (set_ref_count v) s, OStore v)
  | HeadRead => Some (m_wait_head (ws_wc s), s, OHeadRead (m_wait_head (ws_wc s)))
  | HeadWrite p => Some (tt, on_wc (set_wait_head p) s, OHeadWrite p (ref_of s))
  | VersionRead =>
      Some (m_version_and_traits (ws_wc s), s,
            OVersion (m_version_and_traits (ws_wc s)))
  | NodeNext node =>
      Some (my_next (ws_nodes s node), s, ONext node (my_next (ws_nodes s node)))
  | NodeUnlink node => Some (tt, ext_unlink x node s, OUnlink node)
  | NodeNotifyAll head => Some (tt, ext_notify_all x head s, ONotifyAll head)
  | TryRegisterWaiter node =>
      let r := ext_try_register_waiter x node s in
      Some (fst r, snd r, OTryRegister node (fst r))
  | Resume sp => Some (tt, s, OResume sp)
  | Pause => Some (tt, s, OPause)
  | AssertFailed => None
  end.

(** What the other threads do to the counter between two operations of
    the caller.  They touch the list only inside their own critical
    sections, so the counter is all they change under the caller's feet. *)
Definition interference := Z -> Z.

Definition no_interference : interference := fun r => r.

Definition interfere (i : interference) (s : wstate) : wstate :=
  on_wc (set_ref_count (i (ref_of s))) s.

Inductive outcome (R : Type) : Type :=
| Done (r : R) (s : wstate) (fuel_left : nat) (tr : list obs)
| Failed (tr : list obs)
| OutOfFuel (tr : list obs).

Arguments Failed {R} tr.
Arguments OutOfFuel {R} tr.

Definition after {R} (o : obs) (out : outcome R) : outcome R :=
  match out with
  | Done r s f tr => Done r s f (o :: tr)
  | Failed tr => Failed (o :: tr)
  | OutOfFuel tr => OutOfFuel (o :: tr)
  end.

(** [run x fuel env s t]: before each event of [t] the next entry of
    [env] is applied to the state (none once [env] is used up); every
    event and every silent step costs one unit of fuel. *)
Fixpoint run (x : externals) {R} (fuel : nat) (env : list interference)
  (s : wstate) (t : itree wcE R) {struct fuel} : outcome R :=
  match observe t with
  | RetF r => Done r s fuel []
  | TauF t' =>
      match fuel with
      | O => OutOfFuel []
      | S f => run x f env s t'
      end
  | VisF e k =>
      match fuel with
      | O => OutOfFuel []
      | S f =>
          match handle x e (interfere (hd no_interference env) s) with
          | None => Failed []
          | Some (ans, s', o) => after o (run x f (tl env) s' (k ans))
          end
      end
  end.

(** *** Reading a record of a run *)

(** The value of the counter that an operation read, if it read one. *)
Definition seen (o : obs) : option Z :=
  match o with
  | OLoad v | OFetchOr _ v | OFetchAnd _ v | OCas _ _ _ v => Some v
  | _ => None
  end.

Definition cas_success (o : obs) : bool :=
  match o with
  | OCas _ _ true _ => true
  | _ => false
  end.

Definition no_cas_success (tr : list obs) : bool :=
  forallb (fun o => negb (cas_success o)) tr.

Definition trace_of {R} (out : outcome R) : list obs :=
  match out with
  | Done _ _ _ tr | Failed tr | OutOfFuel tr => tr
  end.

Definition is_head_write (o : obs) : bool :=
  match o with
  | OHeadWrite _ _ => true
  | _ => false
  end.

(** The calls that make a suspended context run again. *)
Definition is_resumption (o : obs) : bool :=
  match o with
  | ONotifyAll _ | OResume _ => true
  | _ => false
  end.

(** The operations on the waiter list and on the flag that announces
    it. *)
Definition list_access (o : obs) : bool :=
  match o with
  | OHeadRead _ | OHeadWrite _ _ | ONext _ _ | OUnlink _ | ONotifyAll _
  | OStore _ => true
  | _ => false
  end.

Definition is_unlink (o : obs) : bool :=
  match o with
  | OUnlink _ => true
  | _ => false
  end.

(** The operations of the [register_waiter] action on the current
    protocol: the read of the version, the call of
    [try_register_waiter] and the call of [r1::resume]. *)
Definition hands_over (o : obs) : bool :=
  match o with
  | OVersion _ | OTryRegister _ _ | OResume _ => true
  | _ => false
  end.

Section Observations.

Variables lock_flag waiter_flag : Z.

(** The operation did not see the outstanding work at zero. *)
Definition positive (o : obs) : bool :=
  match seen o with
  | Some v => 0 <? work_count lock_flag waiter_flag v
  | None => true
  end.

(** The operation saw the outstanding work at zero. *)
Definition zero_seen (o : obs) : bool :=
  match seen o with
  | Some v => negb (0 <? work_count lock_flag waiter_flag v)
  | None => false
  end.

(** The operation saw [waiter_flag] in the counter. *)
Definition flag_seen (o : obs) : bool :=
  match seen o with
  | Some v => has_flag v waiter_flag
  | None => false
  end.

(** Outstanding work > 0 at every observation point. *)
Definition all_positive (tr : list obs) : bool := forallb positive tr.

(** No operation of the record saw outstanding work. *)
Definition only_zero (tr : list obs) : bool :=
  forallb (fun o => match seen o with
                    | Some v => negb (0 <? work_count lock_flag waiter_flag v)
                    | None => true
                    end) tr.

(** Work that has reached zero is done: once an observation sees zero,
    every later one does. *)
Fixpoint zero_absorbing (tr : list obs) : bool :=
  match tr with
  | [] => true
  | o :: tr' =>
      (if zero_seen o then only_zero tr' else true) && zero_absorbing tr'
  end.

(** The work is seen at zero at some observation, and [waiter_flag] is
    in the counter at no observation up to that one. *)
Fixpoint zero_before_flag (tr : list obs) : bool :=
  match tr with
  | [] => false
  | o :: tr' =>
      if flag_seen o then false
      else if zero_seen o then true
      else zero_before_flag tr'
  end.

(** Some observation found [waiter_flag] in the counter. *)
Definition flag_observed (tr : list obs) : bool := existsb flag_seen tr.

(** A successful compare-exchange found outstanding work > 0. *)
Definition cas_with_work (o : obs) : bool :=
  match o with
  | OCas _ _ true v => 0 <? work_count lock_flag waiter_flag v
  | _ => true
  end.

(** Whether the caller holds the lock after an operation: a [fetch_or]
    of [lock_flag] that found it clear takes the lock, the [fetch_and]
    of its complement gives it back. *)
Definition holds (held : bool) (o : obs) : bool :=
  match o with
  | OFetchOr v old =>
      if (v =? lock_flag) && negb (has_flag old lock_flag) then true else held
  | OFetchAnd v _ => if v =? not64 lock_flag then false else held
  | _ => held
  end.

Definition held_after (held : bool) (tr : list obs) : bool :=
  fold_left holds tr held.

(** Every operation of the record that [critical] selects is made while
    the caller holds the lock. *)
Fixpoint inside_lock (critical : obs -> bool) (held : bool) (tr : list obs)
  : bool :=
  match tr with
  | [] => true
  | o :: tr' =>
      (if critical o then held else true) &&
      inside_lock critical (holds held o) tr'
  end.

(** The caller's release of the lock. *)
Definition is_release (o : obs) : bool :=
  match o with
  | OFetchAnd v _ => v =? not64 lock_flag
  | _ => false
  end.

(** An operation of the caller while it spins in [lock()]: a load, a
    pause, or a [fetch_or] that found the lock taken. *)
Definition spin_op (o : obs) : bool :=
  match o with
  | OLoad _ | OPause => true
  | OFetchOr _ old => has_flag old lock_flag
  | _ => false
  end.

(** Every resumption of the record comes after the caller's release of
    the lock. *)
Fixpoint resumes_after_release (released : bool) (tr : list obs) : bool :=
  match tr with
  | [] => true
  | o :: tr' =>
      (if is_resumption o then released else true) &&
      resumes_after_release (released || is_release o) tr'
  end.

(** The counter when the entry assertion of [publish_wait_list] reads
    it: after the first two interferences. *)
Definition ref_at_assert (env : list interference) (s : wstate) : Z :=
  hd no_interference (tl env) (hd no_interference env (ref_of s)).

End Observations.

(** A finished run of the body of [notify_waiters]. *)
Definition notified (h : ptr) (notif : list obs) : Prop :=
  match h with
  | Some head => exists ref, notif = [ONotifyAll head; OHeadWrite None ref]
  | None => notif = []
  end.

(** *** Sample values

    The flags as two bits above a 32-bit count, collaborators that do
    nothing, and wait contexts without nodes. *)

Definition sample_lock_flag : Z := 2 ^ 33.
Definition sample_waiter_flag : Z := 2 ^ 32.

Definition idle_externals : externals :=
  mk_externals (fun _ s => s) (fun _ s => s) (fun _ s => (true, s)).

Definition refusing_externals : externals :=
  mk_externals (fun _ s => s) (fun _ s => s) (fun _ s => (false, s)).

Definition sample_state (version ref : Z) (head : ptr) : wstate :=
  mk_wstate (mk_wait_context version ref head) (fun _ => mk_wait_node None 0%nat).

End WaitContext.

(** ** Resumable tasks *)

Module Scheduler.
Import WaitContext.

(** *** The objects *)

(** The tags that [do_post_resume_action] switches on, and [none]. *)
Inductive post_resume_action : Type :=
| register_waiter
| callback
| cleanup
| notify
| none.

Definition post_resume_action_eqb (a b : post_resume_action) : bool :=
  match a, b with
  | register_waiter, register_waiter | callback, callback
  | cleanup, cleanup | notify, notify | none, none => true
  | _, _ => false
  end.

Record thread_data : Type := mk_thread_data {
  my_task_dispatcher : ptr;
  my_post_resume_action : post_resume_action;
  my_post_resume_arg : ptr;
  my_arena_slot : ptr;
  my_arena : addr
}.

Record properties : Type := mk_properties {
  outermost : bool;
  critical_task_allowed : bool
}.

Record task_dispatcher : Type := mk_task_dispatcher {
  m_thread_data : ptr;
  m_suspend_point : ptr;
  m_properties : properties
}.

(** [m_resume_task_target] is [m_resume_task.m_target]; the resume task
    itself is known by the address of its suspend point.  The coroutine
    context is left to the swap. *)
Record suspend_point_type : Type := mk_suspend_point {
  m_arena : ptr;
  m_random : Z;
  m_is_owner_recalled : bool;
  m_resume_task_target : addr
}.

Record arena_slot : Type := mk_arena_slot {
  my_default_task_dispatcher : ptr
}.

(** A task stream holds the tasks pushed, each with its lane. *)
Record arena : Type := mk_arena {
  my_references : Z;
  my_resume_task_stream : list (nat * addr);
  my_critical_task_stream : list (nat * addr);
  my_co_cache : list addr
}.

(** [thread_data::register_waiter_data]: the references [wo] and
    [node]. *)
Record register_waiter_data : Type := mk_register_waiter_data {
  wo : addr;
  node : addr
}.

(** [thread_data::suspend_callback_wrapper]: the callback, its argument
    and the suspend point it is given. *)
Record suspend_callback_wrapper : Type := mk_suspend_callback_wrapper {
  suspend_callback : ptr;
  user_callback : ptr;
  tag : ptr
}.

(** The store: every object at its address, and the next address that
    the allocator hands out. *)
Record world : Type := mk_world {
  tds : addr -> thread_data;
  dispatchers : addr -> task_dispatcher;
  suspend_points : addr -> suspend_point_type;
  slots : addr -> arena_slot;
  arenas : addr -> arena;
  wait_contexts : addr -> wait_context;
  wait_nodes : addr -> wait_node;
  register_datas : addr -> register_waiter_data;
  callback_wrappers : addr -> suspend_callback_wrapper;
  next_free : addr
}.

Definition upd {T} (f : addr -> T) (a : addr) (v : T) : addr -> T :=
  fun a' => if Nat.eqb a' a then v else f a'.

Definition set_td (a : addr) (v : thread_data) (w : world) : world :=
  mk_world (upd (tds w) a v) (dispatchers w) (suspend_points w) (slots w)
           (arenas w) (wait_contexts w) (wait_nodes w) (register_datas w)
           (callback_wrappers w) (next_free w).

Definition set_dispatcher (a : addr) (v : task_dispatcher) (w : world)
  : world :=
  mk_world (tds w) (upd (dispatchers w) a v) (suspend_points w) (slots w)
           (arenas w) (wait_contexts w) (wait_nodes w) (register_datas w)
           (callback_wrappers w) (next_free w).

Definition set_suspend_point (a : addr) (v : suspend_point_type) (w : world)
  : world :=
  mk_world (tds w) (dispatchers w) (upd (suspend_points w) a v) (slots w)
           (arenas w) (wait_contexts w) (wait_nodes w) (register_datas w)
           (callback_wrappers w) (next_free w).

Definition set_arena (a : addr) (v : arena) (w : world) : world :=
  mk_world (tds w) (dispatchers w) (suspend_points w) (slots w)
           (upd (arenas w) a v) (wait_contexts w) (wait_nodes w)
           (register_datas w) (callback_wrappers w) (next_free w).

Definition set_wait_state (a : addr) (s : wstate) (w : world) : world :=
  mk_world (tds w) (dispatchers w) (suspend_points w) (slots w)
           (arenas w) (upd (wait_contexts w) a (ws_wc s)) (ws_nodes s)
           (register_datas w) (callback_wrappers w) (next_free w).

Definition set_callback_wrapper (a : addr) (v : suspend_callback_wrapper)
    (w : world) : world :=
  mk_world (tds w) (dispatchers w) (suspend_points w) (slots w)
           (arenas w) (wait_contexts w) (wait_nodes w) (register_datas w)
           (upd (callback_wrappers w) a v) (next_free w).

Definition set_next_free (n : addr) (w : world) : world :=
  mk_world (tds w) (dispatchers w) (suspend_points w) (slots w)
           (arenas w) (wait_contexts w) (wait_nodes w) (register_datas w)
           (callback_wrappers w) n.

(** *** Calls, as a thread makes them *)

(** What a call does outside the store, in order. *)
Inductive event : Type :=
| EvRegisterWaiter (wo node : addr) (tr : list obs)
| EvCallback (f user sp : ptr)
| EvCleanup (disp : addr)
| EvNotify (flag : addr)
| EvResume (sp : ptr)                       (* r1::resume(sp) entered *)
| EvPush (critical : bool) (lane : nat) (task : addr)
| EvAdvertise (a : addr)
| EvLeave (a : addr)
| EvCachePop (a : addr) (disp : ptr)
| EvAllocate (disp sp : addr)
| EvCoSwap (from to : addr)
| EvRecallPoint (disp : addr).

Inductive failure : Type :=
| AssertionFailure      (* a violated __TBB_ASSERT *)
| NullDereference       (* a null pointer followed *)
| NoFuel.               (* the wait context kept the thread spinning *)

Inductive result (A : Type) : Type :=
| Ok (a : A) (w : world)
| Stop (f : failure).

Arguments Stop {A} f.

(** A call: from a store to what it did and how it ended. *)
Definition M (A : Type) : Type := world -> list event * result A.

Definition ret {A} (a : A) : M A := fun w => ([], Ok a w).

Definition bind {A B} (m : M A) (k : A -> M B) : M B :=
  fun w =>
    match m w with
    | (l, Ok a w') => let (l', r) := k a w' in (l ++ l', r)
    | (l, Stop f) => (l, Stop f)
    end.

Declare Scope sched_scope.
Delimit Scope sched_scope with sched.
Notation "'let*' x ':=' m 'in' k" := (bind m (fun x => k))
  (at level 10, x name, m at level 100, k at level 200) : sched_scope.
Notation "m ';;;' k" := (bind m (fun _ => k))
  (at level 100, k at level 200, right associativity) : sched_scope.
Local Open Scope sched_scope.

Definition get : M world := fun w => ([], Ok w w).
Definition modify (f : world -> world) : M unit := fun w => ([], Ok tt (f w)).
Definition emit (e : event) : M unit := fun w => ([e], Ok tt w).
Definition stop {A} (f : failure) : M A := fun _ => ([], Stop f).

Definition TBB_ASSERT (c : bool) : M unit :=
  if c then ret tt else stop AssertionFailure.

(** Following a pointer. *)
Definition deref (p : ptr) : M addr :=
  match p with
  | Some a => ret a
  | None => stop NullDereference
  end.

Definition is_null (p : ptr) : bool :=
  match p with
  | Some _ => false
  | None => true
  end.

(** *** The rest of the program

    What this file takes from other files of the library and from the
    user: constants, the random lane, the coroutine swap, the user's
    callback, the recall protocol, and the other threads around the wait
    context that a [register_waiter] action works on. *)
Record collaborators : Type := mk_collaborators {
  ref_external : Z;                          (* arena::ref_external *)
  random_lane : Z -> nat;                    (* random_lane_selector *)
  next_random : Z -> Z;
  random_seed : Z;
  co_swap : addr -> addr -> world -> world;  (* co_context::resume *)
  user_code : ptr -> ptr -> ptr -> world -> world;
  recall_point : addr -> world -> world;     (* task_dispatcher::recall_point *)
  lock_flag : Z;
  waiter_flag : Z;
  wait_externals : externals;
  wait_fuel : nat;
  wait_interference : list interference
}.

(** Modelled from the spec: [__TBB_PREVIEW_CRITICAL_TASKS] is set in a
    configuration header that is missing; the spec has both work queues,
    "the critical queue ..., otherwise a regular resumable-task queue",
    so the critical one is compiled in. *)
Definition TBB_PREVIEW_CRITICAL_TASKS : bool := true.

Section Calls.

Variable c : collaborators.

(** Modelled from the spec: [task_stream::push(task, lane_selector)] is
    in a missing header; the spec gives it as
    "work_queue.push(task, lane_hint)", with the lane "selected via a
    randomized lane".  The task goes to the end of the stream, on the
    lane drawn from the suspend point's random state. *)
Definition stream_push (critical : bool) (a sp : addr) : M unit :=
  let* w := get in
  let r := m_random (suspend_points w sp) in
  let lane := random_lane c r in
  let ar := arenas w a in
  modify (set_suspend_point sp
            (mk_suspend_point (m_arena (suspend_points w sp)) (next_random c r)
               (m_is_owner_recalled (suspend_points w sp))
               (m_resume_task_target (suspend_points w sp)))) ;;;
  modify (set_arena a
            (if critical
             then mk_arena (my_references ar) (my_resume_task_stream ar)
                    (my_critical_task_stream ar ++ [(lane, sp)])
                    (my_co_cache ar)
             else mk_arena (my_references ar)
                    (my_resume_task_stream ar ++ [(lane, sp)])
                    (my_critical_task_stream ar) (my_co_cache ar))) ;;;
  emit (EvPush critical lane sp).

Definition add_references (a : addr) (delta : Z) : M unit :=
  let* w := get in
  let ar := arenas w a in
  modify (set_arena a
            (mk_arena (my_references ar + delta) (my_resume_task_stream ar)
               (my_critical_task_stream ar) (my_co_cache ar))).

(** Modelled from the spec: [arena::advertise_new_work] is in a missing
    header; the spec gives it as "wake up idle thread". *)
Definition advertise_new_work (a : addr) : M unit := emit (EvAdvertise a).

(** Modelled from the spec: [arena::on_thread_leaving<ref_external>] is
    in a missing header; the spec gives it as the removal of an external
    reference. *)
Definition on_thread_leaving (a : addr) : M unit :=
  add_references a (- ref_external c) ;;;
  emit (EvLeave a).

(** [r1::resume(sp)].  The first statement is
    [assert_pointers_valid(sp, sp->m_arena)]: its second argument is
    read through [sp] before the call can test [sp], so a null [sp] is
    followed, not caught by the assertion. *)
Definition resume (sp : ptr) : M unit :=
  emit (EvResume sp) ;;;
  let* sp := deref sp in
  let* w := get in
  (* assert_pointers_valid(sp, sp->m_arena) *)
  TBB_ASSERT (negb (is_null (m_arena (suspend_points w sp)))) ;;;
  let task_disp := m_resume_task_target (suspend_points w sp) in
  TBB_ASSERT (is_null (m_thread_data (dispatchers w task_disp))) ;;;
  let* a := deref (m_arena (suspend_points w sp)) in
  add_references a (ref_external c) ;;;
  (if critical_task_allowed (m_properties (dispatchers w task_disp))
   then stream_push false a sp
   else if TBB_PREVIEW_CRITICAL_TASKS
        then stream_push true a sp
        else ret tt) ;;;
  advertise_new_work a ;;;
  on_thread_leaving a.

(** Modelled from the spec: [arena_co_cache::pop] is in a missing
    header; the spec gives the cache as a "reuse pool" that is popped
    and pushed. *)
Definition co_cache_pop (a : addr) : M ptr :=
  let* w := get in
  let ar := arenas w a in
  match my_co_cache ar with
  | [] => emit (EvCachePop a None) ;;; ret None
  | d :: rest =>
      modify (set_arena a
                (mk_arena (my_references ar) (my_resume_task_stream ar)
                   (my_critical_task_stream ar) rest)) ;;;
      emit (EvCachePop a (Some d)) ;;;
      ret (Some d)
  end.

Definition co_cache_push (a d : addr) : M unit :=
  let* w := get in
  let ar := arenas w a in
  modify (set_arena a
            (mk_arena (my_references ar) (my_resume_task_stream ar)
               (my_critical_task_stream ar) (d :: my_co_cache ar))).

(** Modelled from the spec: [cache_aligned_allocate], the constructor of
    [task_dispatcher] and [init_suspend_point] are in missing files; the
    spec has "allocate+initialize a new one".  A dispatcher and its
    suspend point are made at the next two free addresses: no thread
    attached, not recalled, the resume task aimed at the dispatcher. *)
Definition allocate_task_dispatcher (a : addr) : M addr :=
  let* w := get in
  let d := next_free w in
  let sp := S d in
  modify (set_next_free (S sp)) ;;;
  modify (set_dispatcher d
            (mk_task_dispatcher None (Some sp) (mk_properties true true))) ;;;
  modify (set_suspend_point sp
            (mk_suspend_point (Some a) (random_seed c) false d)) ;;;
  emit (EvAllocate d sp) ;;;
  ret d.

Definition create_coroutine (td : addr) : M addr :=
  let* w := get in
  let a := my_arena (tds w td) in
  (* We may have some task dispatchers cached *)
  let* cached := co_cache_pop a in
  let* task_disp :=
    match cached with
    | Some d => ret d
    | None => allocate_task_dispatcher a
    end in
  add_references a (ref_external c) ;;;
  ret task_disp.

(** Modelled from the spec: [thread_data::set_post_resume_action] is in
    a missing header; the spec has "record a pending post-resume
    action". *)
Definition set_post_resume_action (td : addr) (action : post_resume_action)
    (arg : ptr) : M unit :=
  let* w := get in
  let t := tds w td in
  modify (set_td td
            (mk_thread_data (my_task_dispatcher t) action arg
               (my_arena_slot t) (my_arena t))).

(** Modelled from the spec: [thread_data::detach_task_dispatcher] and
    [attach_task_dispatcher] are in a missing header; the spec has
    "detach the thread's state from this, attach it to target (pure
    bookkeeping)" and counts a double attach among the fatal
    assertions. *)
Definition detach_task_dispatcher (td : addr) : M unit :=
  let* w := get in
  let t := tds w td in
  TBB_ASSERT (negb (is_null (my_task_dispatcher t))) ;;;
  let* d := deref (my_task_dispatcher t) in
  let disp := dispatchers w d in
  modify (set_dispatcher d
            (mk_task_dispatcher None (m_suspend_point disp)
               (m_properties disp))) ;;;
  modify (set_td td
            (mk_thread_data None (my_post_resume_action t)
               (my_post_resume_arg t) (my_arena_slot t) (my_arena t))).

Definition attach_task_dispatcher (td target : addr) : M unit :=
  let* w := get in
  let t := tds w td in
  let disp := dispatchers w target in
  TBB_ASSERT (is_null (my_task_dispatcher t)) ;;;
  TBB_ASSERT (is_null (m_thread_data disp)) ;;;
  modify (set_dispatcher target
            (mk_task_dispatcher (Some td) (m_suspend_point disp)
               (m_properties disp))) ;;;
  modify (set_td td
            (mk_thread_data (Some target) (my_post_resume_action t)
               (my_post_resume_arg t) (my_arena_slot t) (my_arena t))).

(** The resume calls that a run on the wait context recorded, made on
    the store. *)
Definition resumed (tr : list obs) : list addr :=
  flat_map (fun o => match o with
                     | OResume sp => [sp]
                     | _ => []
                     end) tr.

Fixpoint resume_all (sps : list addr) : M unit :=
  match sps with
  | [] => ret tt
  | sp :: rest => resume (Some sp) ;;; resume_all rest
  end.

(** The [register_waiter] case: the action runs on the wait context
    [data.wo] among the other threads, and the store takes what it
    leaves. *)
Definition do_register_waiter (arg : addr) : M unit :=
  let* w := get in
  let data := register_datas w arg in
  let sp := my_suspend_point (wait_nodes w (node data)) in
  match run (wait_externals c) (wait_fuel c) (wait_interference c)
            (mk_wstate (wait_contexts w (wo data)) (wait_nodes w))
            (register_waiter_action (lock_flag c) (waiter_flag c)
               (node data) sp)
  with
  | Done _ s _ tr =>
      modify (set_wait_state (wo data) s) ;;;
      emit (EvRegisterWaiter (wo data) (node data) tr) ;;;
      resume_all (resumed tr)
  | Failed tr =>
      emit (EvRegisterWaiter (wo data) (node data) tr) ;;;
      stop AssertionFailure
  | OutOfFuel tr =>
      emit (EvRegisterWaiter (wo data) (node data) tr) ;;;
      stop NoFuel
  end.

(** [thread_data::do_post_resume_action()]. *)
Definition do_post_resume_action (td : addr) : M unit :=
  let* w := get in
  let t := tds w td in
  TBB_ASSERT (negb (post_resume_action_eqb (my_post_resume_action t) none)) ;;;
  TBB_ASSERT (negb (is_null (my_post_resume_arg t))) ;;;
  let* arg := deref (my_post_resume_arg t) in
  match my_post_resume_action t with
  | register_waiter => do_register_waiter arg
  | callback =>
      let cb := callback_wrappers w arg in
      emit (EvCallback (suspend_callback cb) (user_callback cb) (tag cb)) ;;;
      modify (user_code c (suspend_callback cb) (user_callback cb) (tag cb))
  | cleanup =>
      emit (EvCleanup arg) ;;;
      (* Release coroutine's reference to my_arena. *)
      on_thread_leaving (my_arena t) ;;;
      (* Cache the coroutine for possible later re-usage *)
      co_cache_push (my_arena t) arg
  | notify =>
      emit (EvNotify arg) ;;;
      let* w1 := get in
      let sp := suspend_points w1 arg in
      modify (set_suspend_point arg
                (mk_suspend_point (m_arena sp) (m_random sp) true
                   (m_resume_task_target sp)))
  | none => TBB_ASSERT false
  end ;;;
  let* w2 := get in
  let t2 := tds w2 td in
  modify (set_td td
            (mk_thread_data (my_task_dispatcher t2) none None
               (my_arena_slot t2) (my_arena t2))).

(** [task_dispatcher::resume(target)], called on dispatcher [this]. *)
Definition task_dispatcher_resume (this target : addr) : M unit :=
  let* w := get in
  let td := m_thread_data (dispatchers w this) in
  TBB_ASSERT (negb (Nat.eqb target this)) ;;;
  TBB_ASSERT (negb (is_null td)) ;;;
  let* td := deref td in
  TBB_ASSERT (ptr_eqb (my_task_dispatcher (tds w td)) (Some this)) ;;;
  TBB_ASSERT (negb (post_resume_action_eqb
                      (my_post_resume_action (tds w td)) none)) ;;;
  TBB_ASSERT (negb (is_null (my_post_resume_arg (tds w td)))) ;;;
  (* Change the task dispatcher *)
  detach_task_dispatcher td ;;;
  attach_task_dispatcher td target ;;;
  let* w0 := get in
  TBB_ASSERT (negb (is_null (m_suspend_point (dispatchers w0 this)))) ;;;
  TBB_ASSERT (negb (is_null (m_suspend_point (dispatchers w0 target)))) ;;;
  (* Swap to the target coroutine. *)
  emit (EvCoSwap this target) ;;;
  modify (co_swap c this target) ;;;
  (* Pay attention that m_thread_data can be changed after resume *)
  let* w1 := get in
  let td := m_thread_data (dispatchers w1 this) in
  TBB_ASSERT (negb (is_null td)) ;;;
  let* td := deref td in
  TBB_ASSERT (ptr_eqb (my_task_dispatcher (tds w1 td)) (Some this)) ;;;
  do_post_resume_action td ;;;
  (* Remove the recall flag if the thread in its original task dispatcher *)
  let* w2 := get in
  let slot := my_arena_slot (tds w2 td) in
  TBB_ASSERT (negb (is_null slot)) ;;;
  let* slot := deref slot in
  if ptr_eqb (Some this) (my_default_task_dispatcher (slots w2 slot)) then
    TBB_ASSERT (negb (is_null (m_suspend_point (dispatchers w2 this)))) ;;;
    let* sp := deref (m_suspend_point (dispatchers w2 this)) in
    let s := suspend_points w2 sp in
    modify (set_suspend_point sp
              (mk_suspend_point (m_arena s) (m_random s) false
                 (m_resume_task_target s)))
  else ret tt.

(** Modelled from the spec: [task_dispatcher::get_suspend_point] is in a
    missing header; the spec has the suspend point as a handle that the
    dispatcher owns. *)
Definition get_suspend_point (disp : addr) : M ptr :=
  let* w := get in
  ret (m_suspend_point (dispatchers w disp)).

(** The end of [suspend]: [if (m_properties.outermost) recall_point();] *)
Definition recall_if_outermost (this : addr) : M unit :=
  let* w1 := get in
  if outermost (m_properties (dispatchers w1 this)) then
    emit (EvRecallPoint this) ;;;
    modify (recall_point c this)
  else ret tt.

(** [task_dispatcher::suspend(suspend_callback, user_callback)], called
    on dispatcher [this]; [frame] is the address of the local
    [callback]. *)
Definition task_dispatcher_suspend (this : addr)
    (suspend_callback user_callback : ptr) (frame : addr) : M unit :=
  TBB_ASSERT (negb (is_null suspend_callback)) ;;;
  TBB_ASSERT (negb (is_null user_callback)) ;;;
  let* w := get in
  TBB_ASSERT (negb (is_null (m_thread_data (dispatchers w this)))) ;;;
  let* td := deref (m_thread_data (dispatchers w this)) in
  let slot := my_arena_slot (tds w td) in
  TBB_ASSERT (negb (is_null slot)) ;;;
  let* slot := deref slot in
  let* default_task_disp := deref (my_default_task_dispatcher (slots w slot)) in
  let* default_sp := get_suspend_point default_task_disp in
  let* default_sp := deref default_sp in
  let is_recalled := m_is_owner_recalled (suspend_points w default_sp) in
  let* target :=
    if is_recalled then ret default_task_disp else create_coroutine td in
  let* own_sp := get_suspend_point this in
  modify (set_callback_wrapper frame
            (mk_suspend_callback_wrapper suspend_callback user_callback
               own_sp)) ;;;
  set_post_resume_action td callback (Some frame) ;;;
  task_dispatcher_resume this target ;;;
  recall_if_outermost this.

(** The store that the swap starts from: the thread of [this] detached
    from it and attached to [target]. *)
Definition handed_over (this target td : addr) (w : world) : world :=
  let w1 :=
    set_td td
      (mk_thread_data None (my_post_resume_action (tds w td))
         (my_post_resume_arg (tds w td)) (my_arena_slot (tds w td))
         (my_arena (tds w td)))
      (set_dispatcher this
         (mk_task_dispatcher None (m_suspend_point (dispatchers w this))
            (m_properties (dispatchers w this))) w) in
  set_td td
    (mk_thread_data (Some target) (my_post_resume_action (tds w td))
       (my_post_resume_arg (tds w td)) (my_arena_slot (tds w td))
       (my_arena (tds w td)))
    (set_dispatcher target
       (mk_task_dispatcher (Some td) (m_suspend_point (dispatchers w1 target))
          (m_properties (dispatchers w1 target))) w1).

(** The end of [task_dispatcher::resume]: the recall flag of [this] is
    cleared if [this] is the default dispatcher of the thread's slot. *)
Definition recall_cleared (this td : addr) (w : world) : world :=
  match my_arena_slot (tds w td) with
  | Some slot =>
      if ptr_eqb (Some this) (my_default_task_dispatcher (slots w slot)) then
        match m_suspend_point (dispatchers w this) with
        | Some sp =>
            set_suspend_point sp
              (mk_suspend_point (m_arena (suspend_points w sp))
                 (m_random (suspend_points w sp)) false
                 (m_resume_task_target (suspend_points w sp))) w
        | None => w
        end
      else w
  | None => w
  end.

(** The post-resume actions that a call ran, from what it did. *)
Definition actions_run (l : list event) : list post_resume_action :=
  flat_map (fun e => match e with
                     | EvRegisterWaiter _ _ _ => [register_waiter]
                     | EvCallback _ _ _ => [callback]
                     | EvCleanup _ => [cleanup]
                     | EvNotify _ => [notify]
                     | _ => []
                     end) l.

Definition pushes (l : list event) : list (bool * nat * addr) :=
  flat_map (fun e => match e with
                     | EvPush critical lane task => [(critical, lane, task)]
                     | _ => []
                     end) l.

End Calls.

(** What [task_dispatcher::resume] asserts on entry, and what
    [attach_task_dispatcher] asserts of the target. *)
Definition resume_precondition (this target td : addr) (w : world) : Prop :=
  target <> this /\
  m_thread_data (dispatchers w this) = Some td /\
  my_task_dispatcher (tds w td) = Some this /\
  my_post_resume_action (tds w td) <> none /\
  my_post_resume_arg (tds w td) <> None /\
  m_thread_data (dispatchers w target) = None /\
  m_suspend_point (dispatchers w this) <> None /\
  m_suspend_point (dispatchers w target) <> None.

(** What it asserts when the swap has returned: [this] is attached to
    a thread again. *)
Definition resumed_condition (this td' : addr) (w1 : world) : Prop :=
  m_thread_data (dispatchers w1 this) = Some td' /\
  my_task_dispatcher (tds w1 td') = Some this.

(** And after the action: the thread has a slot, and a default
    dispatcher has its suspend point. *)
Definition slot_condition (this td' : addr) (w2 : world) : Prop :=
  exists slot,
    my_arena_slot (tds w2 td') = Some slot /\
    (my_default_task_dispatcher (slots w2 slot) = Some this ->
     m_suspend_point (dispatchers w2 this) <> None).

(** *** Sample values

    Thread 0 in slot 0 of arena 0, attached to its default dispatcher 1
    with a callback pending; dispatcher [d] has suspend point [10 + d];
    dispatcher 2 waits in the cache. *)

Definition sample_world : world :=
  mk_world
    (fun _ => mk_thread_data (Some 1%nat) callback (Some 20%nat) (Some 0%nat) 0)
    (fun d => if Nat.eqb d 1
              then mk_task_dispatcher (Some 0%nat) (Some 11%nat)
                     (mk_properties true true)
              else mk_task_dispatcher None (Some (10 + d)%nat)
                     (mk_properties false true))
    (fun sp => mk_suspend_point (Some 0%nat) 7 false (sp - 10))
    (fun _ => mk_arena_slot (Some 1%nat))
    (fun _ => mk_arena 1 [] [] [2%nat])
    (fun _ => mk_wait_context 1 1 None)
    (fun _ => mk_wait_node None 11)
    (fun _ => mk_register_waiter_data 0 0)
    (fun _ => mk_suspend_callback_wrapper (Some 30%nat) (Some 31%nat)
                (Some 11%nat))
    100.

(** A swap that comes back when another context has resumed [this] on
    thread 0 with a [notify] of the flag of suspend point 11 pending. *)
Definition sample_swap (this target : addr) (w : world) : world :=
  set_td 0
    (mk_thread_data (Some this) notify (Some 11%nat) (Some 0%nat) 0)
    (set_dispatcher this
       (mk_task_dispatcher (Some 0%nat) (m_suspend_point (dispatchers w this))
          (m_properties (dispatchers w this)))
       (set_dispatcher target
          (mk_task_dispatcher None (m_suspend_point (dispatchers w target))
             (m_properties (dispatchers w target))) w)).

Definition sample_collaborators : collaborators :=
  mk_collaborators 1 (fun r => Z.to_nat (r mod 4)) (fun r => r + 1) 0
    sample_swap (fun _ _ _ w => w) (fun _ w => w)
    sample_lock_flag sample_waiter_flag idle_externals 16 [].

End Scheduler.

(** ** Monitors on the record of a run

    A monitor reads the operations of a run one by one: [ok a o] says
    whether operation [o] is allowed in monitor state [a], [step a o] is
    the state after it. *)

Module Monitors.
Import WaitContext.

Section Monitor.

Variable A : Type.
Variable step : A -> obs -> A.
Variable ok : A -> obs -> bool.

Fixpoint accepts (a : A) (tr : list obs) : bool :=
  match tr with
  | [] => true
  | o :: tr' => ok a o && accepts (step a o) tr'
  end.

Definition reach (a : A) (tr : list obs) : A := fold_left step tr a.

(** [keeps x P a t Q]: every run of [t] from a state in [P], finished or
    not, is accepted from [a]; a finished one ends in [Q]. *)
Definition keeps (x : externals) {R} (P : wstate -> Prop) (a : A)
    (t : itree wcE R) (Q : R -> A -> wstate -> Prop) : Prop :=
  forall fuel env s, P s ->
    accepts a (trace_of (run x fuel env s t)) = true /\
    match run x fuel env s t with
    | Done r s' _ tr => Q r (reach a tr) s'
    | _ => True
    end.

End Monitor.

Section LockMonitors.

Variables lock_flag waiter_flag : Z.

(** Test and test-and-set: the monitor state says whether the operation
    just made was a load that found [lock_flag] clear; a [fetch_or] is
    allowed only then. *)
Definition found_free (_ : bool) (o : obs) : bool :=
  match o with
  | OLoad v => negb (has_flag v lock_flag)
  | _ => false
  end.

Definition tested_first (free : bool) (o : obs) : bool :=
  match o with
  | OFetchOr _ _ => free
  | _ => true
  end.

(** The operations of a thread that waits: loads and pauses. *)
Definition is_wait (o : obs) : bool :=
  match o with
  | OLoad _ | OPause => true
  | _ => false
  end.

(** The operations that [publish_wait_list] may make: reads, and a
    compare-exchange that asks for the expected value with
    [waiter_flag] added. *)
Definition adds_flag_only (o : obs) : bool :=
  match o with
  | OLoad _ | OVersion _ => true
  | OCas expected desired _ _ => desired =? Z.lor expected waiter_flag
  | _ => false
  end.

(** The monitor that keeps the record of the run, last operation
    first. *)
Definition record (a : list obs) (o : obs) : list obs := o :: a.

Definition any_op (_ : list obs) (_ : obs) : bool := true.

(** An interference that does not release the lock. *)
Definition keeps_locked (i : interference) : Prop :=
  forall r, has_flag r lock_flag = true -> has_flag (i r) lock_flag = true.

(** What [notify_waiters] does under the lock, from the head it
    finds. *)
Definition notification (s : wstate) : list obs :=
  match m_wait_head (ws_wc s) with
  | Some head =>
      [ONotifyAll head;
       OHeadWrite None (Z.lor (ref_of s) lock_flag)]
  | None => []
  end.

End LockMonitors.

(** The counter is a [uint64_t]. *)
Definition is_uint64 (r : Z) : Prop := 0 <= r < 2 ^ 64.

(** Node 3 at the head of a list whose second node is 4. *)
Definition two_nodes : wstate :=
  mk_wstate (mk_wait_context 1 1 (Some 3%nat))
    (fun n => if Nat.eqb n 3 then mk_wait_node (Some 4%nat) 13
              else mk_wait_node None 14).

End Monitors.

(** ** The entry points of resumable tasks *)

Module EntryPoints.
Import WaitContext Scheduler.
Local Open Scope sched_scope.

Section Entry.

Variable c : collaborators.



End Entry.

(** The last two statements of [do_post_resume_action]: the pending
    action of [td] and its argument cleared. *)
Definition action_cleared (td : addr) (w : world) : world :=
  set_td td
    (mk_thread_data (my_task_dispatcher (tds w td)) none None
       (my_arena_slot (tds w td)) (my_arena (tds w td))) w.

(** [owner_recall_flag.store(true)] on the flag of suspend point
    [flag]. *)
Definition recall_flag_set (flag : addr) (w : world) : world :=
  set_suspend_point flag
    (mk_suspend_point (m_arena (suspend_points w flag))
       (m_random (suspend_points w flag)) true
       (m_resume_task_target (suspend_points w flag))) w.

(** *** Sample values *)

(** Thread 0 with the cleanup of dispatcher 3 pending. *)
Definition cleanup_pending : world :=
  set_td 0 (mk_thread_data (Some 1%nat) cleanup (Some 3%nat) (Some 0%nat) 0)
    sample_world.

(** Thread 0 with a registration pending on a legacy wait context whose
    work is done; the node's suspend point 12 belongs to dispatcher 2,
    which no thread is attached to. *)
Definition finished_legacy : world :=
  mk_world
    (fun _ => mk_thread_data (Some 1%nat) register_waiter (Some 20%nat)
                (Some 0%nat) 0)
    (dispatchers sample_world) (suspend_points sample_world)
    (slots sample_world) (arenas sample_world)
    (fun _ => mk_wait_context 0 0 None)
    (fun _ => mk_wait_node None 12)
    (register_datas sample_world) (callback_wrappers sample_world) 100.

(** Thread 0 away from home: attached to dispatcher 2, with its default
    dispatcher 1 suspended, and a [notify] of the flag of suspend point
    11 pending. *)
Definition away_from_home : world :=
  set_td 0 (mk_thread_data (Some 2%nat) notify (Some 11%nat) (Some 0%nat) 0)
    (set_dispatcher 1
       (mk_task_dispatcher None (Some 11%nat) (mk_properties true true))
       (set_dispatcher 2
          (mk_task_dispatcher (Some 0%nat) (Some 12%nat)
             (mk_properties false true))
          sample_world)).

End EntryPoints.

(** ** The value type of the [blocked_range] conformance test

    [AbstractValueType] of [conformance_blocked_range.cpp] and its three
    operators.  [int] is 32 bits wide and its overflow is undefined:
    an operation that overflows has no result.  The width of
    [std::size_t] is a parameter. *)

Module ConformanceBlockedRange.

Definition INT_MIN : Z := - 2 ^ 31.
Definition INT_MAX : Z := 2 ^ 31 - 1.

Definition in_int (z : Z) : bool := (INT_MIN <=? z) && (z <=? INT_MAX).

(** The result of an [int] operation whose mathematical value is [z]. *)
Definition int_result (z : Z) : option Z :=
  if in_int z then Some z else None.

Record AbstractValueType : Type := mk_AbstractValueType { value : Z }.

Definition MakeAbstractValueType (i : Z) : AbstractValueType :=
  mk_AbstractValueType i.

Definition GetValueOf (v : AbstractValueType) : Z := value v.

Section SizeT.

Variable size_bits : Z.

(** The conversion of an [int] to [std::size_t]. *)
Definition to_size_t (z : Z) : Z := z mod 2 ^ size_bits.

(** [int(offset)]: the conversion of a [std::size_t] to [int], modulo
    2^32. *)
Definition to_int (z : Z) : Z := (z + 2 ^ 31) mod 2 ^ 32 - 2 ^ 31.

(** [operator-]: [return GetValueOf(u) - GetValueOf(v);] as a
    [std::size_t]. *)
Definition minus (u v : AbstractValueType) : option Z :=
  option_map to_size_t (int_result (GetValueOf u - GetValueOf v)).

(** [operator<]. *)
Definition less (u v : AbstractValueType) : bool :=
  GetValueOf u <? GetValueOf v.

(** [operator+]:
    [return MakeAbstractValueType(GetValueOf(u) + int(offset));] *)
Definition plus (u : AbstractValueType) (offset : Z)
  : option AbstractValueType :=
  option_map MakeAbstractValueType
    (int_result (GetValueOf u + to_int offset)).

End SizeT.

End ConformanceBlockedRange.

Module WaitContextFacts.
Import WaitContext.

(** *** The runner on the constructors of a tree *)

Definition prepend {R} (tr : list obs) (out : outcome R) : outcome R :=
  fold_right (@after R) out tr.

Lemma run_unfold (x : externals) R fuel env s (t : itree wcE R) :
  run x fuel env s t =
  match observe t with
  | RetF r => Done r s fuel []
  | TauF t' =>
      match fuel with
      | O => OutOfFuel []
      | S f => run x f env s t'
      end
  | VisF e k =>
      match fuel with
      | O => OutOfFuel []
      | S f =>
          match handle x e (interfere (hd no_interference env) s) with
          | None => Failed []
          | Some (ans, s', o) => after o (run x f (tl env) s' (k ans))
          end
      end
  end.
Proof. destruct fuel; reflexivity. Qed.

Lemma run_observe (x : externals) R fuel env s (t u : itree wcE R) :
  observe t = observe u -> run x fuel env s t = run x fuel env s u.
Proof.
  intros E. rewrite (run_unfold x fuel env s t), (run_unfold x fuel env s u), E.
  reflexivity.
Qed.

Lemma run_ret (x : externals) R fuel env s (r : R) :
  run x fuel env s (Ret r) = Done r s fuel [].
Proof. destruct fuel; reflexivity. Qed.

Lemma run_tau (x : externals) R fuel env s (t : itree wcE R) :
  run x (S fuel) env s (Tau t) = run x fuel env s t.
Proof. reflexivity. Qed.

Lemma run_bind (x : externals) R U fuel :
  forall env s (t : itree wcE R) (k : R -> itree wcE U),
  run x fuel env s (ITree.bind t k) =
  match run x fuel env s t with
  | Done r s' fuel' tr =>
      prepend tr (run x fuel' (skipn (length tr) env) s' (k r))
  | Failed tr => Failed tr
  | OutOfFuel tr => OutOfFuel tr
  end.
Proof.
  induction fuel as [|fuel IH]; intros env s t k;
    rewrite (run_unfold x _ env s (ITree.bind t k)), observe_bind,
            (run_unfold x _ env s t);
    destruct (observe t) as [r|t'|X e ke]; simpl.
  - reflexivity.
  - reflexivity.
  - reflexivity.
  - reflexivity.
  - apply IH.
  - destruct (handle x e (interfere (hd no_interference env) s))
      as [[[ans s'] o]|]; [|reflexivity].
    rewrite IH.
    destruct (run x fuel (tl env) s' (ke ans)); simpl; try reflexivity.
    destruct env; simpl; try reflexivity.
    destruct (length tr); reflexivity.
Qed.

Lemma run_trigger_bind (x : externals) X R fuel env s (e : wcE X)
    (k : X -> itree wcE R) :
  run x (S fuel) env s (ITree.bind (ITree.trigger e) k) =
  match handle x e (interfere (hd no_interference env) s) with
  | None => Failed []
  | Some (ans, s', o) => after o (run x fuel (tl env) s' (k ans))
  end.
Proof.
  rewrite run_unfold. simpl.
  destruct (handle x e (interfere (hd no_interference env) s))
    as [[[ans s'] o]|]; [|reflexivity].
  f_equal. apply run_observe. reflexivity.
Qed.

Lemma run_trigger (x : externals) X fuel env s (e : wcE X) :
  run x (S fuel) env s (ITree.trigger e) =
  match handle x e (interfere (hd no_interference env) s) with
  | None => Failed []
  | Some (ans, s', o) => Done ans s' fuel [o]
  end.
Proof.
  rewrite run_unfold. simpl.
  destruct (handle x e (interfere (hd no_interference env) s))
    as [[[ans s'] o]|]; [|reflexivity].
  rewrite run_ret. reflexivity.
Qed.

Lemma run_iter (x : externals) I R fuel env s (body : I -> itree wcE (I + R))
    (i : I) :
  run x fuel env s (ITree.iter body i) =
  run x fuel env s
    (ITree.bind (body i) (fun lr =>
       match lr with
       | inl l => Tau (ITree.iter body l)
       | inr r => Ret r
       end)).
Proof. apply run_observe. reflexivity. Qed.

Lemma prepend_done R tr (r : R) s fuel tr' :
  prepend tr (Done r s fuel tr') = Done r s fuel (tr ++ tr').
Proof. induction tr as [|o tr IH]; simpl; [|rewrite IH]; reflexivity. Qed.

Lemma prepend_failed R tr tr' :
  prepend tr (@Failed R tr') = Failed (tr ++ tr').
Proof. induction tr as [|o tr IH]; simpl; [|rewrite IH]; reflexivity. Qed.

Lemma prepend_out_of_fuel R tr tr' :
  prepend tr (@OutOfFuel R tr') = OutOfFuel (tr ++ tr').
Proof. induction tr as [|o tr IH]; simpl; [|rewrite IH]; reflexivity. Qed.

Lemma skipn_1_tl A (l : list A) : skipn 1 l = tl l.
Proof. destruct l; reflexivity. Qed.

Section PublishWaitList.

Variables lock_flag waiter_flag : Z.
Variable x : externals.

Local Abbreviation round := (publish_round lock_flag waiter_flag).
Local Abbreviation count := (work_count lock_flag waiter_flag).

Lemma run_continue_execution fuel env s :
  run x (S fuel) env s (continue_execution lock_flag waiter_flag) =
  let s1 := interfere (hd no_interference env) s in
  Done (0 <? count (ref_of s1)) s1 fuel [OLoad (ref_of s1)].
Proof.
  unfold continue_execution. rewrite run_trigger_bind. simpl.
  rewrite run_ret. reflexivity.
Qed.

Lemma run_is_locked fuel env s :
  run x (S fuel) env s (is_locked lock_flag) =
  let s1 := interfere (hd no_interference env) s in
  Done (has_flag (ref_of s1) lock_flag) s1 fuel [OLoad (ref_of s1)].
Proof.
  unfold is_locked. rewrite run_trigger_bind. simpl.
  rewrite run_ret. reflexivity.
Qed.

(** One round of the loop of [publish_wait_list], as the runner sees
    it. *)
Lemma run_publish_round fuel env s expected :
  run x (S (S (S fuel))) env s (ITree.iter round expected) =
  if has_flag expected waiter_flag then Done expected s (S (S (S fuel))) []
  else
    let s1 := interfere (hd no_interference env) s in
    if 0 <? count (ref_of s1) then
      let s2 := interfere (hd no_interference (tl env)) s1 in
      if ref_of s2 =? expected then
        Done (Z.lor expected waiter_flag)
             (on_wc (set_ref_count (Z.lor expected waiter_flag)) s2)
             (S fuel)
             [OLoad (ref_of s1);
              OCas expected (Z.lor expected waiter_flag) true (ref_of s2)]
      else
        prepend [OLoad (ref_of s1);
                 OCas expected (Z.lor expected waiter_flag) false (ref_of s2)]
                (run x fuel (tl (tl env)) s2 (ITree.iter round (ref_of s2)))
    else Done expected s1 (S (S fuel)) [OLoad (ref_of s1)].
Proof.
  rewrite run_iter. unfold publish_round at 1.
  destruct (has_flag expected waiter_flag) eqn:Hf.
  - rewrite run_bind, run_ret. simpl. reflexivity.
  - rewrite !run_bind, run_continue_execution. cbv zeta.
    destruct (0 <? count (ref_of (interfere (hd no_interference env) s))).
    + simpl length. rewrite skipn_1_tl.
      rewrite run_bind, run_trigger. simpl handle.
      destruct (ref_of (interfere (hd no_interference (tl env))
                  (interfere (hd no_interference env) s)) =? expected).
      * reflexivity.
      * destruct env as [|i1 [|i2 env]]; reflexivity.
    + reflexivity.
Qed.

(** Facts on the records. *)

Local Abbreviation positive := (WaitContext.positive lock_flag waiter_flag).
Local Abbreviation zero_seen := (WaitContext.zero_seen lock_flag waiter_flag).
Local Abbreviation flag_seen := (WaitContext.flag_seen waiter_flag).
Local Abbreviation all_positive :=
  (WaitContext.all_positive lock_flag waiter_flag).
Local Abbreviation only_zero := (WaitContext.only_zero lock_flag waiter_flag).
Local Abbreviation zero_absorbing :=
  (WaitContext.zero_absorbing lock_flag waiter_flag).
Local Abbreviation zero_before_flag :=
  (WaitContext.zero_before_flag lock_flag waiter_flag).

Lemma positive_load v : positive (OLoad v) = (0 <? count v).
Proof. reflexivity. Qed.

Lemma zero_seen_load v : zero_seen (OLoad v) = negb (0 <? count v).
Proof. reflexivity. Qed.

Lemma flag_seen_load v : flag_seen (OLoad v) = has_flag v waiter_flag.
Proof. reflexivity. Qed.

Lemma zero_seen_cas e d b v : zero_seen (OCas e d b v) = negb (0 <? count v).
Proof. reflexivity. Qed.

Lemma flag_seen_cas e d b v : flag_seen (OCas e d b v) = has_flag v waiter_flag.
Proof. reflexivity. Qed.

Lemma zero_before_flag_cons o tr :
  zero_before_flag (o :: tr) =
  if flag_seen o then false
  else if zero_seen o then true else zero_before_flag tr.
Proof. reflexivity. Qed.

(** Once the work has been seen at zero, everything later sees zero. *)
Lemma zero_then_only_zero a b o :
  zero_absorbing (a ++ b) = true ->
  In o a -> zero_seen o = true -> only_zero b = true.
Proof.
  induction a as [|o' a IH]; simpl; intros H Hin Hz; [contradiction|].
  apply andb_true_iff in H. destruct H as [H1 H2].
  destruct Hin as [->|Hin]; [|exact (IH H2 Hin Hz)].
  rewrite Hz in H1.
  unfold WaitContext.only_zero in H1. rewrite forallb_app in H1.
  apply andb_true_iff in H1. tauto.
Qed.

Lemma zero_before_flag_has_zero a :
  zero_before_flag a = true -> exists o, In o a /\ zero_seen o = true.
Proof.
  induction a as [|o a IH]; simpl; [discriminate|].
  destruct (WaitContext.flag_seen waiter_flag o); [discriminate|].
  destruct (WaitContext.zero_seen lock_flag waiter_flag o) eqn:Hz.
  - intros _. exists o. auto.
  - intros H. destruct (IH H) as (o' & Hin & Ho'). exists o'. auto.
Qed.

(** A zero before the flag in [a ++ b] lies in [a], or [a] is free of
    zeros and it lies in [b]. *)
Lemma zero_before_flag_app a b :
  zero_before_flag (a ++ b) = true ->
  zero_before_flag a = true \/
  (forallb (fun o => negb (zero_seen o)) a = true /\
   zero_before_flag b = true).
Proof.
  induction a as [|o a IH]; simpl; intros H; [auto|].
  destruct (WaitContext.flag_seen waiter_flag o); [discriminate|].
  destruct (WaitContext.zero_seen lock_flag waiter_flag o) eqn:Hz; [auto|].
  simpl. exact (IH H).
Qed.

Lemma has_flag_lor e : waiter_flag <> 0 -> has_flag (Z.lor e waiter_flag) waiter_flag = true.
Proof.
  intros Hw. unfold has_flag.
  replace (Z.land (Z.lor e waiter_flag) waiter_flag) with waiter_flag.
  - apply negb_true_iff. apply Z.eqb_neq. exact Hw.
  - apply Z.bits_inj'. intros n _.
    rewrite Z.land_spec, Z.lor_spec.
    destruct (Z.testbit e n), (Z.testbit waiter_flag n); reflexivity.
Qed.

Lemma interfere_id s : interfere no_interference s = s.
Proof. destruct s as [[v r h] nx]. reflexivity. Qed.

(** Fuel that the loop needs: three units for each round that an
    interference can spoil, and a last quiet round. *)
Definition loop_fuel (env : list interference) (s : wstate) (expected : Z)
  : nat :=
  match env with
  | [] => if ref_of s =? expected then 3 else 6
  | _ => 3 * length env + 6
  end.

(** What a finished run of the loop guarantees; [pre] holds the
    observations made before the loop. *)
Definition loop_post (pre : list obs) (e' : Z) (s' : wstate) (tr : list obs)
  : Prop :=
  (all_positive (pre ++ tr) = true ->
   has_flag e' waiter_flag = true /\
   (has_flag (ref_of s') waiter_flag = true \/
    flag_observed waiter_flag (pre ++ tr) = true)) /\
  (zero_absorbing (pre ++ tr) = true ->
   zero_before_flag (pre ++ tr) = true ->
   has_flag e' waiter_flag = false /\ no_cas_success tr = true) /\
  (zero_absorbing (pre ++ tr) = true ->
   forallb (cas_with_work lock_flag waiter_flag) tr = true).

Hypothesis waiter_flag_nonzero : waiter_flag <> 0.

Lemma publish_loop_spec fuel :
  forall env s expected pre,
  (loop_fuel env s expected <= fuel)%nat ->
  (exists o, In o pre /\ seen o = Some expected) ->
  (zero_absorbing pre = true -> zero_before_flag pre = true ->
   has_flag expected waiter_flag = false) ->
  exists e' s' f' tr,
    run x fuel env s (ITree.iter round expected) = Done e' s' f' tr /\
    loop_post pre e' s' tr.
Proof.
  induction fuel as [fuel IH] using lt_wf_ind.
  intros env s expected pre Hfuel (o & Hin & Hseen) Hinv.
  assert (Hge : (3 <= fuel)%nat).
  { unfold loop_fuel in Hfuel. destruct env; [|simpl in Hfuel; lia].
    destruct (ref_of s =? expected); lia. }
  destruct fuel as [|[|[|f]]]; try lia. clear Hge.
  rewrite run_publish_round.
  destruct (has_flag expected waiter_flag) eqn:Hf.
  { (* the flag is already in [expected] *)
    exists expected, s, (S (S (S f))), []. split; [reflexivity|].
    unfold loop_post. rewrite !app_nil_r.
    split; [intros Hp; split|split; [intros Habs Hz; split|intros Habs]].
    - exact Hf.
    - right. unfold flag_observed. apply existsb_exists. exists o.
      split; [exact Hin|]. unfold WaitContext.flag_seen. rewrite Hseen. exact Hf.
    - pose proof (Hinv Habs Hz). congruence.
    - reflexivity.
    - reflexivity. }
  cbv zeta.
  remember (interfere (hd no_interference env) s) as s1 eqn:Es1.
  destruct (0 <? count (ref_of s1)) eqn:Hc.
  2:{ (* continue_execution() is false *)
    exists expected, s1, (S (S f)), [OLoad (ref_of s1)].
    split; [reflexivity|]. unfold loop_post.
    assert (Hnp : all_positive (pre ++ [OLoad (ref_of s1)]) = true -> False).
    { intros H. unfold WaitContext.all_positive in H.
      rewrite forallb_app in H. apply andb_true_iff in H.
      destruct H as [_ H]. simpl in H. rewrite positive_load, Hc in H.
      discriminate. }
    split; [intros Hp; split|split; [intros Habs Hz; split|intros Habs]].
    - destruct (Hnp Hp).
    - destruct (Hnp Hp).
    - exact Hf.
    - reflexivity.
    - reflexivity. }
  remember (interfere (hd no_interference (tl env)) s1) as s2 eqn:Es2.
  (* a zero seen before the loop contradicts the load just made *)
  assert (Hnozero : forall rest o',
            zero_absorbing (pre ++ OLoad (ref_of s1) :: rest) = true ->
            In o' pre -> zero_seen o' = true -> False).
  { intros rest o' Habs Hin' Hz.
    pose proof (zero_then_only_zero _ _ _ Habs Hin' Hz) as Hoz.
    unfold WaitContext.only_zero in Hoz. simpl in Hoz.
    rewrite Hc in Hoz. discriminate. }
  (* a zero before the flag, once the load has seen work, is at the
     compare-exchange *)
  assert (Hatcas : forall b,
            zero_absorbing
              (pre ++ [OLoad (ref_of s1);
                       OCas expected (Z.lor expected waiter_flag) b (ref_of s2)])
              = true ->
            zero_before_flag
              (pre ++ [OLoad (ref_of s1);
                       OCas expected (Z.lor expected waiter_flag) b (ref_of s2)])
              = true ->
            forallb (fun o => negb (zero_seen o)) pre = true /\
            has_flag (ref_of s2) waiter_flag = false /\
            (0 <? count (ref_of s2)) = false).
  { intros b Habs Hz.
    destruct (zero_before_flag_app _ _ Hz) as [Hz'|[Hnz Hz']].
    - exfalso. destruct (zero_before_flag_has_zero _ Hz') as (o' & Hin' & Ho').
      exact (Hnozero _ o' Habs Hin' Ho').
    - split; [exact Hnz|].
      rewrite !zero_before_flag_cons in Hz'.
      rewrite zero_seen_load, Hc, flag_seen_cas, zero_seen_cas in Hz'.
      simpl in Hz'.
      destruct (flag_seen (OLoad (ref_of s1))); [discriminate|].
      destruct (has_flag (ref_of s2) waiter_flag); [discriminate|].
      destruct (0 <? count (ref_of s2)); [discriminate|]. auto. }
  destruct (ref_of s2 =? expected) eqn:Hcas.
  { (* the compare-exchange succeeds *)
    apply Z.eqb_eq in Hcas.
    assert (Hwork : zero_absorbing
              (pre ++ [OLoad (ref_of s1);
                       OCas expected (Z.lor expected waiter_flag) true
                            (ref_of s2)]) = true ->
            (0 <? count expected) = true).
    { intros Habs. destruct (0 <? count expected) eqn:He; [reflexivity|].
      exfalso. apply (Hnozero _ o Habs Hin).
      unfold WaitContext.zero_seen. rewrite Hseen, He. reflexivity. }
    eexists _, _, _, _. split; [reflexivity|].
    unfold loop_post.
    split; [intros Hp; split|split; [intros Habs Hz; split|intros Habs]].
    - apply has_flag_lor; assumption.
    - left. simpl. apply has_flag_lor; assumption.
    - exfalso. destruct (Hatcas true Habs Hz) as (_ & _ & Hz').
      rewrite Hcas, (Hwork Habs) in Hz'. discriminate.
    - exfalso. destruct (Hatcas true Habs Hz) as (_ & _ & Hz').
      rewrite Hcas, (Hwork Habs) in Hz'. discriminate.
    - simpl. rewrite Hcas, (Hwork Habs). reflexivity. }
  (* the compare-exchange fails: another round *)
  remember (OCas expected (Z.lor expected waiter_flag) false (ref_of s2))
    as cas eqn:Ecas.
  destruct (IH f ltac:(lia) (tl (tl env)) s2 (ref_of s2)
              (pre ++ [OLoad (ref_of s1); cas]))
    as (e' & s' & f' & tr & Hrun & Hpost).
  { unfold loop_fuel in *. destruct env as [|i1 [|i2 env]].
    - subst s2 s1. simpl. rewrite !interfere_id in *. rewrite Hcas in Hfuel.
      rewrite Z.eqb_refl. lia.
    - simpl. rewrite Z.eqb_refl. simpl in Hfuel. lia.
    - simpl tl. simpl length in Hfuel.
      destruct env as [|i3 env]; [rewrite Z.eqb_refl|]; simpl length in *; lia. }
  { exists cas. split; [|subst cas; reflexivity].
    apply in_or_app. right. simpl. auto. }
  { intros Habs Hz. subst cas. apply (Hatcas false Habs Hz). }
  rewrite Hrun. simpl.
  exists e', s', f', (OLoad (ref_of s1) :: cas :: tr). split; [reflexivity|].
  unfold loop_post in *. rewrite <- !app_assoc in Hpost. simpl in Hpost.
  destruct Hpost as (P1 & P2 & P3).
  split; [intros Hp; split|split; [intros Habs Hz; split|intros Habs]].
  - apply P1; assumption.
  - apply P1; assumption.
  - apply P2; assumption.
  - simpl. rewrite Ecas at 1. simpl. apply P2; assumption.
  - simpl. rewrite Ecas at 1. simpl. apply P3; assumption.
Qed.

(** [publish_wait_list] among interfering threads: it returns, and
    what it returns follows what it saw. *)
Lemma run_publish_wait_list fuel env s :
  (3 * length env + 9 <= fuel)%nat ->
  m_version_and_traits (ws_wc s) = 0 \/
  has_flag (ref_at_assert env s) lock_flag = true ->
  exists r s' fuel' tr,
    run x fuel env s (publish_wait_list lock_flag waiter_flag)
      = Done r s' fuel' tr /\
    (all_positive tr = true ->
     r = true /\
     (has_flag (ref_of s') waiter_flag = true \/
      flag_observed waiter_flag tr = true)) /\
    (zero_absorbing tr = true -> zero_before_flag tr = true ->
     r = false /\ no_cas_success tr = true) /\
    (zero_absorbing tr = true ->
     forallb (cas_with_work lock_flag waiter_flag) tr = true).
Proof.
  intros Hfuel Hassert.
  destruct fuel as [|[|[|f]]]; try lia.
  unfold publish_wait_list.
  rewrite run_trigger_bind. simpl handle. cbv iota.
  rewrite run_bind, run_is_locked. cbv zeta.
  cbv iota beta. simpl length. rewrite skipn_1_tl.
  remember (interfere (hd no_interference env) s) as s1 eqn:Es1.
  remember (interfere (hd no_interference (tl env)) s1) as s2 eqn:Es2.
  assert (Hat : ref_of s2 = ref_at_assert env s) by (subst; reflexivity).
  assert (Hver2 : m_version_and_traits (ws_wc s2)
                  = m_version_and_traits (ws_wc s)) by (subst; reflexivity).
  (* the loop, entered after the assertion with [pre] observed *)
  assert (Hloop : forall f2 env2 s3 pre,
            (3 * length env2 + 6 <= f2)%nat ->
            In (OLoad (ref_of s1)) pre ->
            forallb (fun o => negb (cas_success o)) pre = true ->
            (zero_before_flag pre = true ->
             has_flag (ref_of s1) waiter_flag = false) ->
            exists r s' fuel' tr,
              prepend pre
                (run x f2 env2 s3
                   (ITree.bind (ITree.iter round (ref_of s1))
                      (fun expected => Ret (has_flag expected waiter_flag))))
                = Done r s' fuel' tr /\
              (all_positive tr = true ->
               r = true /\
               (has_flag (ref_of s') waiter_flag = true \/
                flag_observed waiter_flag tr = true)) /\
              (zero_absorbing tr = true -> zero_before_flag tr = true ->
               r = false /\ no_cas_success tr = true) /\
              (zero_absorbing tr = true ->
               forallb (cas_with_work lock_flag waiter_flag) tr = true)).
  { intros f2 env2 s3 pre Hf2 Hin Hnocas Hz.
    destruct (@publish_loop_spec f2 env2 s3 (ref_of s1) pre)
      as (e' & s' & f' & tr & Hrun & P1 & P2 & P3).
    - unfold loop_fuel. destruct env2; [destruct (_ =? _)|]; simpl length in *; lia.
    - exists (OLoad (ref_of s1)). split; [exact Hin|reflexivity].
    - intros _. exact Hz.
    - rewrite run_bind, Hrun, run_ret.
      exists (has_flag e' waiter_flag), s', f', (pre ++ tr).
      rewrite !prepend_done, app_nil_r.
      assert (Hcw : forallb (cas_with_work lock_flag waiter_flag) pre = true).
      { rewrite forallb_forall in *. intros o Ho. specialize (Hnocas o Ho).
        destruct o; try reflexivity. destruct ok; [discriminate|reflexivity]. }
      split; [reflexivity|]. split; [exact P1|]. split.
      + intros Habs Hzb. destruct (P2 Habs Hzb) as [Hr Hn].
        split; [exact Hr|]. unfold no_cas_success in *.
        rewrite forallb_app, Hnocas, Hn. reflexivity.
      + intros Habs. rewrite forallb_app, Hcw, (P3 Habs). reflexivity. }
  assert (Hflag0 : forall rest,
            zero_before_flag (OLoad (ref_of s1) :: rest) = true ->
            has_flag (ref_of s1) waiter_flag = false).
  { intros rest. rewrite zero_before_flag_cons, flag_seen_load.
    destruct (has_flag (ref_of s1) waiter_flag); [discriminate|reflexivity]. }
  destruct (has_flag (ref_of s2) lock_flag) eqn:Hlocked.
  - (* the lock is held *)
    rewrite run_bind, run_ret. simpl prepend. simpl length. simpl skipn.
    apply (Hloop (S f) (tl (tl env)) s2
             [OLoad (ref_of s1); OLoad (ref_of s2)]).
    + destruct env as [|i1 [|i2 env]]; simpl length in *; lia.
    + simpl. auto.
    + reflexivity.
    + apply Hflag0.
  - (* a legacy wait context *)
    destruct Hassert as [Hver|Hl]; [|rewrite Hat in Hlocked; congruence].
    rewrite !run_bind, run_trigger. simpl handle. cbv iota beta.
    rewrite Hver2, Hver. simpl length. rewrite skipn_1_tl.
    change (tbb_assert (0 =? 0)) with (Ret tt : itree wcE unit).
    rewrite run_ret.
    apply (Hloop f (tl (tl (tl env)))
             (interfere (hd no_interference (tl (tl env))) s2)
             [OLoad (ref_of s1); OLoad (ref_of s2); OVersion 0]).
    + destruct env as [|i1 [|i2 [|i3 env]]]; simpl length in *; lia.
    + simpl. auto.
    + reflexivity.
    + apply Hflag0.
Qed.

(** C1, as the code has it.  [publish_wait_list] among interfering
    threads, with fuel for every round that an interference can spoil,
    called with the lock held or on a legacy wait context: the call
    returns.  If every observation of the counter during the call saw
    outstanding work > 0, it returns true and [waiter_flag] is set: by
    the call itself, whose compare-exchange leaves it in the counter, or
    by another thread, in which case the call saw it.  If the work
    reaches zero for good (an observation sees zero and every later one
    does) before the flag is in the counter, the call returns false and
    has set nothing; and when zero is for good, no compare-exchange of
    the call sets the flag on a counter whose work is at zero. *)
Theorem publish_wait_list_spec fuel env s :
  (3 * length env + 9 <= fuel)%nat ->
  m_version_and_traits (ws_wc s) = 0 \/
  has_flag (ref_at_assert env s) lock_flag = true ->
  exists r s' fuel' tr,
    run x fuel env s (publish_wait_list lock_flag waiter_flag)
      = Done r s' fuel' tr /\
    (all_positive tr = true ->
     r = true /\
     (has_flag (ref_of s') waiter_flag = true \/
      flag_observed waiter_flag tr = true)) /\
    (zero_absorbing tr = true -> zero_before_flag tr = true ->
     r = false /\ no_cas_success tr = true) /\
    (zero_absorbing tr = true ->
     forallb (cas_with_work lock_flag waiter_flag) tr = true).
Proof. apply run_publish_wait_list. Qed.

End PublishWaitList.

(** *** Finished runs, taken apart *)

Section Inversion.

Variable x : externals.

Lemma run_ret_done R fuel env s (r a : R) s' fuel' tr :
  run x fuel env s (Ret r) = Done a s' fuel' tr ->
  a = r /\ s' = s /\ fuel' = fuel /\ tr = [].
Proof. rewrite run_ret. intros H. injection H; intros; subst. auto. Qed.

Lemma run_trigger_done X (e : wcE X) fuel env s a s' fuel' tr :
  run x fuel env s (ITree.trigger e) = Done a s' fuel' tr ->
  exists o,
    fuel = S fuel' /\
    handle x e (interfere (hd no_interference env) s) = Some (a, s', o) /\
    tr = [o].
Proof.
  destruct fuel as [|fuel]; [discriminate|]. rewrite run_trigger.
  destruct (handle x e (interfere (hd no_interference env) s))
    as [[[ans s1] o]|]; [|discriminate].
  intros H. injection H; intros; subst. exists o. auto.
Qed.

Lemma run_bind_done R U (t : itree wcE R) (k : R -> itree wcE U)
    fuel env s u s2 fuel2 tr :
  run x fuel env s (ITree.bind t k) = Done u s2 fuel2 tr ->
  exists r s1 fuel1 tr1 tr2,
    run x fuel env s t = Done r s1 fuel1 tr1 /\
    run x fuel1 (skipn (length tr1) env) s1 (k r) = Done u s2 fuel2 tr2 /\
    tr = tr1 ++ tr2.
Proof.
  rewrite run_bind.
  destruct (run x fuel env s t) as [r s1 f1 tr1|tr1|tr1];
    [|discriminate|discriminate].
  destruct (run x f1 (skipn (length tr1) env) s1 (k r))
    as [u' s3 f3 tr2|tr2|tr2] eqn:E;
    rewrite ?prepend_done, ?prepend_failed, ?prepend_out_of_fuel;
    [|discriminate|discriminate].
  intros H. injection H; intros; subst.
  exists r, s1, f1, tr1, tr2. auto.
Qed.

Lemma run_assert_done c fuel env s a s' fuel' tr :
  run x fuel env s (tbb_assert c) = Done a s' fuel' tr ->
  c = true /\ s' = s /\ fuel' = fuel /\ tr = [].
Proof.
  destruct c; simpl.
  - intros H. apply run_ret_done in H. tauto.
  - destruct fuel; discriminate.
Qed.

Lemma run_tau_done R (t : itree wcE R) fuel env s a s' fuel' tr :
  run x fuel env s (Tau t) = Done a s' fuel' tr ->
  exists f, fuel = S f /\ run x f env s t = Done a s' fuel' tr.
Proof.
  destruct fuel as [|f]; [discriminate|]. rewrite run_tau. eauto.
Qed.

End Inversion.

Section Composition.

Variable x : externals.

Lemma run_bind_intro R U (t : itree wcE R) (k : R -> itree wcE U)
    fuel env s r s1 fuel1 tr1 u s2 fuel2 tr2 :
  run x fuel env s t = Done r s1 fuel1 tr1 ->
  run x fuel1 (skipn (length tr1) env) s1 (k r) = Done u s2 fuel2 tr2 ->
  run x fuel env s (ITree.bind t k) = Done u s2 fuel2 (tr1 ++ tr2).
Proof.
  intros Ht Hk. rewrite run_bind, Ht, Hk. apply prepend_done.
Qed.

Lemma run_trigger_intro X (e : wcE X) fuel env s a s' o :
  handle x e (interfere (hd no_interference env) s) = Some (a, s', o) ->
  run x (S fuel) env s (ITree.trigger e) = Done a s' fuel [o].
Proof. intros H. rewrite run_trigger, H. reflexivity. Qed.

Lemma run_version_read fuel env s :
  run x (S fuel) env s (ITree.trigger VersionRead) =
  Done (m_version_and_traits (ws_wc s)) (interfere (hd no_interference env) s)
       fuel [OVersion (m_version_and_traits (ws_wc s))].
Proof. rewrite run_trigger. reflexivity. Qed.

(** More fuel changes nothing in a finished run but the fuel left. *)
Lemma run_fuel_mono R k fuel :
  forall env s (t : itree wcE R) r s' fuel' tr,
  run x fuel env s t = Done r s' fuel' tr ->
  run x (k + fuel) env s t = Done r s' (k + fuel') tr.
Proof.
  induction fuel as [|fuel IH]; intros env s t r s' fuel' tr;
    rewrite (run_unfold x _ env s t), (run_unfold x (k + _) env s t);
    destruct (observe t) as [r0|t'|X e ke];
    try discriminate;
    try (intros H; injection H; intros; subst; reflexivity).
  - rewrite Nat.add_succ_r. apply IH.
  - rewrite Nat.add_succ_r.
    destruct (handle x e (interfere (hd no_interference env) s))
      as [[[ans s1] o]|]; [|discriminate].
    destruct (run x fuel (tl env) s1 (ke ans)) eqn:E; try discriminate.
    simpl. intros H. injection H; intros; subst.
    rewrite (IH _ _ _ _ _ _ _ E). reflexivity.
Qed.

End Composition.

(** *** Critical sections

    A small program logic on the runner.  [safe P h t Q] says: in every
    run of [t] from a state that satisfies [P], entered with the lock
    held or not ([h]), under every interference and with every amount
    of fuel, finished or not, the operations that [crit] selects are
    made with the lock held; and a finished run leaves a result, a lock
    state and a state that satisfy [Q]. *)

Section Locking.

Variable lock_flag : Z.
Variable x : externals.
Variable crit : obs -> bool.

Local Abbreviation holds := (WaitContext.holds lock_flag).
Local Abbreviation held_after := (WaitContext.held_after lock_flag).
Local Abbreviation inside_lock := (WaitContext.inside_lock lock_flag crit).

Definition safe {R} (P : wstate -> Prop) (h : bool) (t : itree wcE R)
    (Q : R -> bool -> wstate -> Prop) : Prop :=
  forall fuel env s, P s ->
    inside_lock h (trace_of (run x fuel env s t)) = true /\
    match run x fuel env s t with
    | Done r s' _ tr => Q r (held_after h tr) s'
    | _ => True
    end.

Lemma trace_of_prepend R tr (out : outcome R) :
  trace_of (prepend tr out) = tr ++ trace_of out.
Proof.
  induction tr as [|o tr IH]; simpl; [reflexivity|].
  rewrite <- IH. destruct (prepend tr out); reflexivity.
Qed.

Lemma inside_lock_app h a b :
  inside_lock h (a ++ b) = inside_lock h a && inside_lock (held_after h a) b.
Proof.
  revert h. induction a as [|o a IH]; intros h; simpl; [reflexivity|].
  rewrite IH, andb_assoc. reflexivity.
Qed.

Lemma held_after_app h a b :
  held_after h (a ++ b) = held_after (held_after h a) b.
Proof. apply fold_left_app. Qed.

Lemma run_fuel_le R fuel :
  forall env s (t : itree wcE R) r s' fuel' tr,
  run x fuel env s t = Done r s' fuel' tr -> (fuel' <= fuel)%nat.
Proof.
  induction fuel as [|fuel IH]; intros env s t r s' fuel' tr;
    rewrite run_unfold; destruct (observe t) as [r0|t'|X e k];
    try discriminate; try (intros H; injection H; intros; subst; lia).
  - intros H. pose proof (IH _ _ _ _ _ _ _ H). lia.
  - destruct (handle x e (interfere (hd no_interference env) s))
      as [[[ans s1] o]|]; [|discriminate].
    destruct (run x fuel (tl env) s1 (k ans)) eqn:E; try discriminate.
    simpl. intros H. injection H; intros; subst.
    pose proof (IH _ _ _ _ _ _ _ E). lia.
Qed.

Lemma safe_ret R (r : R) (P : wstate -> Prop) h
    (Q : R -> bool -> wstate -> Prop) :
  (forall s, P s -> Q r h s) -> safe P h (Ret r) Q.
Proof. intros HQ fuel env s Hs. rewrite run_ret. simpl. auto. Qed.

Lemma safe_bind R U (t : itree wcE R) (k : R -> itree wcE U) P h
    (Q : R -> bool -> wstate -> Prop) (Q' : U -> bool -> wstate -> Prop) :
  safe P h t Q ->
  (forall r h', safe (Q r h') h' (k r) Q') ->
  safe P h (ITree.bind t k) Q'.
Proof.
  intros Ht Hk fuel env s Hs. rewrite run_bind.
  destruct (Ht fuel env s Hs) as [Hin HQ].
  destruct (run x fuel env s t) as [r s' f' tr|tr|tr]; simpl in *; auto.
  destruct (Hk r _ f' (skipn (length tr) env) s' HQ) as [Hin' HQ'].
  rewrite trace_of_prepend, inside_lock_app, Hin, Hin'. split; [reflexivity|].
  destruct (run x f' (skipn (length tr) env) s' (k r)) as [u s2 f2 tr2|tr2|tr2];
    rewrite ?prepend_done, ?prepend_failed, ?prepend_out_of_fuel; simpl; auto.
  rewrite held_after_app. exact HQ'.
Qed.

Lemma safe_trigger X (e : wcE X) (P : wstate -> Prop) h
    (Q : X -> bool -> wstate -> Prop) :
  (forall i s ans s' o, P s ->
     handle x e (interfere i s) = Some (ans, s', o) ->
     (crit o = true -> h = true) /\ Q ans (holds h o) s') ->
  safe P h (ITree.trigger e) Q.
Proof.
  intros He fuel env s Hs. destruct fuel as [|fuel]; [simpl; auto|].
  rewrite run_trigger.
  destruct (handle x e (interfere (hd no_interference env) s))
    as [[[ans s'] o]|] eqn:E; [|simpl; auto].
  destruct (He _ _ _ _ _ Hs E) as [Hc HQ]. simpl. split; [|exact HQ].
  rewrite andb_true_r. destruct (crit o); [auto|reflexivity].
Qed.

Lemma safe_assert c (P : wstate -> Prop) h :
  safe P h (tbb_assert c) (fun _ h' s' => h' = h /\ c = true /\ P s').
Proof.
  destruct c; simpl.
  - apply safe_ret. auto.
  - intros fuel env s _. destruct fuel; simpl; auto.
Qed.

Lemma safe_iter I R (body : I -> itree wcE (I + R))
    (Inv : I -> bool -> wstate -> Prop) (Q : R -> bool -> wstate -> Prop) :
  (forall i h,
     safe (Inv i h) h (body i) (fun lr h' s' =>
       match lr with
       | inl i' => Inv i' h' s'
       | inr r => Q r h' s'
       end)) ->
  forall i h, safe (Inv i h) h (ITree.iter body i) Q.
Proof.
  intros Hbody i h fuel. revert i h.
  induction fuel as [fuel IH] using lt_wf_ind. intros i h env s Hi.
  rewrite run_iter, run_bind.
  destruct (Hbody i h fuel env s Hi) as [Hin HQ].
  destruct (run x fuel env s (body i)) as [lr s' f' tr|tr|tr] eqn:E;
    simpl in *; auto.
  apply run_fuel_le in E.
  destruct lr as [i'|r].
  - destruct f' as [|f']; [rewrite run_unfold; simpl|rewrite run_tau].
    + rewrite prepend_out_of_fuel, app_nil_r. simpl. auto.
    + destruct (IH f' ltac:(lia) i' _ (skipn (length tr) env) s' HQ)
        as [Hin' HQ'].
      rewrite trace_of_prepend, inside_lock_app, Hin, Hin'.
      split; [reflexivity|].
      destruct (run x f' (skipn (length tr) env) s' (ITree.iter body i'))
        as [u s2 f2 tr2|tr2|tr2];
        rewrite ?prepend_done, ?prepend_failed, ?prepend_out_of_fuel;
        simpl; auto.
      rewrite held_after_app. exact HQ'.
  - rewrite run_ret, prepend_done, app_nil_r. simpl. auto.
Qed.

Lemma safe_pre R (t : itree wcE R) (P P' : wstate -> Prop) h
    (Q : R -> bool -> wstate -> Prop) :
  safe P' h t Q -> (forall s, P s -> P' s) -> safe P h t Q.
Proof. intros Ht HP fuel env s Hs. apply Ht, HP, Hs. Qed.

Lemma safe_post R (t : itree wcE R) (P : wstate -> Prop) h
    (Q Q' : R -> bool -> wstate -> Prop) :
  safe P h t Q -> (forall r h' s', Q r h' s' -> Q' r h' s') -> safe P h t Q'.
Proof.
  intros Ht HQ fuel env s Hs. destruct (Ht fuel env s Hs) as [Hin H].
  split; [exact Hin|]. destruct (run x fuel env s t); auto.
Qed.

End Locking.

Section CriticalSections.

Variables lock_flag waiter_flag : Z.
Variable x : externals.

Local Abbreviation safe_list := (@safe lock_flag x list_access).

(** Assertions on the waiter list; the counter is left to the other
    threads. *)
Definition head_is (p : ptr) (s : wstate) : Prop := m_wait_head (ws_wc s) = p.

Ltac by_handle :=
  apply safe_trigger;
  let H := fresh "H" in
  let Hs := fresh "Hs" in
  intros ? ? ? ? ? Hs H; simpl in H; injection H; intros; subst; simpl.

Lemma safe_is_locked P h :
  (forall i s, P s -> P (interfere i s)) ->
  safe_list P h (is_locked lock_flag) (fun _ h' s' => h' = h /\ P s').
Proof.
  intros Hstable. unfold is_locked.
  eapply safe_bind with (Q := fun _ h' s' => h' = h /\ P s').
  - by_handle. split; [discriminate|]. auto.
  - intros r h'. apply safe_ret. auto.
Qed.

Lemma safe_try_lock P h :
  (forall i s, P s -> P (interfere i s)) ->
  (forall v s, P s -> P (on_wc (set_ref_count v) s)) ->
  safe_list P h (try_lock lock_flag)
    (fun got h' s' => (if got then h' = true else h' = h) /\ P s').
Proof.
  intros Hstable Hset. unfold try_lock.
  eapply safe_bind with
    (Q := fun old h' s' =>
            h' = (if has_flag old lock_flag then h else true) /\ P s').
  - by_handle. split; [discriminate|].
    rewrite Z.eqb_refl. simpl. split.
    + destruct (has_flag _ lock_flag); reflexivity.
    + apply (Hset _ (interfere i s)). auto.
  - intros old h'. apply safe_ret. intros s [-> Hs]. split; [|exact Hs].
    destruct (has_flag old lock_flag); reflexivity.
Qed.

Lemma safe_pause P h :
  (forall i s, P s -> P (interfere i s)) ->
  safe_list P h (ITree.trigger Pause) (fun _ h' s' => h' = h /\ P s').
Proof. intros Hstable. by_handle. split; [discriminate|]. auto. Qed.

Lemma safe_lock P h :
  (forall i s, P s -> P (interfere i s)) ->
  (forall v s, P s -> P (on_wc (set_ref_count v) s)) ->
  safe_list P h (lock lock_flag) (fun _ h' s' => h' = true /\ P s').
Proof.
  intros Hstable Hset. unfold lock.
  apply (@safe_iter lock_flag x list_access unit unit _
           (fun _ _ s => P s) (fun _ h' s' => h' = true /\ P s')).
  intros [] h0. eapply safe_bind; [apply safe_is_locked, Hstable|].
  intros l h1. destruct l.
  - eapply safe_bind.
    + apply safe_pre with (P' := P); [apply safe_pause, Hstable|tauto].
    + intros ? h2. apply safe_ret. tauto.
  - eapply safe_bind.
    + apply safe_pre with (P' := P); [apply safe_try_lock; assumption|tauto].
    + intros got h2. destruct got.
      * apply safe_ret. tauto.
      * eapply safe_bind.
        -- apply safe_pre with (P' := P); [apply safe_pause, Hstable|tauto].
        -- intros ? h3. apply safe_ret. tauto.
Qed.

(** A finished [unlock] leaves the lock bits clear in the counter. *)
Definition unlocked (s : wstate) : Prop :=
  exists old, ref_of s = Z.land old (not64 lock_flag).

Lemma safe_unlock P h :
  (forall i s, P s -> P (interfere i s)) ->
  (forall v s, P s -> P (on_wc (set_ref_count v) s)) ->
  safe_list P h (unlock lock_flag)
    (fun _ h' s' => h' = false /\ P s' /\ unlocked s').
Proof.
  intros Hstable Hset. unfold unlock.
  eapply safe_bind; [apply safe_is_locked, Hstable|].
  intros l h1. eapply safe_bind.
  - apply safe_pre with (P' := P); [apply safe_assert|tauto].
  - intros ? h2.
    eapply safe_bind with
      (Q := fun _ h' s' => h' = false /\ P s' /\ unlocked s').
    + by_handle. split; [discriminate|]. rewrite Z.eqb_refl.
      split; [reflexivity|]. split.
      * apply (Hset _ (interfere i s)). apply Hstable. tauto.
      * exists (i (ref_of s)). reflexivity.
    + intros ? h3. apply safe_ret. tauto.
Qed.

Lemma safe_lock_guard R (body : itree wcE R) P (Q : wstate -> Prop) h :
  (forall i s, P s -> P (interfere i s)) ->
  (forall v s, P s -> P (on_wc (set_ref_count v) s)) ->
  (forall i s, Q s -> Q (interfere i s)) ->
  (forall v s, Q s -> Q (on_wc (set_ref_count v) s)) ->
  safe_list P true body (fun _ h' s' => h' = true /\ Q s') ->
  safe_list P h (lock_guard lock_flag body)
    (fun _ h' s' => h' = false /\ Q s' /\ unlocked s').
Proof.
  intros HP1 HP2 HQ1 HQ2 Hbody. unfold lock_guard.
  eapply safe_bind; [apply safe_lock; assumption|].
  intros ? h1. apply safe_bind with (Q := fun _ h' s' => h' = true /\ Q s').
  - intros fuel env s [-> Hs]. apply Hbody, Hs.
  - intros r0 h2. eapply safe_bind.
    + apply safe_pre with (P' := Q); [apply safe_unlock; assumption|tauto].
    + intros ? h3. apply safe_ret. tauto.
Qed.

Lemma safe_unregister_waiter node h :
  safe_list (fun _ => True) h (unregister_waiter lock_flag node)
    (fun _ h' _ => h' = false).
Proof.
  eapply safe_post.
  - apply safe_lock_guard with (Q := fun _ => True); auto.
    eapply safe_bind with (Q := fun _ h' _ => h' = true).
    + by_handle. auto.
    + intros hd h1. destruct hd as [a|];
        [|apply safe_ret; intros s ->; auto].
      eapply safe_bind with (Q := fun _ h' _ => h' = true).
      * destruct (ptr_eqb (Some a) (Some node));
          [|apply safe_ret; intros s ->; auto].
        eapply safe_bind with (Q := fun _ h' _ => h' = true).
        -- by_handle. auto.
        -- intros nx h2. by_handle. auto.
      * intros ? h2. by_handle. auto.
  - simpl. tauto.
Qed.

(** However the run of [notify_waiters] goes, what it does to the list
    it does under the lock; when it finishes, the list is empty and the
    lock released. *)
Lemma safe_notify_waiters h :
  safe_list (fun _ => True) h (notify_waiters lock_flag waiter_flag)
    (fun _ h' s' => h' = false /\ head_is None s' /\ unlocked s').
Proof.
  apply safe_lock_guard with (Q := head_is None); auto.
  eapply safe_bind with (Q := fun hd h' s' => h' = true /\ head_is hd s').
  - by_handle. split; [auto|]. split; reflexivity.
  - intros hd h1.
    eapply safe_bind with (Q := fun _ h' s' => h' = true /\ head_is None s').
    + destruct hd as [a|]; [|apply safe_ret; auto].
      eapply safe_bind with (Q := fun _ h' _ => h' = true).
      * by_handle. destruct Hs as [-> _]. auto.
      * intros ? h2. by_handle. split; [auto|]. split; reflexivity.
    + intros ? h2.
      eapply safe_bind with (Q := fun _ h' s' => h' = true /\ head_is None s').
      * by_handle. split; [discriminate|]. exact Hs.
      * intros r0 h3. by_handle. destruct Hs as [-> Hs]. auto.
Qed.

End CriticalSections.

(** *** The order of the operations in a finished run *)

Section Orders.

Variables lock_flag waiter_flag : Z.
Variable x : externals.

Ltac invert_run :=
  repeat match goal with
  | H : run _ _ _ _ (ITree.bind _ _) = Done _ _ _ _ |- _ =>
      apply run_bind_done in H;
      let r := fresh "r" in let s := fresh "s" in let f := fresh "f" in
      let tr1 := fresh "tr" in let tr2 := fresh "tr" in
      let H1 := fresh "Hrun" in let E := fresh "Etr" in
      destruct H as (r & s & f & tr1 & tr2 & H1 & H & E)
  | H : run _ _ _ _ (ITree.trigger _) = Done _ _ _ _ |- _ =>
      apply run_trigger_done in H;
      let o := fresh "o" in let Ef := fresh "Efuel" in
      let Eh := fresh "Eh" in let E := fresh "Etr" in
      destruct H as (o & Ef & Eh & E); simpl in Eh
  | H : run _ _ _ _ (Ret _) = Done _ _ _ _ |- _ =>
      apply run_ret_done in H;
      let E := fresh "Etr" in
      destruct H as (? & ? & ? & E)
  | H : run _ _ _ _ (tbb_assert _) = Done _ _ _ _ |- _ =>
      apply run_assert_done in H;
      let E := fresh "Etr" in
      destruct H as (? & ? & ? & E)
  | H : Some _ = Some _ |- _ => injection H; clear H; intros
  end.

Lemma run_is_locked_done fuel env s l s' fuel' tr :
  run x fuel env s (is_locked lock_flag) = Done l s' fuel' tr ->
  fuel = S fuel' /\ s' = interfere (hd no_interference env) s /\
  l = has_flag (ref_of s') lock_flag /\ tr = [OLoad (ref_of s')].
Proof.
  unfold is_locked. intros H. invert_run. subst. simpl. auto.
Qed.

Lemma run_lock_done fuel :
  forall env s a s' fuel' tr,
  run x fuel env s (lock lock_flag) = Done a s' fuel' tr ->
  exists spin old,
    tr = spin ++ [OFetchOr lock_flag old] /\
    has_flag old lock_flag = false /\
    forallb (spin_op lock_flag) spin = true.
Proof.
  induction fuel as [fuel IH] using lt_wf_ind.
  intros env s a s' fuel' tr H. unfold lock in H. rewrite run_iter in H.
  apply run_bind_done in H.
  destruct H as (lr & s1 & f1 & tr1 & tr2 & Hbody & Hk & ->).
  apply run_bind_done in Hbody.
  destruct Hbody as (l & s2 & f2 & tr3 & tr4 & Hl & Hrest & ->).
  apply run_is_locked_done in Hl. destruct Hl as (-> & -> & -> & ->).
  destruct (has_flag _ lock_flag) eqn:Hlocked.
  - (* the lock is taken: pause and go round *)
    invert_run. subst.
    apply run_tau_done in Hk. destruct Hk as (fr & -> & Hk).
    apply IH in Hk; [|lia]. destruct Hk as (spin & old & -> & Hold & Hspin).
    exists (OLoad (ref_of (interfere (hd no_interference env) s))
            :: OPause :: spin), old.
    simpl. rewrite Hspin. auto.
  - unfold try_lock in Hrest. invert_run. subst.
    match type of Hrest with
    | context [has_flag ?v lock_flag] =>
        destruct (has_flag v lock_flag) eqn:Hold
    end.
    + (* the fetch_or found the lock taken *)
      simpl in Hrest. invert_run. subst.
      apply run_tau_done in Hk. destruct Hk as (fr & -> & Hk).
      apply IH in Hk; [|lia]. destruct Hk as (spin & old & -> & Hold' & Hspin).
      eexists (OLoad _ :: OFetchOr lock_flag _ :: OPause :: spin), old.
      simpl. rewrite Hold, Hspin. auto.
    + (* the lock is taken by the caller *)
      simpl in Hrest. invert_run. subst. simpl in Hk. invert_run. subst.
      eexists [OLoad _], _. simpl. split; [reflexivity|]. auto.
Qed.

Lemma run_unlock_done fuel env s a s' fuel' tr :
  run x fuel env s (unlock lock_flag) = Done a s' fuel' tr ->
  exists r1 r2, tr = [OLoad r1; OFetchAnd (not64 lock_flag) r2].
Proof.
  unfold unlock. intros H.
  apply run_bind_done in H.
  destruct H as (l & s1 & f1 & tr1 & tr2 & Hl & H & ->).
  apply run_is_locked_done in Hl. destruct Hl as (-> & -> & -> & ->).
  invert_run. subst. simpl. eauto.
Qed.

(** Without interference a free lock is taken at the first attempt. *)
Lemma run_lock_quiet fuel s :
  has_flag (ref_of s) lock_flag = false ->
  run x (S (S fuel)) [] s (lock lock_flag) =
  Done tt (on_wc (set_ref_count (Z.lor (ref_of s) lock_flag)) s) fuel
       [OLoad (ref_of s); OFetchOr lock_flag (ref_of s)].
Proof.
  intros Hfree. unfold lock. rewrite run_iter, !run_bind, run_is_locked.
  cbv zeta. simpl hd. rewrite interfere_id, Hfree.
  simpl length. simpl skipn. unfold try_lock.
  rewrite !run_bind, run_trigger. simpl handle. cbv iota beta.
  rewrite !interfere_id, run_ret. simpl prepend. rewrite Hfree. simpl negb.
  cbv iota. rewrite !run_ret. simpl. rewrite run_ret. reflexivity.
Qed.

Lemma run_unlock_quiet fuel s :
  has_flag (ref_of s) lock_flag = true ->
  run x (S (S fuel)) [] s (unlock lock_flag) =
  Done tt (on_wc (set_ref_count (Z.land (ref_of s) (not64 lock_flag))) s) fuel
       [OLoad (ref_of s); OFetchAnd (not64 lock_flag) (ref_of s)].
Proof.
  intros Hheld. unfold unlock. rewrite !run_bind, run_is_locked.
  cbv zeta. simpl hd. rewrite interfere_id, Hheld.
  simpl length. simpl skipn. simpl tbb_assert.
  rewrite !run_bind, run_ret. simpl prepend. cbv iota beta.
  simpl length. simpl skipn.
  rewrite !interfere_id, run_bind, !run_ret. reflexivity.
Qed.

Lemma has_flag_unlocked old :
  has_flag (Z.land old (not64 lock_flag)) lock_flag = false.
Proof.
  unfold has_flag, not64. apply negb_false_iff, Z.eqb_eq.
  apply Z.bits_inj'. intros n Hn.
  rewrite !Z.land_spec, Z.lnot_spec, Z.bits_0 by exact Hn.
  destruct (Z.testbit lock_flag n); simpl;
    rewrite ?andb_false_r; reflexivity.
Qed.

Lemma relock_unlocked old :
  Z.land (Z.lor (Z.land old (not64 lock_flag)) lock_flag) (not64 lock_flag)
  = Z.land old (not64 lock_flag).
Proof.
  unfold not64. apply Z.bits_inj'. intros n Hn.
  rewrite !Z.land_spec, Z.lor_spec, !Z.land_spec, Z.lnot_spec by exact Hn.
  destruct (Z.testbit lock_flag n), (Z.testbit old n),
    (Z.testbit (Z.ones 64) n); reflexivity.
Qed.

Lemma ref_of_set_ref v s : ref_of (on_wc (set_ref_count v) s) = v.
Proof. reflexivity. Qed.

Lemma ref_of_set_head p s : ref_of (on_wc (set_wait_head p) s) = ref_of s.
Proof. reflexivity. Qed.

Lemma run_notify_waiters_done fuel env s a s' fuel' tr :
  run x fuel env s (notify_waiters lock_flag waiter_flag)
    = Done a s' fuel' tr ->
  exists spin old h notif r r1 r2,
    tr = spin ++ [OFetchOr lock_flag old; OHeadRead h] ++ notif ++
         [OLoad r; OStore (Z.land r (not64 waiter_flag));
          OLoad r1; OFetchAnd (not64 lock_flag) r2] /\
    has_flag old lock_flag = false /\
    forallb (spin_op lock_flag) spin = true /\
    notified h notif.
Proof.
  unfold notify_waiters, lock_guard. intros H.
  apply run_bind_done in H.
  destruct H as (u & s1 & f1 & tr1 & tr2 & Hlock & H & ->).
  apply run_lock_done in Hlock. destruct Hlock as (spin & old & -> & Hold & Hspin).
  apply run_bind_done in H.
  destruct H as (u2 & s2 & f2 & tr3 & tr4 & Hbody & H & ->).
  apply run_bind_done in H.
  destruct H as (u3 & s3 & f3 & tr5 & tr6 & Hunlock & H & ->).
  apply run_unlock_done in Hunlock. destruct Hunlock as (r1 & r2 & ->).
  apply run_ret_done in H. destruct H as (_ & _ & _ & ->).
  apply run_bind_done in Hbody.
  destruct Hbody as (h & s4 & f4 & tr7 & tr8 & Hread & Hbody & ->).
  apply run_trigger_done in Hread. destruct Hread as (o & _ & Eh & ->).
  simpl in Eh. injection Eh; intros <- _ Eh'.
  apply run_bind_done in Hbody.
  destruct Hbody as (u5 & s5 & f5 & notif & tr9 & Hnotif & Hclear & ->).
  assert (Hn : notified h notif).
  { destruct h as [head|]; simpl.
    - invert_run. subst. eexists. reflexivity.
    - invert_run. assumption. }
  invert_run. subst.
  eexists spin, old, _, notif, _, r1, r2.
  split; [|split; [exact Hold|split; [exact Hspin|exact Hn]]].
  rewrite <- !app_assoc. simpl. reflexivity.
Qed.

Lemma has_flag_kept r :
  lock_flag <> 0 ->
  Z.land lock_flag (not64 waiter_flag) = lock_flag ->
  has_flag (Z.land (Z.lor r lock_flag) (not64 waiter_flag)) lock_flag = true.
Proof.
  intros Hnz Hkeep. unfold has_flag.
  replace (Z.land (Z.land (Z.lor r lock_flag) (not64 waiter_flag)) lock_flag)
    with lock_flag.
  - apply negb_true_iff, Z.eqb_neq. exact Hnz.
  - rewrite <- Z.land_assoc, (Z.land_comm (not64 waiter_flag)), Hkeep.
    apply Z.bits_inj'. intros n _. rewrite Z.land_spec, Z.lor_spec.
    destruct (Z.testbit r n), (Z.testbit lock_flag n); reflexivity.
Qed.

Lemma run_bind_quiet R U (t : itree wcE R) (k : R -> itree wcE U)
    fuel s r s1 fuel1 tr1 u s2 fuel2 tr2 :
  run x fuel [] s t = Done r s1 fuel1 tr1 ->
  run x fuel1 [] s1 (k r) = Done u s2 fuel2 tr2 ->
  run x fuel [] s (ITree.bind t k) = Done u s2 fuel2 (tr1 ++ tr2).
Proof.
  intros Ht Hk. rewrite run_bind, Ht.
  replace (skipn (length tr1) []) with (@nil interference)
    by (destruct (length tr1); reflexivity).
  rewrite Hk. apply prepend_done.
Qed.

Lemma run_trigger_quiet X (e : wcE X) fuel s a s' o :
  handle x e s = Some (a, s', o) ->
  run x (S fuel) [] s (ITree.trigger e) = Done a s' fuel [o].
Proof.
  intros H. rewrite run_trigger. simpl hd. rewrite interfere_id, H.
  reflexivity.
Qed.

(** Without interference, on a free lock, [notify_waiters] returns. *)
Lemma run_notify_waiters_quiet fuel s :
  lock_flag <> 0 ->
  Z.land lock_flag (not64 waiter_flag) = lock_flag ->
  (forall head s0, ref_of (ext_notify_all x head s0) = ref_of s0) ->
  has_flag (ref_of s) lock_flag = false ->
  (9 <= fuel)%nat ->
  exists s' fuel' tr,
    run x fuel [] s (notify_waiters lock_flag waiter_flag)
      = Done tt s' fuel' tr.
Proof.
  intros Hnz Hkeep Hext Hfree Hfuel.
  do 9 (destruct fuel as [|fuel]; [lia|]). clear Hfuel.
  unfold notify_waiters, lock_guard.
  assert (Hbody : exists s2 tr2,
            run x (S (S (S (S (S (S (S fuel))))))) []
              (on_wc (set_ref_count (Z.lor (ref_of s) lock_flag)) s)
              (ITree.bind (ITree.trigger HeadRead) (fun h =>
                 ITree.bind
                   match h with
                   | Some head =>
                       ITree.bind (ITree.trigger (NodeNotifyAll head))
                         (fun _ => ITree.trigger (HeadWrite None))
                   | None => Ret tt
                   end
                   (fun _ =>
                      ITree.bind (ITree.trigger RefLoad) (fun r =>
                        ITree.trigger
                          (RefStore (Z.land r (not64 waiter_flag)))))))
            = Done tt s2 (match m_wait_head (ws_wc s) with
                          | Some _ => S (S fuel)
                          | None => S (S (S (S fuel)))
                          end) tr2 /\
            has_flag (ref_of s2) lock_flag = true).
  { destruct (m_wait_head (ws_wc s)) as [head|] eqn:Hhead.
    - eexists _, _. split.
      + eapply run_bind_quiet; [apply run_trigger_quiet; reflexivity|].
        simpl m_wait_head. rewrite Hhead.
        eapply run_bind_quiet.
        * eapply run_bind_quiet; apply run_trigger_quiet; reflexivity.
        * eapply run_bind_quiet; apply run_trigger_quiet; reflexivity.
      + rewrite ref_of_set_ref, ref_of_set_head, Hext, ref_of_set_ref.
        apply has_flag_kept; assumption.
    - eexists _, _. split.
      + eapply run_bind_quiet; [apply run_trigger_quiet; reflexivity|].
        simpl m_wait_head. rewrite Hhead.
        eapply run_bind_quiet; [apply run_ret|].
        eapply run_bind_quiet; apply run_trigger_quiet; reflexivity.
      + rewrite !ref_of_set_ref. apply has_flag_kept; assumption. }
  destruct Hbody as (s2 & tr2 & Hbody & Hheld).
  destruct (m_wait_head (ws_wc s));
    (eexists _, _, _;
     eapply run_bind_quiet; [apply run_lock_quiet; exact Hfree|];
     eapply run_bind_quiet; [exact Hbody|];
     eapply run_bind_quiet; [|apply run_ret];
     apply run_unlock_quiet; exact Hheld).
Qed.

End Orders.


(** *** The claims on the wait context *)

Section WaitContextClaims.

Variables lock_flag waiter_flag : Z.
Variable x : externals.

Lemma inside_lock_mono (c1 c2 : obs -> bool) h tr :
  (forall o, c1 o = true -> c2 o = true) ->
  inside_lock lock_flag c2 h tr = true ->
  inside_lock lock_flag c1 h tr = true.
Proof.
  intros Hc. revert h. induction tr as [|o tr IH]; intros h; simpl; [auto|].
  intros H. apply andb_true_iff in H. destruct H as [H1 H2].
  rewrite (IH _ H2), andb_true_r.
  destruct (c1 o) eqn:E; [|reflexivity].
  rewrite (Hc o E) in H1. exact H1.
Qed.

Lemma head_write_is_list_access o :
  is_head_write o = true -> list_access o = true.
Proof. destruct o; simpl; auto. Qed.

Lemma trace_of_after R o (out : outcome R) :
  trace_of (after o out) = o :: trace_of out.
Proof. destruct out; reflexivity. Qed.

Lemma version_interfere i s :
  m_version_and_traits (ws_wc (interfere i s)) = m_version_and_traits (ws_wc s).
Proof. reflexivity. Qed.

(** On the current protocol the action hands the registration over:
    whatever the fuel and the interference, it makes no operation on
    the list or on the counter of its own. *)
Lemma register_current_hands_over fuel env s node sp :
  m_version_and_traits (ws_wc s) <> 0 ->
  forallb hands_over
    (trace_of (run x fuel env s
       (register_waiter_action lock_flag waiter_flag node sp))) = true.
Proof.
  intros Hv. unfold register_waiter_action.
  destruct fuel as [|fuel]; [rewrite run_unfold; reflexivity|].
  rewrite run_trigger_bind. simpl handle. cbv iota.
  rewrite ?version_interfere, trace_of_after.
  destruct (m_version_and_traits (ws_wc s) =? 0) eqn:E;
    [apply Z.eqb_eq in E; contradiction|].
  simpl forallb.
  destruct fuel as [|fuel]; [rewrite run_unfold; reflexivity|].
  rewrite run_trigger_bind. simpl handle. cbv iota.
  rewrite trace_of_after. simpl forallb.
  destruct (fst (ext_try_register_waiter x node _)); simpl negb; cbv iota.
  - rewrite run_ret. reflexivity.
  - destruct fuel as [|fuel]; [rewrite run_unfold; reflexivity|].
    rewrite run_trigger. reflexivity.
Qed.

(** On a legacy wait context the second operation of the action is the
    store into [m_wait_head], and no operation of the caller has taken
    the lock before it. *)
Lemma register_legacy_writes_unlocked fuel env s node sp :
  m_version_and_traits (ws_wc s) = 0 ->
  exists rest,
    trace_of (run x (S (S fuel)) env s
      (register_waiter_action lock_flag waiter_flag node sp))
    = OVersion 0
      :: OHeadWrite (Some sp)
           (ref_of (interfere (hd no_interference (tl env))
                      (interfere (hd no_interference env) s)))
      :: rest /\
    inside_lock lock_flag is_head_write false
      (trace_of (run x (S (S fuel)) env s
         (register_waiter_action lock_flag waiter_flag node sp))) = false.
Proof.
  intros Hv. unfold register_waiter_action.
  rewrite run_trigger_bind. simpl handle. cbv iota.
  rewrite ?version_interfere, Hv. simpl Z.eqb. cbv iota.
  rewrite run_trigger_bind. simpl handle. cbv iota.
  rewrite !trace_of_after.
  eexists. split; reflexivity.
Qed.

(** C3, as the code has it.  However a run goes, whatever the other
    threads do to the counter and whether it finishes or not:
    [unregister_waiter] and [notify_waiters] write [m_wait_head] only
    while the caller holds the lock.  On a wait context of the current
    protocol the [register_waiter] action makes no write to
    [m_wait_head] of its own: all it does is read the version, call
    [try_register_waiter] and call [r1::resume]; what the registration
    routine does to the list is that routine's.  On a legacy wait
    context the action stores the suspend point into [m_wait_head] as
    its second operation, and the caller has not taken the lock. *)
Theorem head_writes_hold_lock fuel env s node sp :
  inside_lock lock_flag is_head_write false
    (trace_of (run x fuel env s (unregister_waiter lock_flag node))) = true /\
  inside_lock lock_flag is_head_write false
    (trace_of (run x fuel env s (notify_waiters lock_flag waiter_flag)))
    = true /\
  (m_version_and_traits (ws_wc s) <> 0 ->
   forallb hands_over
     (trace_of (run x fuel env s
        (register_waiter_action lock_flag waiter_flag node sp))) = true /\
   existsb is_head_write
     (trace_of (run x fuel env s
        (register_waiter_action lock_flag waiter_flag node sp))) = false) /\
  (m_version_and_traits (ws_wc s) = 0 -> (2 <= fuel)%nat ->
   exists r rest,
     trace_of (run x fuel env s
       (register_waiter_action lock_flag waiter_flag node sp))
     = OVersion 0 :: OHeadWrite (Some sp) r :: rest /\
     inside_lock lock_flag is_head_write false
       (trace_of (run x fuel env s
          (register_waiter_action lock_flag waiter_flag node sp))) = false).
Proof.
  split; [|split; [|split]].
  - apply inside_lock_mono with (c2 := list_access);
      [exact head_write_is_list_access|].
    apply (@safe_unregister_waiter lock_flag x node false fuel env s I).
  - apply inside_lock_mono with (c2 := list_access);
      [exact head_write_is_list_access|].
    apply (@safe_notify_waiters lock_flag waiter_flag x false fuel env s I).
  - intros Hcur.
    pose proof (@register_current_hands_over fuel env s node sp Hcur) as H.
    split; [exact H|].
    destruct (existsb is_head_write _) eqn:E; [|reflexivity].
    apply existsb_exists in E. destruct E as (o & Hin & Ho).
    rewrite forallb_forall in H. specialize (H o Hin).
    destruct o; discriminate.
  - intros Hv Hfuel.
    destruct fuel as [|[|fuel]]; try lia.
    destruct (@register_legacy_writes_unlocked fuel env s node sp Hv)
      as (rest & Htr & Hin).
    eexists _, rest. split; [exact Htr|exact Hin].
Qed.

(** C5, as the code has it.  A finished call of [notify_waiters] has
    done, in this order: spun until its [fetch_or] took the lock; read
    [m_wait_head]; if the list was not empty, called [notify_all] on its
    head and then reset [m_wait_head] to empty; loaded the counter and
    stored it without [waiter_flag]; released the lock.  So the one call
    that notifies the nodes is made inside the critical section, before
    the head is reset, and nothing follows the release.  The call leaves
    the list empty.  Without interference, on a free lock and with a
    [notify_all] that leaves the counter alone, the call finishes. *)
Theorem notify_waiters_order :
  (forall fuel env s a s' fuel' tr,
     run x fuel env s (notify_waiters lock_flag waiter_flag)
       = Done a s' fuel' tr ->
     m_wait_head (ws_wc s') = None /\
     exists spin old h notif r r1 r2,
       tr = spin ++ [OFetchOr lock_flag old; OHeadRead h] ++ notif ++
            [OLoad r; OStore (Z.land r (not64 waiter_flag));
             OLoad r1; OFetchAnd (not64 lock_flag) r2] /\
       has_flag old lock_flag = false /\
       forallb (spin_op lock_flag) spin = true /\
       notified h notif) /\
  (forall fuel s,
     lock_flag <> 0 ->
     Z.land lock_flag (not64 waiter_flag) = lock_flag ->
     (forall head s0, ref_of (ext_notify_all x head s0) = ref_of s0) ->
     has_flag (ref_of s) lock_flag = false ->
     (9 <= fuel)%nat ->
     exists s' fuel' tr,
       run x fuel [] s (notify_waiters lock_flag waiter_flag)
         = Done tt s' fuel' tr).
Proof.
  split.
  - intros fuel env s a s' fuel' tr H. split.
    + pose proof (@safe_notify_waiters lock_flag waiter_flag x false
                    fuel env s I) as [_ Hpost].
      rewrite H in Hpost. apply Hpost.
    + eapply run_notify_waiters_done. exact H.
  - intros fuel s. apply run_notify_waiters_quiet.
Qed.

(** C7. Once a call of [notify_waiters] has finished, a call of
    [unregister_waiter] that follows it undisturbed, for any node,
    returns, leaves the wait context and the nodes exactly as they were,
    with the list empty, and neither resumes, unlinks nor writes the
    head. *)
Theorem unregister_after_notify_is_noop fuel env s s1 fuel1 tr1 node fuel2 :
  lock_flag <> 0 ->
  run x fuel env s (notify_waiters lock_flag waiter_flag)
    = Done tt s1 fuel1 tr1 ->
  (5 <= fuel2)%nat ->
  exists fuel' tr2,
    run x fuel2 [] s1 (unregister_waiter lock_flag node)
      = Done tt s1 fuel' tr2 /\
    m_wait_head (ws_wc s1) = None /\
    existsb is_resumption tr2 = false /\
    existsb is_unlink tr2 = false /\
    existsb is_head_write tr2 = false.
Proof.
  intros Hnz Hrun Hfuel.
  pose proof (@safe_notify_waiters lock_flag waiter_flag x false
                fuel env s I) as [_ Hpost].
  rewrite Hrun in Hpost. destruct Hpost as (_ & Hhead & old & Hold).
  do 5 (destruct fuel2 as [|fuel2]; [lia|]). clear Hfuel.
  assert (Hfree : has_flag (ref_of s1) lock_flag = false).
  { rewrite Hold. apply has_flag_unlocked. }
  eexists _, _. split; [|split; [exact Hhead|]].
  - unfold unregister_waiter, lock_guard.
    eapply run_bind_quiet; [apply run_lock_quiet; exact Hfree|].
    eapply run_bind_quiet.
    + eapply run_bind_quiet; [apply run_trigger_quiet; reflexivity|].
      simpl m_wait_head. unfold head_is in Hhead. rewrite Hhead.
      apply run_ret.
    + eapply run_bind_quiet; [|apply run_ret].
      rewrite run_unlock_quiet.
      * rewrite ref_of_set_ref.
        replace (on_wc _ _) with s1; [reflexivity|].
        rewrite Hold, relock_unlocked, <- Hold.
        destruct s1 as [[v r h] nd]. reflexivity.
      * rewrite ref_of_set_ref. apply has_flag_lor. exact Hnz.
  - simpl. auto.
Qed.

(** C10. [r1::notify_waiters] on a legacy wait context
    ([m_version_and_traits == 0]) stops at its assertion, having done
    nothing else; on a wait context with [m_version_and_traits > 0] it
    goes on as [wait_context::notify_waiters]. *)
Theorem r1_notify_waiters_needs_current fuel env s :
  (m_version_and_traits (ws_wc s) = 0 ->
   run x (S (S fuel)) env s (r1_notify_waiters lock_flag waiter_flag)
     = Failed [OVersion 0]) /\
  (0 < m_version_and_traits (ws_wc s) ->
   run x (S fuel) env s (r1_notify_waiters lock_flag waiter_flag)
     = after (OVersion (m_version_and_traits (ws_wc s)))
         (run x fuel (tl env) (interfere (hd no_interference env) s)
            (notify_waiters lock_flag waiter_flag))).
Proof.
  unfold r1_notify_waiters. rewrite !run_trigger_bind. simpl handle.
  split; intros Hv.
  - rewrite Hv. reflexivity.
  - apply Z.ltb_lt in Hv. rewrite Hv. simpl tbb_assert.
    f_equal. rewrite run_bind, run_ret. reflexivity.
Qed.

End WaitContextClaims.

End WaitContextFacts.

Module WaitContextExamples.
Import WaitContext WaitContextFacts.

Lemma sample_waiter_flag_nonzero : sample_waiter_flag <> 0.
Proof. unfold sample_waiter_flag. lia. Qed.

Lemma sample_lock_flag_nonzero : sample_lock_flag <> 0.
Proof. unfold sample_lock_flag. lia. Qed.

(** Two units of work outstanding and the lock held: the flag is
    published.  Legacy context whose two units of work finish right
    after the first load: nothing is published. *)
Lemma publish_wait_list_spec_witness :
  (exists s' fuel' tr,
     run idle_externals 9 [] (sample_state 1 (sample_lock_flag + 2) None)
       (publish_wait_list sample_lock_flag sample_waiter_flag)
       = Done true s' fuel' tr /\
     (has_flag (ref_of s') sample_waiter_flag = true \/
      flag_observed sample_waiter_flag tr = true)) /\
  (exists s' fuel' tr,
     run idle_externals 18 [no_interference; fun r => r - 2; no_interference]
       (sample_state 0 2 None)
       (publish_wait_list sample_lock_flag sample_waiter_flag)
       = Done false s' fuel' tr /\
     no_cas_success tr = true /\
     forallb (cas_with_work sample_lock_flag sample_waiter_flag) tr = true).
Proof.
  split.
  - destruct (@publish_wait_list_spec sample_lock_flag sample_waiter_flag
                idle_externals sample_waiter_flag_nonzero 9 []
                (sample_state 1 (sample_lock_flag + 2) None))
      as (r & s' & f' & tr & Hrun & P1 & _ & _).
    + simpl. lia.
    + right. reflexivity.
    + vm_compute in Hrun. injection Hrun. intros <- <- <- <-.
      destruct (P1 eq_refl) as [_ Hflag].
      eexists _, _, _. split; [vm_compute; reflexivity|exact Hflag].
  - destruct (@publish_wait_list_spec sample_lock_flag sample_waiter_flag
                idle_externals sample_waiter_flag_nonzero 18
                [no_interference; fun r => r - 2; no_interference]
                (sample_state 0 2 None))
      as (r & s' & f' & tr & Hrun & _ & P2 & P3).
    + simpl. lia.
    + left. reflexivity.
    + vm_compute in Hrun. injection Hrun. intros <- <- <- <-.
      destruct (P2 eq_refl eq_refl) as [_ Hnocas].
      eexists _, _, _. split; [vm_compute; reflexivity|].
      split; [exact Hnocas|exact (P3 eq_refl)].
Defined.

(** The lock held and one unit of work outstanding, which finishes
    right after the first load and is followed by a new unit before the
    loop tests [continue_execution()]: the call has seen the work at zero
    before any flag, and yet its compare-exchange succeeds, on a counter
    with work outstanding, and it returns true. *)
Lemma publishes_after_zero_seen :
  trace_of (run idle_externals 12
              [no_interference; fun r => r - 1; fun r => r + 1]
              (sample_state 1 (sample_lock_flag + 1) None)
              (publish_wait_list sample_lock_flag sample_waiter_flag))
    = [OLoad (sample_lock_flag + 1);
       OLoad sample_lock_flag;
       OLoad (sample_lock_flag + 1);
       OCas (sample_lock_flag + 1)
            (sample_lock_flag + sample_waiter_flag + 1) true
            (sample_lock_flag + 1)] /\
  (exists s' fuel',
     run idle_externals 12 [no_interference; fun r => r - 1; fun r => r + 1]
       (sample_state 1 (sample_lock_flag + 1) None)
       (publish_wait_list sample_lock_flag sample_waiter_flag)
     = Done true s' fuel'
         (trace_of (run idle_externals 12
                      [no_interference; fun r => r - 1; fun r => r + 1]
                      (sample_state 1 (sample_lock_flag + 1) None)
                      (publish_wait_list sample_lock_flag
                         sample_waiter_flag))) /\
     has_flag (ref_of s') sample_waiter_flag = true) /\
  zero_before_flag sample_lock_flag sample_waiter_flag
    (trace_of (run idle_externals 12
                 [no_interference; fun r => r - 1; fun r => r + 1]
                 (sample_state 1 (sample_lock_flag + 1) None)
                 (publish_wait_list sample_lock_flag sample_waiter_flag)))
    = true /\
  no_cas_success
    (trace_of (run idle_externals 12
                 [no_interference; fun r => r - 1; fun r => r + 1]
                 (sample_state 1 (sample_lock_flag + 1) None)
                 (publish_wait_list sample_lock_flag sample_waiter_flag)))
    = false.
Proof.
  split; [vm_compute; reflexivity|].
  split; [eexists _, _; split; [vm_compute; reflexivity|reflexivity]|].
  split; vm_compute; reflexivity.
Qed.

(** When the work can come back after zero, the compare-exchange can
    meet a counter that has returned to the value loaded at entry.  No
    work at the first load, one unit seen by [continue_execution()] and
    gone again before the compare-exchange: the flag is put on a counter
    whose work is at zero.  The specification above covers the runs in
    which zero is for good. *)
Example stale_expected_publishes_at_zero :
  trace_of (run idle_externals 12
              [no_interference; no_interference; fun r => r + 1;
               fun r => r - 1]
              (sample_state 1 sample_lock_flag None)
              (publish_wait_list sample_lock_flag sample_waiter_flag))
    = [OLoad sample_lock_flag;
       OLoad sample_lock_flag;
       OLoad (sample_lock_flag + 1);
       OCas sample_lock_flag (sample_lock_flag + sample_waiter_flag) true
            sample_lock_flag] /\
  forallb (cas_with_work sample_lock_flag sample_waiter_flag)
    (trace_of (run idle_externals 12
                 [no_interference; no_interference; fun r => r + 1;
                  fun r => r - 1]
                 (sample_state 1 sample_lock_flag None)
                 (publish_wait_list sample_lock_flag sample_waiter_flag)))
    = false /\
  zero_absorbing sample_lock_flag sample_waiter_flag
    (trace_of (run idle_externals 12
                 [no_interference; no_interference; fun r => r + 1;
                  fun r => r - 1]
                 (sample_state 1 sample_lock_flag None)
                 (publish_wait_list sample_lock_flag sample_waiter_flag)))
    = false.
Proof. vm_compute. auto. Qed.

(** A legacy wait context with one unit of work: the action stores the
    suspend point in [m_wait_head] as its second operation, when the
    counter holds no lock flag and the caller has taken no lock. *)
Lemma legacy_register_writes_head_unlocked :
  trace_of (run idle_externals 12 [] (sample_state 0 1 None)
              (register_waiter_action sample_lock_flag sample_waiter_flag 5 7))
    = [OVersion 0; OHeadWrite (Some 7%nat) 1; OLoad 1; OLoad 1; OVersion 0;
       OLoad 1; OCas 1 (1 + sample_waiter_flag) true 1] /\
  has_flag 1 sample_lock_flag = false /\
  inside_lock sample_lock_flag is_head_write false
    (trace_of (run idle_externals 12 [] (sample_state 0 1 None)
                 (register_waiter_action sample_lock_flag sample_waiter_flag
                    5 7)))
    = false.
Proof. vm_compute. auto. Qed.

Lemma head_writes_hold_lock_witness :
  (inside_lock sample_lock_flag is_head_write false
     (trace_of (run idle_externals 8 []
                  (sample_state 1 1 (Some 3%nat))
                  (unregister_waiter sample_lock_flag 3))) = true /\
   existsb is_head_write
     (trace_of (run idle_externals 8 []
                  (sample_state 1 1 (Some 3%nat))
                  (unregister_waiter sample_lock_flag 3))) = true) /\
  (inside_lock sample_lock_flag is_head_write false
     (trace_of (run idle_externals 9 []
                  (sample_state 1 1 (Some 3%nat))
                  (notify_waiters sample_lock_flag sample_waiter_flag)))
   = true /\
   existsb is_head_write
     (trace_of (run idle_externals 9 []
                  (sample_state 1 1 (Some 3%nat))
                  (notify_waiters sample_lock_flag sample_waiter_flag)))
   = true) /\
  forallb hands_over
    (trace_of (run refusing_externals 12 [] (sample_state 1 1 None)
                 (register_waiter_action sample_lock_flag sample_waiter_flag
                    5 7))) = true /\
  (exists r rest,
     trace_of (run idle_externals 12 [] (sample_state 0 1 None)
                 (register_waiter_action sample_lock_flag sample_waiter_flag
                    5 7))
     = OVersion 0 :: OHeadWrite (Some 7%nat) r :: rest /\
     inside_lock sample_lock_flag is_head_write false
       (trace_of (run idle_externals 12 [] (sample_state 0 1 None)
                    (register_waiter_action sample_lock_flag
                       sample_waiter_flag 5 7))) = false).
Proof.
  split; [|split; [|split]].
  - split; [|vm_compute; reflexivity].
    destruct (@head_writes_hold_lock sample_lock_flag sample_waiter_flag
                idle_externals 8 [] (sample_state 1 1 (Some 3%nat))
                3%nat 7%nat) as (H & _).
    exact H.
  - split; [|vm_compute; reflexivity].
    destruct (@head_writes_hold_lock sample_lock_flag sample_waiter_flag
                idle_externals 9 [] (sample_state 1 1 (Some 3%nat))
                3%nat 7%nat) as (_ & H & _).
    exact H.
  - destruct (@head_writes_hold_lock sample_lock_flag sample_waiter_flag
                refusing_externals 12 [] (sample_state 1 1 None)
                5%nat 7%nat) as (_ & _ & H & _).
    apply H. simpl. lia.
  - destruct (@head_writes_hold_lock sample_lock_flag sample_waiter_flag
                idle_externals 12 [] (sample_state 0 1 None)
                5%nat 7%nat) as (_ & _ & _ & H).
    apply H; [reflexivity|lia].
Defined.

(** A list with one node: [notify_all] is the fourth operation of the
    call, the release of the lock the last. *)
Lemma notify_all_precedes_release :
  trace_of (run idle_externals 12 []
              (sample_state 1 sample_waiter_flag (Some 3%nat))
              (notify_waiters sample_lock_flag sample_waiter_flag))
    = [OLoad sample_waiter_flag;
       OFetchOr sample_lock_flag sample_waiter_flag;
       OHeadRead (Some 3%nat);
       ONotifyAll 3;
       OHeadWrite None (sample_waiter_flag + sample_lock_flag);
       OLoad (sample_waiter_flag + sample_lock_flag);
       OStore sample_lock_flag;
       OLoad sample_lock_flag;
       OFetchAnd (not64 sample_lock_flag) sample_lock_flag] /\
  resumes_after_release sample_lock_flag false
    (trace_of (run idle_externals 12 []
                 (sample_state 1 sample_waiter_flag (Some 3%nat))
                 (notify_waiters sample_lock_flag sample_waiter_flag)))
    = false.
Proof. vm_compute. auto. Qed.

Lemma notify_waiters_order_witness :
  exists s' fuel' tr,
    run idle_externals 12 [] (sample_state 1 sample_waiter_flag (Some 3%nat))
      (notify_waiters sample_lock_flag sample_waiter_flag)
      = Done tt s' fuel' tr /\
    m_wait_head (ws_wc s') = None.
Proof.
  destruct (@notify_waiters_order sample_lock_flag sample_waiter_flag
              idle_externals) as [Horder Hquiet].
  destruct (Hquiet 12%nat (sample_state 1 sample_waiter_flag (Some 3%nat)))
    as (s' & fuel' & tr & Hrun).
  - exact sample_lock_flag_nonzero.
  - reflexivity.
  - reflexivity.
  - reflexivity.
  - lia.
  - exists s', fuel', tr. split; [exact Hrun|].
    destruct (Horder _ _ _ _ _ _ _ Hrun) as [Hhead _]. exact Hhead.
Defined.

Lemma unregister_after_notify_is_noop_witness :
  exists s1 fuel1 tr1 fuel' tr2,
    run idle_externals 12 [] (sample_state 1 sample_waiter_flag (Some 3%nat))
      (notify_waiters sample_lock_flag sample_waiter_flag)
      = Done tt s1 fuel1 tr1 /\
    run idle_externals 5 [] s1 (unregister_waiter sample_lock_flag 3)
      = Done tt s1 fuel' tr2 /\
    existsb is_resumption tr2 = false.
Proof.
  destruct (@run_notify_waiters_quiet sample_lock_flag sample_waiter_flag
              idle_externals 12
              (sample_state 1 sample_waiter_flag (Some 3%nat)))
    as (s1 & fuel1 & tr1 & Hrun);
    [exact sample_lock_flag_nonzero|reflexivity|reflexivity|reflexivity|lia|].
  destruct (@unregister_after_notify_is_noop sample_lock_flag
              sample_waiter_flag idle_externals 12 []
              (sample_state 1 sample_waiter_flag (Some 3%nat))
              s1 fuel1 tr1 3%nat 5%nat sample_lock_flag_nonzero Hrun)
    as (fuel' & tr2 & Hun & _ & Hres & _); [lia|].
  exists s1, fuel1, tr1, fuel', tr2. auto.
Defined.

Lemma r1_notify_waiters_needs_current_witness :
  run idle_externals 2 [] (sample_state 0 1 None)
    (r1_notify_waiters sample_lock_flag sample_waiter_flag)
    = Failed [OVersion 0] /\
  run idle_externals 12 [] (sample_state 1 1 None)
    (r1_notify_waiters sample_lock_flag sample_waiter_flag)
    = after (OVersion 1)
        (run idle_externals 11 []
           (interfere no_interference (sample_state 1 1 None))
           (notify_waiters sample_lock_flag sample_waiter_flag)).
Proof.
  split.
  - apply (@r1_notify_waiters_needs_current sample_lock_flag
             sample_waiter_flag idle_externals 0 [] (sample_state 0 1 None)).
    reflexivity.
  - apply (@r1_notify_waiters_needs_current sample_lock_flag
             sample_waiter_flag idle_externals 11 [] (sample_state 1 1 None)).
    simpl. lia.
Defined.

End WaitContextExamples.

Module SchedulerFacts.
Import WaitContext Scheduler.
Local Open Scope sched_scope.

Lemma upd_same T (f : addr -> T) a v : upd f a v a = v.
Proof. unfold upd. rewrite Nat.eqb_refl. reflexivity. Qed.

Section ResumeEntryPoint.

Variable c : collaborators.

(** C6. A call of [r1::resume(sp)] on a suspend point with an arena,
    whose dispatcher has no thread attached, returns after exactly one
    push of the suspend point's resume task: into the critical stream if
    [critical_task_allowed] is false, into the stream of resumable tasks
    otherwise, on the lane drawn from the suspend point's random state;
    the other stream is left as it was. *)
Theorem resume_pushes_once (sp a : addr) (w : world) :
  m_arena (suspend_points w sp) = Some a ->
  m_thread_data (dispatchers w (m_resume_task_target (suspend_points w sp)))
    = None ->
  let allowed :=
    critical_task_allowed
      (m_properties
         (dispatchers w (m_resume_task_target (suspend_points w sp)))) in
  let lane := random_lane c (m_random (suspend_points w sp)) in
  exists l w',
    resume c (Some sp) w = (l, Ok tt w') /\
    pushes l = [(negb allowed, lane, sp)] /\
    my_resume_task_stream (arenas w' a) =
      my_resume_task_stream (arenas w a) ++
      (if allowed then [(lane, sp)] else []) /\
    my_critical_task_stream (arenas w' a) =
      my_critical_task_stream (arenas w a) ++
      (if allowed then [] else [(lane, sp)]).
Proof.
  intros Harena Hfree allowed lane.
  unfold resume, bind, emit, get, TBB_ASSERT, deref. simpl.
  rewrite Harena, Hfree. simpl.
  subst allowed.
  destruct (critical_task_allowed
              (m_properties
                 (dispatchers w (m_resume_task_target (suspend_points w sp)))));
    unfold stream_push, bind, emit, get, modify; simpl;
    eexists _, _; (split; [reflexivity|]); simpl;
    rewrite !upd_same; simpl; rewrite app_nil_r; auto.
Qed.

End ResumeEntryPoint.

(** Runs the calls of a goal on its store, leaving the updated maps
    folded. *)
Ltac sched :=
  repeat progress
  (unfold bind, get, modify, ret, emit, stop, TBB_ASSERT, deref;
  cbn [is_null negb fst snd
       app tds dispatchers suspend_points slots arenas wait_contexts
       wait_nodes register_datas callback_wrappers next_free
       set_td set_dispatcher set_suspend_point set_arena set_wait_state
       set_callback_wrapper set_next_free
       my_task_dispatcher my_post_resume_action my_post_resume_arg
       my_arena_slot my_arena m_thread_data m_suspend_point m_properties
       post_resume_action_eqb]).

Section ContextSwap.

Variable c : collaborators.

Lemma resume_runs_no_action sp w : actions_run (fst (resume c sp w)) = [].
Proof.
  unfold resume, bind, emit, get, TBB_ASSERT, deref, stop, ret.
  destruct sp as [sp|]; simpl; [|reflexivity].
  destruct (m_arena (suspend_points w sp)) as [a|]; simpl; [|reflexivity].
  destruct (m_thread_data
              (dispatchers w (m_resume_task_target (suspend_points w sp))));
    simpl; [reflexivity|].
  destruct (critical_task_allowed _); reflexivity.
Qed.

Lemma actions_run_app l l' :
  actions_run (l ++ l') = actions_run l ++ actions_run l'.
Proof. apply flat_map_app. Qed.

Lemma resume_all_runs_no_action sps w :
  actions_run (fst (resume_all c sps w)) = [].
Proof.
  revert w. induction sps as [|sp sps IH]; intros w; simpl; [reflexivity|].
  unfold bind. pose proof (resume_runs_no_action (Some sp) w) as H.
  destruct (resume c (Some sp) w) as [l [u w'|f]]; simpl in *; [|exact H].
  specialize (IH w'). destruct (resume_all c sps w') as [l' r]. simpl in *.
  rewrite actions_run_app, H, IH. reflexivity.
Qed.

Lemma do_register_waiter_runs_one arg w :
  actions_run (fst (do_register_waiter c arg w)) = [register_waiter].
Proof.
  unfold do_register_waiter, bind, get. simpl.
  destruct (run _ _ _ _ _) as [u s f tr|tr|tr]; simpl; try reflexivity.
  pose proof (resume_all_runs_no_action (resumed tr)
                (set_wait_state (wo (register_datas w arg)) s w)) as H.
  destruct (resume_all c (resumed tr) _) as [l r]. simpl in *.
  rewrite H. reflexivity.
Qed.

(** A pending action with its argument runs once and is cleared; with
    the action cleared, another call stops at the first assertion. *)
Lemma do_post_resume_action_once td w arg :
  my_post_resume_action (tds w td) <> none ->
  my_post_resume_arg (tds w td) = Some arg ->
  (my_post_resume_action (tds w td) = register_waiter ->
   exists l w', do_register_waiter c arg w = (l, Ok tt w')) ->
  exists l w',
    do_post_resume_action c td w = (l, Ok tt w') /\
    actions_run l = [my_post_resume_action (tds w td)] /\
    my_post_resume_action (tds w' td) = none /\
    my_post_resume_arg (tds w' td) = None /\
    do_post_resume_action c td w' = ([], Stop AssertionFailure).
Proof.
  intros Hact Harg Hreg.
  unfold do_post_resume_action, bind, get. simpl. rewrite Harg. simpl.
  destruct (my_post_resume_action (tds w td)) eqn:Ea; try congruence; simpl.
  - destruct (Hreg eq_refl) as (l & w' & Hrun).
    pose proof (do_register_waiter_runs_one arg w) as Hone.
    rewrite Hrun in *. simpl in *.
    eexists _, _. split; [reflexivity|]. rewrite app_nil_r.
    split; [exact Hone|]. simpl. rewrite upd_same. simpl.
    split; [reflexivity|]. split; [reflexivity|].
    reflexivity.
  - eexists _, _. split; [reflexivity|]. simpl. rewrite upd_same. simpl.
    split; [reflexivity|]. split; [reflexivity|]. split; [reflexivity|].
    reflexivity.
  - eexists _, _. split; [reflexivity|]. simpl. rewrite upd_same. simpl.
    split; [reflexivity|]. split; [reflexivity|]. split; [reflexivity|].
    reflexivity.
  - eexists _, _. split; [reflexivity|]. simpl. rewrite upd_same. simpl.
    split; [reflexivity|]. split; [reflexivity|]. split; [reflexivity|].
    reflexivity.
Qed.

Lemma ptr_eqb_refl a : ptr_eqb (Some a) (Some a) = true.
Proof. simpl. apply Nat.eqb_refl. Qed.

Lemma ptr_eqb_eq p q : ptr_eqb p q = true <-> p = q.
Proof.
  destruct p as [a|], q as [b|]; simpl; split; intros H;
    try discriminate; try reflexivity.
  - apply Nat.eqb_eq in H. congruence.
  - injection H as ->. apply Nat.eqb_refl.
Qed.

Lemma task_dispatcher_resume_runs this target td w td' l2 w2 :
  resume_precondition this target td w ->
  resumed_condition this td'
    (co_swap c this target (handed_over this target td w)) ->
  do_post_resume_action c td'
    (co_swap c this target (handed_over this target td w)) = (l2, Ok tt w2) ->
  slot_condition this td' w2 ->
  task_dispatcher_resume c this target w =
  (EvCoSwap this target :: l2, Ok tt (recall_cleared this td' w2)).
Proof.
  intros (Hne & Htd & Hdisp & Hact & Harg & Hfree & Hsp & Hsp')
         (Htd' & Hdisp') Haction (slot & Hslot & Hdefault).
  apply Nat.eqb_neq in Hne.
  set (wd := set_td td
      (mk_thread_data None (my_post_resume_action (tds w td))
         (my_post_resume_arg (tds w td)) (my_arena_slot (tds w td))
         (my_arena (tds w td)))
      (set_dispatcher this
         (mk_task_dispatcher None (m_suspend_point (dispatchers w this))
            (m_properties (dispatchers w this))) w)).
  assert (Hdetach : detach_task_dispatcher td w = ([], Ok tt wd)).
  { unfold detach_task_dispatcher. sched. rewrite Hdisp. sched. reflexivity. }
  assert (Hattach : attach_task_dispatcher td target wd
                    = ([], Ok tt (handed_over this target td w))).
  { unfold attach_task_dispatcher, wd. sched. rewrite upd_same. sched.
    unfold upd at 1. rewrite Hne, Hfree. sched. reflexivity. }
  assert (Hsps : m_suspend_point (dispatchers (handed_over this target td w) this)
                 = m_suspend_point (dispatchers w this) /\
                 m_suspend_point (dispatchers (handed_over this target td w) target)
                 = m_suspend_point (dispatchers w target)).
  { assert (Hne2 : Nat.eqb this target = false)
      by (rewrite Nat.eqb_sym; exact Hne).
    unfold handed_over. sched. unfold upd.
    rewrite !Nat.eqb_refl, ?Hne, ?Hne2. sched. auto. }
  destruct Hsps as [Hs1 Hs2].
  unfold task_dispatcher_resume. sched.
  rewrite Hne, Htd. sched. rewrite Hdisp, ptr_eqb_refl. sched.
  destruct (my_post_resume_action (tds w td)) eqn:Ea; try congruence;
    destruct (my_post_resume_arg (tds w td)) as [arg|] eqn:Earg;
    try congruence; sched.
  all: rewrite Hdetach, Hattach; sched.
  all: rewrite Hs1, Hs2.
  all: destruct (m_suspend_point (dispatchers w this)) as [sp1|];
         [|congruence];
       destruct (m_suspend_point (dispatchers w target)) as [sp2|];
         [|congruence]; sched.
  all: rewrite Htd'; sched; rewrite Hdisp', ptr_eqb_refl; sched.
  all: rewrite Haction; sched; rewrite Hslot; sched.
  all: unfold recall_cleared; rewrite Hslot.
  all: destruct (ptr_eqb (Some this)
                   (my_default_task_dispatcher (slots w2 slot))) eqn:Edef;
       sched; [|rewrite app_nil_r; reflexivity].
  all: apply ptr_eqb_eq in Edef; symmetry in Edef;
       specialize (Hdefault Edef);
       destruct (m_suspend_point (dispatchers w2 this)) as [sp|];
         [|congruence]; sched; rewrite app_nil_r; reflexivity.
Qed.

Lemma do_post_resume_action_none td w :
  my_post_resume_action (tds w td) = none ->
  do_post_resume_action c td w = ([], Stop AssertionFailure).
Proof.
  intros H. unfold do_post_resume_action. sched. rewrite H. reflexivity.
Qed.

Lemma tds_recall_cleared this td w : tds (recall_cleared this td w) = tds w.
Proof.
  unfold recall_cleared.
  destruct (my_arena_slot (tds w td)); [|reflexivity].
  destruct (ptr_eqb _ _); [|reflexivity].
  destruct (m_suspend_point (dispatchers w this)); reflexivity.
Qed.

(** C9. In such a call, once the post-resume action has run and left
    the store [w2]: if [this] is the default dispatcher of the thread's
    slot, the call ends with [m_is_owner_recalled] of its suspend point
    stored false and nothing else changed; if it is not, the call ends
    with the store as the action left it, the flag included. *)
Theorem resume_clears_recall_of_default this target td w td' arg' :
  resume_precondition this target td w ->
  resumed_condition this td'
    (co_swap c this target (handed_over this target td w)) ->
  my_post_resume_action
    (tds (co_swap c this target (handed_over this target td w)) td') <> none ->
  my_post_resume_arg
    (tds (co_swap c this target (handed_over this target td w)) td')
    = Some arg' ->
  (my_post_resume_action
     (tds (co_swap c this target (handed_over this target td w)) td')
     = register_waiter ->
   exists l w',
     do_register_waiter c arg'
       (co_swap c this target (handed_over this target td w))
       = (l, Ok tt w')) ->
  (forall l2 w2,
     do_post_resume_action c td'
       (co_swap c this target (handed_over this target td w)) = (l2, Ok tt w2) ->
     slot_condition this td' w2) ->
  exists l2 w2 w3 slot,
    do_post_resume_action c td'
      (co_swap c this target (handed_over this target td w)) = (l2, Ok tt w2) /\
    task_dispatcher_resume c this target w
      = (EvCoSwap this target :: l2, Ok tt w3) /\
    my_arena_slot (tds w2 td') = Some slot /\
    (my_default_task_dispatcher (slots w2 slot) = Some this ->
     exists sp,
       m_suspend_point (dispatchers w2 this) = Some sp /\
       m_is_owner_recalled (suspend_points w3 sp) = false /\
       w3 = set_suspend_point sp
              (mk_suspend_point (m_arena (suspend_points w2 sp))
                 (m_random (suspend_points w2 sp)) false
                 (m_resume_task_target (suspend_points w2 sp))) w2) /\
    (my_default_task_dispatcher (slots w2 slot) <> Some this -> w3 = w2).
Proof.
  intros Hpre Hres Hact Harg Hreg Hslot.
  destruct (do_post_resume_action_once _ _ Hact Harg Hreg)
    as (l2 & w2 & Hrun & _).
  pose proof (Hslot _ _ Hrun) as Hs.
  destruct Hs as (slot & Hs & Hdefault).
  exists l2, w2, (recall_cleared this td' w2), slot.
  split; [exact Hrun|].
  split; [apply (task_dispatcher_resume_runs Hpre Hres Hrun (Hslot _ _ Hrun))|].
  split; [exact Hs|].
  unfold recall_cleared. rewrite Hs. split.
  - intros Hd. rewrite Hd, ptr_eqb_refl.
    destruct (m_suspend_point (dispatchers w2 this)) as [sp|] eqn:Esp;
      [|destruct (Hdefault Hd eq_refl)].
    exists sp. split; [reflexivity|]. split; [|reflexivity].
    simpl. rewrite upd_same. reflexivity.
  - intros Hd.
    destruct (ptr_eqb (Some this)
                (my_default_task_dispatcher (slots w2 slot))) eqn:E;
      [|reflexivity].
    apply ptr_eqb_eq in E. congruence.
Qed.

End ContextSwap.

Section Suspend.

Variable c : collaborators.


End Suspend.

Section SchedulerExamples.

Lemma resume_pushes_once_witness :
  exists l w',
    resume sample_collaborators (Some 12%nat) sample_world = (l, Ok tt w') /\
    pushes l = [(false, 3%nat, 12%nat)] /\
    my_resume_task_stream (arenas w' 0%nat) = [(3%nat, 12%nat)] /\
    my_critical_task_stream (arenas w' 0%nat) = [].
Proof.
  apply (@resume_pushes_once sample_collaborators 12%nat 0%nat sample_world);
    reflexivity.
Defined.

Lemma sample_resume_precondition :
  resume_precondition 1 2 0 sample_world.
Proof.
  unfold resume_precondition. simpl.
  repeat split; try reflexivity; try discriminate.
Qed.

Lemma sample_slot_condition l2 w2 :
  do_post_resume_action sample_collaborators 0
    (co_swap sample_collaborators 1 2 (handed_over 1 2 0 sample_world))
    = (l2, Ok tt w2) ->
  slot_condition 1 0 w2.
Proof.
  intros H. vm_compute in H. injection H as <- <-.
  exists 0%nat. split; [reflexivity|]. intros _. discriminate.
Qed.

Lemma resume_clears_recall_of_default_witness :
  exists l2 w3,
    task_dispatcher_resume sample_collaborators 1 2 sample_world
      = (EvCoSwap 1 2 :: l2, Ok tt w3) /\
    m_is_owner_recalled (suspend_points w3 11%nat) = false.
Proof.
  destruct (@resume_clears_recall_of_default sample_collaborators
              1%nat 2%nat 0%nat sample_world 0%nat 11%nat)
    as (l2 & w2 & w3 & slot & Hrun & Hres & Hslot & Hdefault & _).
  - exact sample_resume_precondition.
  - split; reflexivity.
  - discriminate.
  - reflexivity.
  - intros H. discriminate H.
  - exact sample_slot_condition.
  - exists l2, w3. split; [exact Hres|].
    vm_compute in Hrun. injection Hrun as <- <-.
    vm_compute in Hslot. injection Hslot as <-.
    destruct (Hdefault eq_refl) as (sp & Hsp & Hflag & _).
    vm_compute in Hsp. injection Hsp as <-. exact Hflag.
Defined.


End SchedulerExamples.

End SchedulerFacts.

(** ** Further properties of the wait context *)

Module WaitContextProperties.
Import WaitContext Monitors WaitContextFacts.

(** *** The rules of a monitor *)

Section MonitorRules.

Variable x : externals.
Variable A : Type.
Variable step : A -> obs -> A.
Variable ok : A -> obs -> bool.

Local Abbreviation accepts := (Monitors.accepts step ok).
Local Abbreviation reach := (Monitors.reach step).
Local Abbreviation keeps := (@Monitors.keeps A step ok x).

Lemma accepts_app a tr tr' :
  accepts a (tr ++ tr') = accepts a tr && accepts (reach a tr) tr'.
Proof.
  revert a. induction tr as [|o tr IH]; intros a; simpl; [reflexivity|].
  rewrite IH, andb_assoc. reflexivity.
Qed.

Lemma reach_app a tr tr' : reach a (tr ++ tr') = reach (reach a tr) tr'.
Proof. apply fold_left_app. Qed.

Lemma keeps_ret R (r : R) (P : wstate -> Prop) a
    (Q : R -> A -> wstate -> Prop) :
  (forall s, P s -> Q r a s) -> keeps P a (Ret r) Q.
Proof. intros HQ fuel env s Hs. rewrite run_ret. simpl. auto. Qed.

Lemma keeps_bind R U (t : itree wcE R) (k : R -> itree wcE U) P a
    (Q : R -> A -> wstate -> Prop) (Q' : U -> A -> wstate -> Prop) :
  keeps P a t Q ->
  (forall r a', keeps (Q r a') a' (k r) Q') ->
  keeps P a (ITree.bind t k) Q'.
Proof.
  intros Ht Hk fuel env s Hs. rewrite run_bind.
  destruct (Ht fuel env s Hs) as [Hin HQ].
  destruct (run x fuel env s t) as [r s' f' tr|tr|tr]; simpl in *; auto.
  destruct (Hk r _ f' (skipn (length tr) env) s' HQ) as [Hin' HQ'].
  rewrite trace_of_prepend, accepts_app, Hin, Hin'. split; [reflexivity|].
  destruct (run x f' (skipn (length tr) env) s' (k r)) as [u s2 f2 tr2|tr2|tr2];
    rewrite ?prepend_done, ?prepend_failed, ?prepend_out_of_fuel; simpl; auto.
  rewrite reach_app. exact HQ'.
Qed.

Lemma keeps_trigger X (e : wcE X) (P : wstate -> Prop) a
    (Q : X -> A -> wstate -> Prop) :
  (forall i s ans s' o, P s ->
     handle x e (interfere i s) = Some (ans, s', o) ->
     ok a o = true /\ Q ans (step a o) s') ->
  keeps P a (ITree.trigger e) Q.
Proof.
  intros He fuel env s Hs. destruct fuel as [|fuel]; [simpl; auto|].
  rewrite run_trigger.
  destruct (handle x e (interfere (hd no_interference env) s))
    as [[[ans s'] o]|] eqn:E; [|simpl; auto].
  destruct (He _ _ _ _ _ Hs E) as [Hc HQ]. simpl. split; [|exact HQ].
  rewrite Hc. reflexivity.
Qed.

Lemma keeps_assert c (P : wstate -> Prop) a :
  keeps P a (tbb_assert c) (fun _ a' s' => a' = a /\ c = true /\ P s').
Proof.
  destruct c; simpl.
  - apply keeps_ret. auto.
  - intros fuel env s _. destruct fuel; simpl; auto.
Qed.

Lemma keeps_iter I R (body : I -> itree wcE (I + R))
    (Inv : I -> A -> wstate -> Prop) (Q : R -> A -> wstate -> Prop) :
  (forall i a,
     keeps (Inv i a) a (body i) (fun lr a' s' =>
       match lr with
       | inl i' => Inv i' a' s'
       | inr r => Q r a' s'
       end)) ->
  forall i a, keeps (Inv i a) a (ITree.iter body i) Q.
Proof.
  intros Hbody i a fuel. revert i a.
  induction fuel as [fuel IH] using lt_wf_ind. intros i a env s Hi.
  rewrite run_iter, run_bind.
  destruct (Hbody i a fuel env s Hi) as [Hin HQ].
  destruct (run x fuel env s (body i)) as [lr s' f' tr|tr|tr] eqn:E;
    simpl in *; auto.
  apply run_fuel_le in E.
  destruct lr as [i'|r].
  - destruct f' as [|f']; [rewrite run_unfold; simpl|rewrite run_tau].
    + rewrite prepend_out_of_fuel, app_nil_r. simpl. auto.
    + destruct (IH f' ltac:(lia) i' _ (skipn (length tr) env) s' HQ)
        as [Hin' HQ'].
      rewrite trace_of_prepend, accepts_app, Hin, Hin'.
      split; [reflexivity|].
      destruct (run x f' (skipn (length tr) env) s' (ITree.iter body i'))
        as [u s2 f2 tr2|tr2|tr2];
        rewrite ?prepend_done, ?prepend_failed, ?prepend_out_of_fuel;
        simpl; auto.
      rewrite reach_app. exact HQ'.
  - rewrite run_ret, prepend_done, app_nil_r. simpl. auto.
Qed.

Lemma keeps_pre R (t : itree wcE R) (P P' : wstate -> Prop) a
    (Q : R -> A -> wstate -> Prop) :
  keeps P' a t Q -> (forall s, P s -> P' s) -> keeps P a t Q.
Proof. intros Ht HP fuel env s Hs. apply Ht, HP, Hs. Qed.

Lemma keeps_post R (t : itree wcE R) (P : wstate -> Prop) a
    (Q Q' : R -> A -> wstate -> Prop) :
  keeps P a t Q -> (forall r a' s', Q r a' s' -> Q' r a' s') -> keeps P a t Q'.
Proof.
  intros Ht HQ fuel env s Hs. destruct (Ht fuel env s Hs) as [Hin H].
  split; [exact Hin|]. destruct (run x fuel env s t); auto.
Qed.

End MonitorRules.

(** *** The spin lock *)

Section SpinLock.

Variable lock_flag : Z.
Variable x : externals.

Local Abbreviation tts :=
  (@Monitors.keeps bool (found_free lock_flag) tested_first x).

Lemma keeps_lock_tested free :
  tts (fun _ => True) free (lock lock_flag) (fun _ _ _ => True).
Proof.
  unfold lock.
  apply (@keeps_iter x bool (found_free lock_flag) tested_first unit unit _
           (fun _ _ _ => True) (fun _ _ _ => True)).
  intros [] a.
  eapply keeps_bind with
    (Q := fun (l : bool) (a' : bool) (_ : wstate) => a' = negb l).
  - unfold is_locked.
    eapply keeps_bind with
      (Q := fun (r : Z) (a' : bool) (_ : wstate) =>
              a' = negb (has_flag r lock_flag)).
    + apply keeps_trigger. intros i s ans s' o _ H. simpl in H.
      injection H; intros; subst. simpl. auto.
    + intros r a'. apply keeps_ret. auto.
  - intros l a'. destruct l.
    + eapply keeps_bind with (Q := fun _ _ _ => True).
      * apply keeps_trigger. intros i s ans s' o _ H. simpl in H.
        injection H; intros; subst. simpl. auto.
      * intros ? a2. apply keeps_ret. auto.
    + eapply keeps_bind with (Q := fun _ _ _ => True).
      * unfold try_lock. eapply keeps_bind with (Q := fun _ _ _ => True).
        -- apply keeps_trigger. intros i s ans s' o Ha H. simpl in H.
           injection H; intros; subst. simpl. auto.
        -- intros old a2. apply keeps_ret. auto.
      * intros got a2. destruct got.
        -- apply keeps_ret. auto.
        -- eapply keeps_bind with (Q := fun _ _ _ => True).
           ++ apply keeps_trigger. intros i s ans s' o _ H. simpl in H.
              injection H; intros; subst. simpl. auto.
           ++ intros ? a3. apply keeps_ret. auto.
Qed.

(** [lock()] tests before it sets: in every run, under any interference
    and finished or not, each [fetch_or] of the caller comes right after
    a load of the caller that found [lock_flag] clear. *)
Theorem lock_tests_before_it_sets fuel env s :
  accepts (found_free lock_flag) tested_first false
    (trace_of (run x fuel env s (lock lock_flag))) = true.
Proof. apply (@keeps_lock_tested false fuel env s I). Qed.

End SpinLock.

Section SpinLockHeld.

Variable lock_flag : Z.
Variable x : externals.

Lemma interfere_keeps_locked i s :
  keeps_locked lock_flag i ->
  has_flag (ref_of s) lock_flag = true ->
  has_flag (ref_of (interfere i s)) lock_flag = true.
Proof. intros Hi Hs. unfold interfere. rewrite ref_of_set_ref. auto. Qed.

Lemma keeps_locked_id : keeps_locked lock_flag no_interference.
Proof. intros r Hr. exact Hr. Qed.

Lemma keeps_locked_hd env :
  Forall (keeps_locked lock_flag) env ->
  keeps_locked lock_flag (hd no_interference env).
Proof. intros [|i env' Hi _]; [apply keeps_locked_id|exact Hi]. Qed.

Lemma keeps_locked_tl env :
  Forall (keeps_locked lock_flag) env ->
  Forall (keeps_locked lock_flag) (tl env).
Proof. intros [|i env' _ H]; [constructor|exact H]. Qed.

(** [lock()] does not take a lock that is held: while no other thread
    clears [lock_flag], the call never returns, whatever the fuel, and
    all it does is load the counter and pause; it writes nothing. *)
Theorem lock_spins_while_held fuel :
  forall env s,
  has_flag (ref_of s) lock_flag = true ->
  Forall (keeps_locked lock_flag) env ->
  exists tr,
    run x fuel env s (lock lock_flag) = OutOfFuel tr /\
    forallb is_wait tr = true.
Proof.
  induction fuel as [fuel IH] using lt_wf_ind. intros env s Hs Henv.
  unfold lock. rewrite run_iter. fold (lock lock_flag).
  destruct fuel as [|fuel].
  { rewrite run_unfold. simpl. exists []. auto. }
  rewrite !run_bind, run_is_locked. cbv zeta.
  pose proof (interfere_keeps_locked s (keeps_locked_hd Henv) Hs) as H1.
  rewrite H1. simpl length. rewrite skipn_1_tl.
  destruct fuel as [|fuel].
  { rewrite run_bind, (run_unfold x 0). simpl. eexists. split; reflexivity. }
  rewrite run_bind, run_trigger. simpl handle. cbv iota beta.
  simpl length. rewrite skipn_1_tl, run_ret. simpl prepend.
  set (s2 := interfere (hd no_interference (tl env))
               (interfere (hd no_interference env) s)).
  assert (H2 : has_flag (ref_of s2) lock_flag = true).
  { apply interfere_keeps_locked; [|exact H1].
    apply keeps_locked_hd, keeps_locked_tl, Henv. }
  destruct fuel as [|fuel].
  { rewrite (run_unfold x 0). simpl. eexists. split; reflexivity. }
  rewrite run_tau.
  destruct (IH fuel ltac:(lia) (tl (tl env)) s2 H2) as (tr & Hrun & Hw).
  { apply keeps_locked_tl, keeps_locked_tl, Henv. }
  fold (lock lock_flag).
  replace (skipn _ env) with (tl (tl env))
    by (destruct env as [|i1 [|i2 env']]; reflexivity).
  rewrite Hrun. simpl. eexists. split; [reflexivity|].
  simpl. exact Hw.
Qed.

End SpinLockHeld.

Section LockUnlock.

Variable lock_flag : Z.
Variable x : externals.

Lemma uint64_high_bits r n : is_uint64 r -> 64 <= n -> Z.testbit r n = false.
Proof.
  intros [Hlo Hhi] Hn.
  destruct (Z.eq_dec r 0) as [->|Hr]; [apply Z.bits_0|].
  apply Z.bits_above_log2; [exact Hlo|].
  assert (Z.log2 r < 64) by (apply Z.log2_lt_pow2; lia). lia.
Qed.

Lemma flag_clear_bits r f n :
  has_flag r f = false -> Z.testbit r n && Z.testbit f n = false.
Proof.
  unfold has_flag. intros H. apply negb_false_iff, Z.eqb_eq in H.
  rewrite <- Z.land_spec, H. apply Z.bits_0.
Qed.

Lemma not64_bits f n :
  0 <= n -> Z.testbit (not64 f) n = negb (Z.testbit f n) && (n <? 64).
Proof.
  intros Hn. unfold not64. rewrite Z.land_spec, Z.lnot_spec by exact Hn.
  f_equal. destruct (n <? 64) eqn:E.
  - apply Z.ones_spec_low. apply Z.ltb_lt in E. lia.
  - apply Z.ones_spec_high. apply Z.ltb_ge in E. lia.
Qed.

(** Setting a flag that was clear and clearing it again gives the
    counter back. *)
Lemma clear_after_set r f :
  is_uint64 r -> has_flag r f = false ->
  Z.land (Z.lor r f) (not64 f) = r.
Proof.
  intros Hr Hf. apply Z.bits_inj'. intros n Hn.
  rewrite Z.land_spec, Z.lor_spec, not64_bits by exact Hn.
  pose proof (@flag_clear_bits r f n Hf) as Hb.
  destruct (n <? 64) eqn:E.
  - destruct (Z.testbit r n), (Z.testbit f n); simpl in *; congruence.
  - apply Z.ltb_ge in E. rewrite (@uint64_high_bits r n Hr E).
    destruct (Z.testbit f n); reflexivity.
Qed.

Lemma on_wc_same_ref s : on_wc (set_ref_count (ref_of s)) s = s.
Proof. destruct s as [[v r h] n]. reflexivity. Qed.

Lemma on_wc_set_ref_twice v v' s :
  on_wc (set_ref_count v') (on_wc (set_ref_count v) s)
  = on_wc (set_ref_count v') s.
Proof. reflexivity. Qed.

(** [lock()] then [unlock()] on a free lock, with no other thread at
    work: the lock is taken at the first attempt and the wait context is
    left exactly as it was found. *)
Theorem lock_unlock_round_trip fuel s :
  lock_flag <> 0 ->
  is_uint64 (ref_of s) ->
  has_flag (ref_of s) lock_flag = false ->
  run x (S (S (S (S fuel)))) [] s
    (ITree.bind (lock lock_flag) (fun _ => unlock lock_flag))
  = Done tt s fuel
      [OLoad (ref_of s); OFetchOr lock_flag (ref_of s);
       OLoad (Z.lor (ref_of s) lock_flag);
       OFetchAnd (not64 lock_flag) (Z.lor (ref_of s) lock_flag)].
Proof.
  intros Hnz Hr Hfree.
  rewrite run_bind, (@run_lock_quiet lock_flag x _ _ Hfree). simpl skipn.
  rewrite (@run_unlock_quiet lock_flag x);
    [|rewrite ref_of_set_ref; apply has_flag_lor; exact Hnz].
  rewrite prepend_done, ref_of_set_ref, on_wc_set_ref_twice.
  rewrite (@clear_after_set _ _ Hr Hfree), on_wc_same_ref. reflexivity.
Qed.

(** [unlock()] by a caller that does not hold the lock: the load of the
    assertion finds [lock_flag] clear, the assertion fails and the
    counter is not written. *)
Theorem unlock_without_lock_fails fuel env s :
  has_flag (ref_of (interfere (hd no_interference env) s)) lock_flag = false ->
  run x (S (S fuel)) env s (unlock lock_flag)
  = Failed [OLoad (ref_of (interfere (hd no_interference env) s))].
Proof.
  intros Hfree. unfold unlock. rewrite run_bind, run_is_locked. cbv zeta.
  rewrite Hfree. simpl length. rewrite skipn_1_tl.
  rewrite run_bind. simpl tbb_assert. rewrite run_trigger_bind. reflexivity.
Qed.

End LockUnlock.

(** *** Publishing the waiter list *)

Section Publish.

Variables lock_flag waiter_flag : Z.
Variable x : externals.

Local Abbreviation count := (work_count lock_flag waiter_flag).

(** [publish_wait_list()] with no other thread at work, called as its
    assertion asks (lock held, or legacy wait context): it returns true
    exactly when [waiter_flag] is already in the counter or work is
    outstanding, and it writes the counter, adding [waiter_flag] and
    nothing else, only when the flag was missing and work is
    outstanding. *)
Theorem publish_wait_list_alone fuel s :
  waiter_flag <> 0 ->
  m_version_and_traits (ws_wc s) = 0 \/
  has_flag (ref_of s) lock_flag = true ->
  exists fuel' tr,
    run x (6 + fuel) [] s (publish_wait_list lock_flag waiter_flag)
    = Done (has_flag (ref_of s) waiter_flag || (0 <? count (ref_of s)))
        (if negb (has_flag (ref_of s) waiter_flag) && (0 <? count (ref_of s))
         then on_wc (set_ref_count (Z.lor (ref_of s) waiter_flag)) s
         else s)
        fuel' tr /\
    no_cas_success tr
    = negb (negb (has_flag (ref_of s) waiter_flag) && (0 <? count (ref_of s))).
Proof.
  intros Hw Hassert. simpl Nat.add. unfold publish_wait_list.
  rewrite run_trigger_bind. simpl handle. cbv iota. simpl tl.
  rewrite interfere_id, run_bind, run_is_locked. cbv zeta. simpl hd.
  rewrite interfere_id. simpl length. simpl skipn.
  assert (Hloop : forall f pre,
    exists fuel' tr,
      prepend pre
        (run x (S (S (S f))) [] s
           (ITree.bind
              (ITree.iter (publish_round lock_flag waiter_flag) (ref_of s))
              (fun expected => Ret (has_flag expected waiter_flag))))
      = Done (has_flag (ref_of s) waiter_flag || (0 <? count (ref_of s)))
          (if negb (has_flag (ref_of s) waiter_flag) && (0 <? count (ref_of s))
           then on_wc (set_ref_count (Z.lor (ref_of s) waiter_flag)) s
           else s)
          fuel' tr /\
      no_cas_success tr
      = no_cas_success pre &&
        negb (negb (has_flag (ref_of s) waiter_flag) &&
              (0 <? count (ref_of s)))).
  { intros f pre. rewrite run_bind, run_publish_round.
    destruct (has_flag (ref_of s) waiter_flag) eqn:Hf.
    - rewrite run_ret, !prepend_done, Hf. simpl.
      eexists _, _. split; [reflexivity|].
      rewrite !app_nil_r, andb_true_r. reflexivity.
    - cbv zeta. simpl hd. rewrite !interfere_id.
      destruct (0 <? count (ref_of s)) eqn:Hc.
      + rewrite Z.eqb_refl, run_ret, !prepend_done.
        rewrite (has_flag_lor _ Hw). simpl.
        eexists _, _. split; [reflexivity|].
        unfold no_cas_success. rewrite forallb_app. simpl.
        rewrite andb_false_r. reflexivity.
      + rewrite run_ret, !prepend_done, Hf. simpl.
        eexists _, _. split; [reflexivity|].
        unfold no_cas_success. rewrite forallb_app. simpl.
        rewrite andb_true_r. reflexivity. }
  destruct (has_flag (ref_of s) lock_flag) eqn:Hl.
  - rewrite run_bind, run_ret. simpl length. simpl skipn.
    destruct (Hloop (S fuel) [OLoad (ref_of s); OLoad (ref_of s)])
      as (f2 & tr2 & Hrun2 & Hn2).
    exists f2, tr2. split; [exact Hrun2|exact Hn2].
  - destruct Hassert as [Hv|Hheld]; [|congruence].
    rewrite run_bind, run_bind, run_trigger. simpl handle. cbv iota beta.
    rewrite interfere_id, Hv. simpl tbb_assert.
    simpl length. simpl skipn. rewrite run_ret.
    destruct (Hloop fuel
                [OLoad (ref_of s); OLoad (ref_of s); OVersion 0])
      as (f2 & tr2 & Hrun2 & Hn2).
    exists f2, tr2. split; [exact Hrun2|exact Hn2].
Qed.

(** [publish_wait_list()] on a wait context of the current protocol by
    a caller that does not hold the lock: the entry assertion fails
    after the three reads, and the counter is not written. *)
Theorem publish_wait_list_needs_lock fuel env s :
  m_version_and_traits (ws_wc s) <> 0 ->
  has_flag (ref_at_assert env s) lock_flag = false ->
  exists r,
    run x (4 + fuel) env s (publish_wait_list lock_flag waiter_flag)
    = Failed [OLoad r; OLoad (ref_at_assert env s);
              OVersion (m_version_and_traits (ws_wc s))].
Proof.
  intros Hv Hfree. simpl Nat.add. unfold publish_wait_list.
  rewrite run_trigger_bind. simpl handle. cbv iota.
  rewrite run_bind, run_is_locked. cbv zeta.
  change (ref_of (interfere (hd no_interference (tl env))
                    (interfere (hd no_interference env) s)))
    with (ref_at_assert env s).
  rewrite Hfree. simpl length. rewrite skipn_1_tl.
  rewrite run_bind, run_bind, run_trigger. simpl handle. cbv iota beta.
  change (m_version_and_traits
            (ws_wc (interfere (hd no_interference (tl (tl env)))
                      (interfere (hd no_interference (tl env))
                         (interfere (hd no_interference env) s)))))
    with (m_version_and_traits (ws_wc s)).
  destruct (m_version_and_traits (ws_wc s) =? 0) eqn:E;
    [apply Z.eqb_eq in E; contradiction|].
  simpl tbb_assert. simpl length. rewrite skipn_1_tl.
  rewrite run_trigger_bind. simpl handle. cbv iota.
  eexists. reflexivity.
Qed.

Local Abbreviation flag_only :=
  (@Monitors.keeps unit (fun a _ => a) (fun _ => adds_flag_only waiter_flag) x).

Lemma accepts_forallb (p : obs -> bool) tr :
  accepts (fun (a : unit) _ => a) (fun _ => p) tt tr = forallb p tr.
Proof. induction tr as [|o tr IH]; simpl; [|rewrite IH]; reflexivity. Qed.

Lemma keeps_publish_wait_list :
  flag_only (fun _ => True) tt (publish_wait_list lock_flag waiter_flag)
    (fun _ _ _ => True).
Proof.
  unfold publish_wait_list.
  eapply keeps_bind with (Q := fun _ _ _ => True).
  { apply keeps_trigger. intros i s ans s' o _ H. simpl in H.
    injection H; intros; subst. simpl. auto. }
  intros expected a.
  eapply keeps_bind with (Q := fun _ _ _ => True).
  { unfold is_locked. eapply keeps_bind with (Q := fun _ _ _ => True).
    - apply keeps_trigger. intros i s ans s' o _ H. simpl in H.
      injection H; intros; subst. simpl. auto.
    - intros r a'. apply keeps_ret. auto. }
  intros l a1.
  eapply keeps_bind with (Q := fun _ _ _ => True).
  { destruct l; [apply keeps_ret; auto|].
    eapply keeps_bind with (Q := fun _ _ _ => True).
    - apply keeps_trigger. intros i s ans s' o _ H. simpl in H.
      injection H; intros; subst. simpl. auto.
    - intros v a2. eapply keeps_post; [apply keeps_assert|auto]. }
  intros u2 a2.
  eapply keeps_bind with (Q := fun _ _ _ => True);
    [|intros e a3; apply keeps_ret; auto].
  apply (@keeps_iter x unit (fun a _ => a)
           (fun _ => adds_flag_only waiter_flag) Z Z _
           (fun _ _ _ => True) (fun _ _ _ => True)).
  intros e a3. unfold publish_round.
  destruct (has_flag e waiter_flag); [apply keeps_ret; auto|].
  eapply keeps_bind with (Q := fun _ _ _ => True).
  { unfold continue_execution.
    eapply keeps_bind with (Q := fun _ _ _ => True).
    - apply keeps_trigger. intros i s ans s' o _ H. simpl in H.
      injection H; intros; subst. simpl. auto.
    - intros r a'. apply keeps_ret. auto. }
  intros go a4. destruct go; [|apply keeps_ret; auto].
  eapply keeps_bind with (Q := fun _ _ _ => True).
  { apply keeps_trigger. intros i s ans s' o _ H. simpl in H.
    destruct (ref_of (interfere i s) =? e);
      injection H; intros; subst; simpl; rewrite Z.eqb_refl; auto. }
  intros res a5. destruct (fst res : bool).
  - eapply keeps_bind with (Q := fun _ _ _ => True).
    + eapply keeps_post; [apply keeps_assert|auto].
    + intros ? a6. apply keeps_ret. auto.
  - apply keeps_ret. auto.
Qed.

(** [publish_wait_list()] changes nothing but the flag: in every run,
    under any interference and finished or not, the call only reads,
    except for compare-exchanges that ask for the value they expect with
    [waiter_flag] added.  It never writes [m_wait_head], never takes or
    releases the lock and never changes the count of outstanding work. *)
Theorem publish_wait_list_adds_flag_only fuel env s :
  forallb (adds_flag_only waiter_flag)
    (trace_of (run x fuel env s (publish_wait_list lock_flag waiter_flag)))
  = true.
Proof.
  rewrite <- accepts_forallb.
  apply (@keeps_publish_wait_list fuel env s I).
Qed.

End Publish.

(** *** Critical sections with no other thread at work *)

Section Alone.

Variables lock_flag waiter_flag : Z.
Variable x : externals.

(** A guarded body on a free lock: the lock is taken at once, the body
    runs on the locked counter, and the lock is given back. *)
Lemma run_lock_guard_alone R (body : itree wcE R) fuel s r s1 f1 tr :
  has_flag (ref_of s) lock_flag = false ->
  run x fuel [] (on_wc (set_ref_count (Z.lor (ref_of s) lock_flag)) s) body
    = Done r s1 (S (S f1)) tr ->
  has_flag (ref_of s1) lock_flag = true ->
  run x (S (S fuel)) [] s (lock_guard lock_flag body)
  = Done r (on_wc (set_ref_count (Z.land (ref_of s1) (not64 lock_flag))) s1) f1
      ([OLoad (ref_of s); OFetchOr lock_flag (ref_of s)] ++ tr ++
       [OLoad (ref_of s1); OFetchAnd (not64 lock_flag) (ref_of s1)]).
Proof.
  intros Hfree Hbody Hheld. unfold lock_guard.
  rewrite run_bind, (@run_lock_quiet lock_flag x _ _ Hfree).
  simpl skipn. rewrite run_bind, Hbody.
  replace (skipn (length tr) []) with (@nil interference)
    by (destruct (length tr); reflexivity).
  rewrite run_bind, (@run_unlock_quiet lock_flag x _ _ Hheld).
  simpl skipn. rewrite run_ret, !prepend_done, app_nil_r. reflexivity.
Qed.

Lemma has_flag_locked r : lock_flag <> 0 ->
  has_flag (Z.lor r lock_flag) lock_flag = true.
Proof. apply has_flag_lor. Qed.

(** [unregister_waiter(node)] on a free lock, with a [node.unlink()]
    that touches nodes only: the call finishes; if the list is empty it
    calls nothing; otherwise it calls [unlink] once, and the head moves
    to [node.my_next] when [node] was the head and stays when it was
    not.  The counter ends as it was. *)
Theorem unregister_waiter_alone fuel s node :
  lock_flag <> 0 ->
  is_uint64 (ref_of s) ->
  has_flag (ref_of s) lock_flag = false ->
  (forall n s0, ws_wc (ext_unlink x n s0) = ws_wc s0) ->
  exists s' fuel' tr,
    run x (8 + fuel) [] s (unregister_waiter lock_flag node)
      = Done tt s' fuel' tr /\
    m_wait_head (ws_wc s') =
      match m_wait_head (ws_wc s) with
      | Some h =>
          if Nat.eqb h node then my_next (ws_nodes s node) else Some h
      | None => None
      end /\
    filter is_unlink tr =
      match m_wait_head (ws_wc s) with
      | Some _ => [OUnlink node]
      | None => []
      end /\
    ref_of s' = ref_of s.
Proof.
  intros Hnz Hr Hfree Hext. simpl Nat.add.
  set (sl := on_wc (set_ref_count (Z.lor (ref_of s) lock_flag)) s).
  assert (Hsl : has_flag (ref_of sl) lock_flag = true)
    by (apply has_flag_locked, Hnz).
  assert (Hback : Z.land (ref_of sl) (not64 lock_flag) = ref_of s)
    by (apply clear_after_set; assumption).
  unfold unregister_waiter.
  destruct (m_wait_head (ws_wc s)) as [h|] eqn:Hh.
  - destruct (Nat.eqb h node) eqn:Hn.
    + apply Nat.eqb_eq in Hn. subst h.
      eexists _, _, _. split.
      * apply run_lock_guard_alone; [exact Hfree| |].
        -- rewrite run_trigger_bind. simpl handle. cbv iota.
           rewrite interfere_id. simpl m_wait_head. rewrite Hh.
           simpl ptr_eqb. rewrite Nat.eqb_refl.
           rewrite run_bind, run_trigger_bind. simpl handle. cbv iota.
           rewrite interfere_id, run_trigger. simpl handle. cbv iota.
           rewrite interfere_id. cbn [after prepend fold_right length skipn tl].
           rewrite run_trigger. simpl handle. cbv iota.
           rewrite interfere_id. reflexivity.
        -- unfold ref_of. rewrite Hext. exact Hsl.
      * simpl. rewrite Hext. simpl. split; [reflexivity|].
        split; [reflexivity|]. unfold ref_of at 1. simpl.
        unfold ref_of at 1. rewrite Hext. exact Hback.
    + eexists _, _, _. split.
      * apply run_lock_guard_alone; [exact Hfree| |].
        -- rewrite run_trigger_bind. simpl handle. cbv iota.
           rewrite interfere_id. simpl m_wait_head. rewrite Hh.
           simpl ptr_eqb. rewrite Hn.
           rewrite run_bind, run_ret. simpl length. simpl skipn.
           rewrite run_trigger. simpl handle. cbv iota.
           rewrite interfere_id. simpl prepend. reflexivity.
        -- unfold ref_of. rewrite Hext. exact Hsl.
      * simpl. rewrite Hext. simpl. split; [exact Hh|].
        split; [reflexivity|]. unfold ref_of at 1. simpl.
        unfold ref_of at 1. rewrite Hext. exact Hback.
  - eexists _, _, _. split.
    + apply run_lock_guard_alone; [exact Hfree| |].
      * rewrite run_trigger_bind. simpl handle. cbv iota.
        rewrite interfere_id. simpl m_wait_head. rewrite Hh.
        rewrite run_ret. reflexivity.
      * exact Hsl.
    + simpl. split; [exact Hh|]. split; [reflexivity|]. exact Hback.
Qed.

Lemma mask_bits n :
  Z.land lock_flag (not64 waiter_flag) = lock_flag -> 0 <= n ->
  Z.testbit lock_flag n =
  Z.testbit lock_flag n && (negb (Z.testbit waiter_flag n) && (n <? 64)).
Proof.
  intros H Hn. rewrite <- H at 1. rewrite Z.land_spec, not64_bits by exact Hn.
  reflexivity.
Qed.

Lemma has_flag_of_bits a f : f <> 0 -> Z.land a f = f -> has_flag a f = true.
Proof.
  intros Hf H. unfold has_flag. rewrite H.
  destruct (f =? 0) eqn:E; [apply Z.eqb_eq in E; contradiction|reflexivity].
Qed.

Lemma no_flag_of_bits a f :
  (forall n, 0 <= n -> Z.testbit a n && Z.testbit f n = false) ->
  has_flag a f = false.
Proof.
  intros H. unfold has_flag.
  replace (Z.land a f) with 0; [reflexivity|].
  symmetry. apply Z.bits_inj'. intros n Hn.
  rewrite Z.land_spec, Z.bits_0. apply H, Hn.
Qed.

(** The counter while [notify_waiters] holds the lock and has cleared
    [waiter_flag] still shows the lock. *)
Lemma locked_after_clear r :
  lock_flag <> 0 ->
  Z.land lock_flag (not64 waiter_flag) = lock_flag ->
  has_flag (Z.land (Z.lor r lock_flag) (not64 waiter_flag)) lock_flag = true.
Proof.
  intros Hnz Hmask. apply has_flag_of_bits; [exact Hnz|].
  apply Z.bits_inj'. intros n Hn.
  rewrite !Z.land_spec, Z.lor_spec, not64_bits by exact Hn.
  rewrite (@mask_bits n Hmask Hn).
  destruct (Z.testbit r n), (Z.testbit lock_flag n),
    (Z.testbit waiter_flag n), (n <? 64); reflexivity.
Qed.

(** Taking the lock, clearing [waiter_flag] and giving the lock back
    clears [waiter_flag] and nothing else. *)
Lemma clear_under_lock r :
  has_flag r lock_flag = false ->
  Z.land (Z.land (Z.lor r lock_flag) (not64 waiter_flag)) (not64 lock_flag)
  = Z.land r (not64 waiter_flag).
Proof.
  intros Hfree. apply Z.bits_inj'. intros n Hn.
  rewrite !Z.land_spec, Z.lor_spec, !not64_bits by exact Hn.
  pose proof (@flag_clear_bits r lock_flag n Hfree) as Hb.
  destruct (Z.testbit r n), (Z.testbit lock_flag n),
    (Z.testbit waiter_flag n), (n <? 64); simpl in *; congruence.
Qed.

Lemma run_notify_waiters_alone fuel s :
  lock_flag <> 0 ->
  Z.land lock_flag (not64 waiter_flag) = lock_flag ->
  has_flag (ref_of s) lock_flag = false ->
  (forall h s0, ws_wc (ext_notify_all x h s0) = ws_wc s0) ->
  exists nodes,
    run x (9 + fuel) [] s (notify_waiters lock_flag waiter_flag)
    = Done tt
        (mk_wstate
           (mk_wait_context (m_version_and_traits (ws_wc s))
              (Z.land (ref_of s) (not64 waiter_flag)) None)
           nodes)
        (match m_wait_head (ws_wc s) with Some _ => fuel | None => 2 + fuel end)
        ([OLoad (ref_of s); OFetchOr lock_flag (ref_of s);
          OHeadRead (m_wait_head (ws_wc s))] ++ notification lock_flag s ++
         [OLoad (Z.lor (ref_of s) lock_flag);
          OStore (Z.land (Z.lor (ref_of s) lock_flag) (not64 waiter_flag));
          OLoad (Z.land (Z.lor (ref_of s) lock_flag) (not64 waiter_flag));
          OFetchAnd (not64 lock_flag)
            (Z.land (Z.lor (ref_of s) lock_flag) (not64 waiter_flag))]).
Proof.
  intros Hnz Hmask Hfree Hext. simpl Nat.add. unfold notify_waiters.
  unfold notification.
  destruct s as [[v r h] nodes]. unfold ref_of in *. simpl in Hfree.
  cbn [ws_wc m_ref_count m_wait_head m_version_and_traits].
  destruct h as [head|].
  - destruct (ext_notify_all x head
        {| ws_wc := {| m_version_and_traits := v;
                       m_ref_count := Z.lor r lock_flag;
                       m_wait_head := Some head |};
           ws_nodes := nodes |}) as [wc' nodes'] eqn:E.
    pose proof (Hext head
        {| ws_wc := {| m_version_and_traits := v;
                       m_ref_count := Z.lor r lock_flag;
                       m_wait_head := Some head |};
           ws_nodes := nodes |}) as Hwc.
    rewrite E in Hwc. simpl in Hwc. subst wc'.
    exists nodes'.
    etransitivity;
      [apply run_lock_guard_alone; [exact Hfree| |]|].
    + rewrite run_trigger_bind. simpl handle. cbv iota.
      rewrite interfere_id. simpl m_wait_head.
      rewrite run_bind, run_trigger_bind. simpl handle. cbv iota.
      rewrite interfere_id, run_trigger. simpl handle. cbv iota.
      rewrite interfere_id. cbn [after prepend fold_right length skipn tl].
      rewrite run_trigger_bind. simpl handle. cbv iota.
      rewrite interfere_id, run_trigger. simpl handle. cbv iota.
      rewrite interfere_id. unfold ref_of, on_wc, set_ref_count. simpl.
      rewrite E. simpl. reflexivity.
    + unfold ref_of. simpl. apply locked_after_clear; assumption.
    + unfold ref_of. simpl. rewrite clear_under_lock by exact Hfree.
      reflexivity.
  - exists nodes.
    etransitivity;
      [apply run_lock_guard_alone; [exact Hfree| |]|].
    + rewrite run_trigger_bind. simpl handle. cbv iota.
      rewrite interfere_id. simpl m_wait_head.
      rewrite run_bind, run_ret. cbn [prepend fold_right length skipn].
      rewrite run_trigger_bind. simpl handle. cbv iota.
      rewrite interfere_id, run_trigger. simpl handle. cbv iota.
      rewrite interfere_id. unfold ref_of. simpl. reflexivity.
    + unfold ref_of. simpl. apply locked_after_clear; assumption.
    + unfold ref_of. simpl. rewrite clear_under_lock by exact Hfree.
      reflexivity.
Qed.

Lemma work_count_without_flag r :
  work_count lock_flag waiter_flag (Z.land r (not64 waiter_flag))
  = work_count lock_flag waiter_flag r.
Proof.
  unfold work_count. apply Z.bits_inj'. intros n Hn.
  rewrite !Z.land_spec, !not64_bits, Z.lor_spec by exact Hn.
  destruct (Z.testbit r n), (Z.testbit lock_flag n),
    (Z.testbit waiter_flag n), (n <? 64); reflexivity.
Qed.

Lemma no_flag_after_clear r f : has_flag (Z.land r (not64 f)) f = false.
Proof.
  apply no_flag_of_bits. intros n Hn.
  rewrite Z.land_spec, not64_bits by exact Hn.
  destruct (Z.testbit r n), (Z.testbit f n), (n <? 64); reflexivity.
Qed.

(** [notify_waiters()] on a free lock, with no other thread at work and
    a [notify_all] that leaves the wait context to its caller: the call
    finishes, notifies the head of a list that is not empty once and
    nothing otherwise, and leaves the wait context with an empty list,
    [waiter_flag] and [lock_flag] clear and the count of outstanding
    work as it was. *)
Theorem notify_waiters_alone fuel s :
  lock_flag <> 0 ->
  Z.land lock_flag (not64 waiter_flag) = lock_flag ->
  has_flag (ref_of s) lock_flag = false ->
  (forall h s0, ws_wc (ext_notify_all x h s0) = ws_wc s0) ->
  exists s' fuel' tr,
    run x (9 + fuel) [] s (notify_waiters lock_flag waiter_flag)
      = Done tt s' fuel' tr /\
    ws_wc s' = mk_wait_context (m_version_and_traits (ws_wc s))
                 (Z.land (ref_of s) (not64 waiter_flag)) None /\
    has_flag (ref_of s') waiter_flag = false /\
    has_flag (ref_of s') lock_flag = false /\
    work_count lock_flag waiter_flag (ref_of s')
      = work_count lock_flag waiter_flag (ref_of s) /\
    filter is_resumption tr =
      match m_wait_head (ws_wc s) with
      | Some head => [ONotifyAll head]
      | None => []
      end.
Proof.
  intros Hnz Hmask Hfree Hext.
  destruct (@run_notify_waiters_alone fuel s Hnz Hmask Hfree Hext)
    as (nodes & Hrun).
  eexists _, _, _. split; [exact Hrun|].
  split; [reflexivity|]. unfold ref_of at 1 2 3. simpl.
  split; [apply no_flag_after_clear|]. split.
  - apply no_flag_of_bits. intros n Hn.
    rewrite Z.land_spec.
    pose proof (@flag_clear_bits _ _ n Hfree) as Hb.
    destruct (Z.testbit (ref_of s) n), (Z.testbit lock_flag n);
      simpl in *; try congruence; rewrite ?andb_false_r; reflexivity.
  - split; [apply work_count_without_flag|].
    unfold notification. destruct (m_wait_head (ws_wc s)); reflexivity.
Qed.




(** The [register_waiter] action on a legacy wait context whose work is
    done, with no other thread at work: nothing is published and the
    suspend point is resumed. *)
Lemma run_register_legacy_done fuel s node sp :
  m_version_and_traits (ws_wc s) = 0 ->
  has_flag (ref_of s) lock_flag = false ->
  has_flag (ref_of s) waiter_flag = false ->
  work_count lock_flag waiter_flag (ref_of s) <= 0 ->
  run x (8 + fuel) [] s
    (register_waiter_action lock_flag waiter_flag node sp)
  = Done tt (on_wc (set_wait_head (Some sp)) s) (S fuel)
      [OVersion 0; OHeadWrite (Some sp) (ref_of s);
       OLoad (ref_of s); OLoad (ref_of s); OVersion 0; OLoad (ref_of s);
       OResume sp].
Proof.
  intros Hv Hfree Hnew Hdone. simpl Nat.add. unfold register_waiter_action.
  rewrite run_trigger_bind. simpl handle. cbv iota.
  rewrite interfere_id, Hv. simpl Z.eqb. cbv iota.
  rewrite run_trigger_bind. simpl handle. cbv iota.
  rewrite interfere_id. simpl tl.
  set (sh := on_wc (set_wait_head (Some sp)) s).
  assert (Hpub :
    run x (S (S (S (S (S (S fuel)))))) [] sh
      (publish_wait_list lock_flag waiter_flag)
    = Done false sh (S (S fuel))
        [OLoad (ref_of s); OLoad (ref_of s); OVersion 0; OLoad (ref_of s)]).
  { unfold publish_wait_list.
    rewrite run_trigger_bind. simpl handle. cbv iota. simpl tl.
    rewrite interfere_id, run_bind, run_is_locked. cbv zeta. simpl hd.
    rewrite interfere_id.
    change (ref_of sh) with (ref_of s). rewrite Hfree.
    simpl length. simpl skipn.
    rewrite run_bind, run_bind, run_trigger. simpl handle. cbv iota beta.
    rewrite interfere_id.
    change (m_version_and_traits (ws_wc sh))
      with (m_version_and_traits (ws_wc s)).
    rewrite Hv. simpl tbb_assert.
    simpl length. simpl skipn. rewrite run_ret.
    cbn [after prepend fold_right length skipn].
    rewrite run_bind, run_publish_round, Hnew. cbv zeta. simpl hd.
    rewrite !interfere_id. change (ref_of sh) with (ref_of s).
    replace (0 <? work_count lock_flag waiter_flag (ref_of s)) with false
      by (symmetry; apply Z.ltb_ge; exact Hdone).
    cbn [prepend fold_right length skipn].
    rewrite run_ret, Hnew. reflexivity. }
  rewrite run_bind, Hpub. simpl negb. cbv iota.
  cbn [length skipn]. rewrite run_trigger. simpl handle. cbv iota.
  rewrite interfere_id. reflexivity.
Qed.

End Alone.

(** *** The lock bit when [lock()] and [unlock()] return *)

Section LockStates.

Variable lock_flag : Z.
Variable x : externals.

Local Abbreviation quiet :=
  (@Monitors.keeps unit (fun a _ => a) (fun _ _ => true) x).

Lemma keeps_lock_held :
  lock_flag <> 0 ->
  quiet (fun _ => True) tt (lock lock_flag)
    (fun _ _ s' => has_flag (ref_of s') lock_flag = true).
Proof.
  intros Hnz. unfold lock.
  apply (@keeps_iter x unit (fun a _ => a) (fun _ _ => true) unit unit _
           (fun _ _ _ => True)
           (fun _ _ s' => has_flag (ref_of s') lock_flag = true)).
  intros [] a.
  eapply keeps_bind with (Q := fun _ _ _ => True).
  - unfold is_locked. eapply keeps_bind with (Q := fun _ _ _ => True).
    + apply keeps_trigger. intros i s ans s' o _ H. simpl in H.
      injection H; intros; subst. auto.
    + intros r a'. apply keeps_ret. auto.
  - intros l a'. destruct l.
    + eapply keeps_bind with (Q := fun _ _ _ => True).
      * apply keeps_trigger. intros i s ans s' o _ H. simpl in H.
        injection H; intros; subst. auto.
      * intros u a2. apply keeps_ret. auto.
    + eapply keeps_bind with
        (Q := fun (got : bool) _ s' =>
                got = true -> has_flag (ref_of s') lock_flag = true).
      * unfold try_lock.
        eapply keeps_bind with
          (Q := fun (old : Z) _ s' => has_flag (ref_of s') lock_flag = true).
        -- apply keeps_trigger. intros i s ans s' o _ H. simpl in H.
           injection H; intros; subst. split; [reflexivity|].
           rewrite ref_of_set_ref. apply has_flag_lor. exact Hnz.
        -- intros old a2. apply keeps_ret. auto.
      * intros got a2. destruct got.
        -- apply keeps_ret. auto.
        -- eapply keeps_bind with (Q := fun _ _ _ => True).
           ++ apply keeps_trigger. intros i s ans s' o _ H. simpl in H.
              injection H; intros; subst. auto.
           ++ intros u a3. apply keeps_ret. auto.
Qed.

(** When [lock()] returns, the caller has the lock: its last operation
    is a [fetch_or] that found [lock_flag] clear, everything before it
    is spinning, and the counter holds [lock_flag].  This is so under
    any interference of the other threads. *)
Theorem lock_returns_holding fuel env s a s' fuel' tr :
  lock_flag <> 0 ->
  run x fuel env s (lock lock_flag) = Done a s' fuel' tr ->
  has_flag (ref_of s') lock_flag = true /\
  exists spin old,
    tr = spin ++ [OFetchOr lock_flag old] /\
    has_flag old lock_flag = false /\
    forallb (spin_op lock_flag) spin = true.
Proof.
  intros Hnz Hrun. split.
  - destruct (@keeps_lock_held Hnz fuel env s I) as [_ H].
    rewrite Hrun in H. exact H.
  - exact (@run_lock_done lock_flag x fuel env s a s' fuel' tr Hrun).
Qed.

(** When [unlock()] returns, [lock_flag] is clear in the counter,
    whatever the other threads did to the count in between. *)
Theorem unlock_returns_released fuel env s a s' fuel' tr :
  run x fuel env s (unlock lock_flag) = Done a s' fuel' tr ->
  has_flag (ref_of s') lock_flag = false /\
  exists r1 r2, tr = [OLoad r1; OFetchAnd (not64 lock_flag) r2] /\
                has_flag r1 lock_flag = true.
Proof.
  intros Hrun. unfold unlock in Hrun.
  apply run_bind_done in Hrun.
  destruct Hrun as (l & s1 & f1 & tr1 & tr2 & Hl & Hrest & ->).
  apply run_is_locked_done in Hl. destruct Hl as (-> & -> & -> & ->).
  apply run_bind_done in Hrest.
  destruct Hrest as (u & s2 & f2 & tr3 & tr4 & Hassert & Hrest & ->).
  apply run_assert_done in Hassert.
  destruct Hassert as (Hheld & -> & -> & ->).
  apply run_bind_done in Hrest.
  destruct Hrest as (old & s3 & f3 & tr5 & tr6 & Hand & Hret & ->).
  apply run_trigger_done in Hand.
  destruct Hand as (o & -> & Hh & ->). simpl in Hh.
  injection Hh as <- <- <-.
  apply run_ret_done in Hret. destruct Hret as (_ & -> & _ & ->).
  split.
  - rewrite ref_of_set_ref. apply no_flag_after_clear.
  - eexists _, _. split; [reflexivity|exact Hheld].
Qed.

End LockStates.

(** *** What the answer of [publish_wait_list] says *)

Section PublishAnswer.

Variables lock_flag waiter_flag : Z.
Variable x : externals.
Hypothesis waiter_flag_nonzero : waiter_flag <> 0.

Local Abbreviation recorded := (@Monitors.keeps (list obs) record any_op x).
Local Abbreviation count := (work_count lock_flag waiter_flag).

Definition quiet_cas (a : list obs) : Prop :=
  forallb (fun o => negb (cas_success o)) a = true.

(** The loop of [publish_wait_list] with [expected] in hand: no
    compare-exchange has succeeded, and [expected] has been read from
    the counter. *)
Definition publish_inv (p : ptr) (expected : Z) (a : list obs) (s : wstate)
  : Prop :=
  m_wait_head (ws_wc s) = p /\
  quiet_cas a /\
  (has_flag expected waiter_flag = true ->
   existsb (flag_seen waiter_flag) a = true).

Definition publish_post (p : ptr) (flagged : bool) (a : list obs) (s' : wstate)
  : Prop :=
  m_wait_head (ws_wc s') = p /\
  (flagged = true ->
   has_flag (ref_of s') waiter_flag = true \/
   existsb (flag_seen waiter_flag) a = true) /\
  (flagged = false ->
   quiet_cas a /\
   exists v rest, a = OLoad v :: rest /\ (0 <? count v) = false).

Lemma keeps_publish_answer p a0 :
  quiet_cas a0 ->
  recorded (fun s => m_wait_head (ws_wc s) = p) a0
    (publish_wait_list lock_flag waiter_flag)
    (fun r a s' => publish_post p r a s').
Proof.
  intros Ha0. unfold publish_wait_list.
  eapply keeps_bind with
    (Q := fun (e : Z) a s' => publish_inv p e a s').
  { apply keeps_trigger. intros i s ans s' o Hs H. simpl in H.
    injection H as <- <- <-. split; [reflexivity|].
    unfold publish_inv, quiet_cas, record. simpl.
    split; [exact Hs|]. split; [exact Ha0|].
    intros Hf. unfold flag_seen at 1. simpl. rewrite Hf. reflexivity. }
  intros expected a1.
  eapply keeps_bind with
    (Q := fun (_ : bool) a s' => publish_inv p expected a s').
  { unfold is_locked.
    eapply keeps_bind with
      (Q := fun (_ : Z) a s' => publish_inv p expected a s').
    - apply keeps_trigger. intros i s ans s' o (Hh & Hq & Hf) H. simpl in H.
      injection H as <- <- <-. split; [reflexivity|].
      unfold publish_inv, quiet_cas, record in *. simpl.
      split; [exact Hh|]. split; [exact Hq|].
      intros Hfe. rewrite (Hf Hfe). apply orb_true_r.
    - intros r a'. apply keeps_ret. auto. }
  intros l a2.
  eapply keeps_bind with
    (Q := fun (_ : unit) a s' => publish_inv p expected a s').
  { destruct l; [apply keeps_ret; auto|].
    eapply keeps_bind with
      (Q := fun (_ : Z) a s' => publish_inv p expected a s').
    - apply keeps_trigger. intros i s ans s' o (Hh & Hq & Hf) H. simpl in H.
      injection H as <- <- <-. split; [reflexivity|].
      unfold publish_inv, quiet_cas, record in *. simpl.
      split; [exact Hh|]. split; [exact Hq|].
      intros Hfe. apply (Hf Hfe).
    - intros v a3. eapply keeps_post; [apply keeps_assert|].
      intros u a' s' (-> & _ & H). exact H. }
  intros u2 a3.
  eapply keeps_bind with
    (Q := fun (e : Z) a s' => publish_post p (has_flag e waiter_flag) a s');
    [|intros e a4; apply keeps_ret; auto].
  apply (@keeps_iter x (list obs) record any_op Z Z _
           (fun e a s => publish_inv p e a s)
           (fun e a s' => publish_post p (has_flag e waiter_flag) a s')).
  intros e a4. unfold publish_round.
  destruct (has_flag e waiter_flag) eqn:He.
  { apply keeps_ret. intros s (Hh & Hq & Hf). unfold publish_post.
    rewrite He. split; [exact Hh|]. split; [auto|discriminate]. }
  eapply keeps_bind with
    (Q := fun (go : bool) a s' =>
            m_wait_head (ws_wc s') = p /\ quiet_cas a /\
            (go = false ->
             exists v rest, a = OLoad v :: rest /\ (0 <? count v) = false)).
  { unfold continue_execution.
    eapply keeps_bind with
      (Q := fun (r : Z) a s' =>
              m_wait_head (ws_wc s') = p /\ quiet_cas a /\
              exists rest, a = OLoad r :: rest).
    - apply keeps_trigger. intros i s ans s' o (Hh & Hq & Hf) H. simpl in H.
      injection H as <- <- <-. split; [reflexivity|].
      unfold quiet_cas, record in *. simpl.
      split; [exact Hh|]. split; [exact Hq|]. eexists. reflexivity.
    - intros r a'. apply keeps_ret. intros s (Hh & Hq & rest & ->).
      split; [exact Hh|]. split; [exact Hq|].
      intros Hgo. exists r, rest. auto. }
  intros go a5. destruct go.
  - eapply keeps_bind with
      (Q := fun (res : bool * Z) a s' =>
              m_wait_head (ws_wc s') = p /\
              if fst res
              then has_flag (ref_of s') waiter_flag = true
              else publish_inv p (snd res) a s').
    + apply keeps_trigger. intros i s ans s' o (Hh & Hq & _) H. simpl in H.
      destruct (ref_of (interfere i s) =? e) eqn:Ee;
        injection H as <- <- <-; (split; [reflexivity|]); simpl.
      * split; [exact Hh|]. rewrite ref_of_set_ref.
        apply has_flag_lor. exact waiter_flag_nonzero.
      * split; [exact Hh|]. unfold publish_inv, quiet_cas, record in *.
        simpl. split; [exact Hh|]. split; [exact Hq|].
        intros Hf. unfold flag_seen at 1. simpl. rewrite Hf. reflexivity.
    + intros res a6. destruct res as [[|] actual]; simpl.
      * eapply keeps_bind with
          (Q := fun (_ : unit) a s' =>
                  m_wait_head (ws_wc s') = p /\
                  has_flag (ref_of s') waiter_flag = true).
        -- apply keeps_ret. auto.
        -- intros u a7. apply keeps_ret. intros s (Hh & Hf).
           unfold publish_post.
           rewrite (has_flag_lor _ waiter_flag_nonzero).
           split; [exact Hh|]. split; [auto|discriminate].
      * apply keeps_ret. intros s (_ & H). exact H.
  - apply keeps_ret. intros s (Hh & Hq & Hz). unfold publish_post.
    rewrite He. split; [exact Hh|]. split; [discriminate|]. auto.
Qed.

Lemma reach_record a tr : reach record a tr = rev tr ++ a.
Proof.
  unfold reach. revert a.
  induction tr as [|o tr IH]; intros a; simpl; [reflexivity|].
  rewrite IH. unfold record. rewrite <- app_assoc. reflexivity.
Qed.

Lemma existsb_rev (f : obs -> bool) tr : existsb f (rev tr) = existsb f tr.
Proof.
  induction tr as [|o tr IH]; simpl; [reflexivity|].
  rewrite existsb_app, IH. simpl. rewrite orb_false_r. apply orb_comm.
Qed.

Lemma forallb_rev (f : obs -> bool) tr : forallb f (rev tr) = forallb f tr.
Proof.
  induction tr as [|o tr IH]; simpl; [reflexivity|].
  rewrite forallb_app, IH. simpl. rewrite andb_true_r. apply andb_comm.
Qed.

(** The answer of a finished [publish_wait_list], under any
    interference.  True: [waiter_flag] is in the counter when the call
    returns, or the call has read it there.  False: the last operation
    of the call is the load of [continue_execution()], which found no
    work outstanding, and no compare-exchange of the call has
    succeeded.  The head of the list is not touched. *)
Lemma publish_answer fuel env s r s' fuel' tr :
  run x fuel env s (publish_wait_list lock_flag waiter_flag)
    = Done r s' fuel' tr ->
  m_wait_head (ws_wc s') = m_wait_head (ws_wc s) /\
  (r = true ->
   has_flag (ref_of s') waiter_flag = true \/
   flag_observed waiter_flag tr = true) /\
  (r = false ->
   no_cas_success tr = true /\
   exists tr0 v, tr = tr0 ++ [OLoad v] /\ count v <= 0).
Proof.
  intros Hrun.
  destruct (@keeps_publish_answer (m_wait_head (ws_wc s)) [] eq_refl
              fuel env s eq_refl) as [_ H].
  rewrite Hrun in H. rewrite reach_record, app_nil_r in H.
  destruct H as (Hh & Ht & Hf). split; [exact Hh|]. split.
  - intros Hr. destruct (Ht Hr) as [H|H]; [left; exact H|right].
    unfold flag_observed. rewrite <- existsb_rev. exact H.
  - intros Hr. destruct (Hf Hr) as (Hq & v & rest & Ha & Hz).
    split.
    + unfold no_cas_success. rewrite <- forallb_rev. exact Hq.
    + exists (rev rest), v. split.
      * rewrite <- (rev_involutive tr), Ha. reflexivity.
      * apply Z.ltb_ge. exact Hz.
Qed.

End PublishAnswer.

(** *** Registered or resumed *)

Section RegisterWaiter.

Variables lock_flag waiter_flag : Z.
Variable x : externals.
Hypothesis waiter_flag_nonzero : waiter_flag <> 0.

Lemma flag_only_is_no_resumption tr :
  forallb (adds_flag_only waiter_flag) tr = true ->
  existsb is_resumption tr = false.
Proof.
  intros H. destruct (existsb is_resumption tr) eqn:E; [|reflexivity].
  apply existsb_exists in E. destruct E as (o & Hin & Ho).
  rewrite forallb_forall in H. specialize (H o Hin).
  destruct o; discriminate.
Qed.

(** C8.  The [register_waiter] action among interfering threads, with
    fuel for every round that an interference can spoil, returns.

    On a legacy wait context it has stored the suspend point as the
    head of the list and called [publish_wait_list], and then one of
    two things holds.  Registered: the head is the suspend point and
    [waiter_flag] is in the counter when the action returns, or was
    read there by the call; nothing is resumed; and the work had not
    reached zero for good before the flag was in the counter.
    Resumed: [publish_wait_list] failed because the work was done, its
    last operation being a load that found no work outstanding, it has
    set nothing, and the last operation of the action is the one call
    of [r1::resume] on the suspend point.

    On the current protocol the action calls [try_register_waiter] and,
    exactly when that returns false, [r1::resume] on the suspend
    point. *)
Theorem failed_registration_resumes fuel env s node sp :
  (3 * length env + 13 <= fuel)%nat ->
  exists s' fuel' tr,
    run x fuel env s (register_waiter_action lock_flag waiter_flag node sp)
      = Done tt s' fuel' tr /\
    (m_version_and_traits (ws_wc s) = 0 ->
     exists r0 pub,
       (tr = OVersion 0 :: OHeadWrite (Some sp) r0 :: pub /\
        m_wait_head (ws_wc s') = Some sp /\
        (has_flag (ref_of s') waiter_flag = true \/
         flag_observed waiter_flag pub = true) /\
        existsb is_resumption tr = false /\
        (zero_absorbing lock_flag waiter_flag pub = true ->
         zero_before_flag lock_flag waiter_flag pub = true -> False))
       \/
       (tr = OVersion 0 :: OHeadWrite (Some sp) r0 :: pub ++ [OResume sp] /\
        no_cas_success pub = true /\
        existsb is_resumption pub = false /\
        exists pub0 v,
          pub = pub0 ++ [OLoad v] /\
          work_count lock_flag waiter_flag v <= 0)) /\
    (m_version_and_traits (ws_wc s) <> 0 ->
     let answer :=
       fst (ext_try_register_waiter x node
              (interfere (hd no_interference (tl env))
                 (interfere (hd no_interference env) s))) in
     tr = OVersion (m_version_and_traits (ws_wc s))
          :: OTryRegister node answer
          :: (if answer then [] else [OResume sp])).
Proof.
  intros Hfuel.
  do 4 (destruct fuel as [|fuel]; [lia|]).
  unfold register_waiter_action.
  destruct (m_version_and_traits (ws_wc s) =? 0) eqn:Hv.
  - (* legacy *)
    apply Z.eqb_eq in Hv.
    set (sa := interfere (hd no_interference env) s).
    set (sb := on_wc (set_wait_head (Some sp))
                 (interfere (hd no_interference (tl env)) sa)).
    destruct (@run_publish_wait_list lock_flag waiter_flag x
                waiter_flag_nonzero (S fuel) (tl (tl env)) sb)
      as (ok & sc & fc & trc & Hpub & _ & P2 & _).
    { destruct env as [|i1 [|i2 env]]; simpl length in *; lia. }
    { left. exact Hv. }
    destruct (@publish_answer lock_flag waiter_flag x waiter_flag_nonzero
                _ _ _ _ _ _ _ Hpub) as (Hhead & Htrue & Hfalse).
    assert (Hquiet : existsb is_resumption trc = false).
    { apply flag_only_is_no_resumption.
      pose proof (@keeps_publish_wait_list lock_flag waiter_flag x
                    (S fuel) (tl (tl env)) sb I) as [Hacc _].
      rewrite Hpub in Hacc. simpl trace_of in Hacc.
      rewrite accepts_forallb in Hacc. exact Hacc. }
    apply (run_fuel_mono x 1) in Hpub. simpl Nat.add in Hpub.
    destruct ok.
    + eexists _, _, _. split.
      * eapply run_bind_intro.
        -- rewrite run_version_read, Hv. reflexivity.
        -- simpl Z.eqb. cbv iota. eapply run_bind_intro.
           ++ apply run_trigger_intro. reflexivity.
           ++ simpl length. rewrite skipn_1_tl.
              eapply run_bind_intro; [exact Hpub|]. apply run_ret.
      * split; [|intros Hcur; congruence].
        intros _. eexists _, trc. left. rewrite app_nil_r.
        split; [reflexivity|]. split; [exact Hhead|].
        split; [exact (Htrue eq_refl)|]. split; [simpl; exact Hquiet|].
        intros Habs Hzero. destruct (P2 Habs Hzero). discriminate.
    + destruct (Hfalse eq_refl) as (Hnocas & pub0 & v & Htr & Hdone).
      eexists _, _, _. split.
      * eapply run_bind_intro.
        -- rewrite run_version_read, Hv. reflexivity.
        -- simpl Z.eqb. cbv iota. eapply run_bind_intro.
           ++ apply run_trigger_intro. reflexivity.
           ++ simpl length. rewrite skipn_1_tl.
              eapply run_bind_intro; [exact Hpub|].
              apply run_trigger_intro. reflexivity.
      * split; [|intros Hcur; congruence].
        intros _. eexists _, trc. right.
        split; [reflexivity|]. split; [exact Hnocas|].
        split; [exact Hquiet|]. exists pub0, v. auto.
  - (* current protocol *)
    apply Z.eqb_neq in Hv.
    set (sa := interfere (hd no_interference env) s).
    set (r := ext_try_register_waiter x node
                (interfere (hd no_interference (tl env)) sa)).
    destruct (fst r) eqn:Hok.
    + eexists _, _, _. split.
      * eapply run_bind_intro.
        -- apply run_version_read.
        -- destruct (m_version_and_traits (ws_wc s) =? 0) eqn:E;
             [apply Z.eqb_eq in E; contradiction|].
           simpl length. rewrite skipn_1_tl.
           eapply run_bind_intro.
           ++ apply run_trigger_intro. reflexivity.
           ++ fold sa. fold r. rewrite Hok. apply run_ret.
      * split; [intros H0; contradiction|].
        intros _. cbv zeta. fold sa. fold r. rewrite Hok. reflexivity.
    + eexists _, _, _. split.
      * eapply run_bind_intro.
        -- apply run_version_read.
        -- destruct (m_version_and_traits (ws_wc s) =? 0) eqn:E;
             [apply Z.eqb_eq in E; contradiction|].
           simpl length. rewrite skipn_1_tl.
           eapply run_bind_intro.
           ++ apply run_trigger_intro. reflexivity.
           ++ fold sa. fold r. rewrite Hok.
              apply run_trigger_intro. reflexivity.
      * split; [intros H0; contradiction|].
        intros _. cbv zeta. fold sa. fold r. rewrite Hok. reflexivity.
Qed.

End RegisterWaiter.

End WaitContextProperties.

(** ** Further properties of resumable tasks *)

Module SchedulerProperties.
Import WaitContext Scheduler EntryPoints SchedulerFacts.
Local Open Scope sched_scope.

Section ResumeCall.

Variable c : collaborators.

(** [r1::resume(sp)] on a suspend point without arena, or on one whose
    dispatcher is attached to a thread: the call stops at an assertion
    before it touches the arena; nothing is pushed, no work is
    advertised and no reference is taken.  A null [sp] is not caught by
    an assertion: the call follows it, to read [sp->m_arena] for
    [assert_pointers_valid]. *)
Theorem resume_rejects sp w :
  match sp with
  | Some p =>
      m_arena (suspend_points w p) = None \/
      m_thread_data
        (dispatchers w (m_resume_task_target (suspend_points w p))) <> None
  | None => True
  end ->
  resume c sp w =
    ([EvResume sp],
     Stop (match sp with
           | Some _ => AssertionFailure
           | None => NullDereference
           end)).
Proof.
  intros H. unfold resume. sched. destruct sp as [p|]; sched; [|reflexivity].
  destruct (m_arena (suspend_points w p)) as [a|] eqn:Ea; sched;
    [|reflexivity].
  destruct H as [H|H]; [discriminate|].
  destruct (m_thread_data
              (dispatchers w (m_resume_task_target (suspend_points w p))));
    [reflexivity|congruence].
Qed.

(** A call of [r1::resume(sp)] that passes its assertions does, in this
    order: the push, the advertisement of new work, the release of the
    arena.  The reference that it takes on the arena is given back: the
    reference count and the coroutine cache of the arena end as they
    were.  No thread data and no dispatcher is written, and of the
    suspend points only the random state of [sp] changes. *)
Theorem resume_order_and_references (sp a : addr) (w : world) :
  m_arena (suspend_points w sp) = Some a ->
  m_thread_data (dispatchers w (m_resume_task_target (suspend_points w sp)))
    = None ->
  exists critical lane w',
    resume c (Some sp) w
      = ([EvResume (Some sp); EvPush critical lane sp; EvAdvertise a;
          EvLeave a], Ok tt w') /\
    my_references (arenas w' a) = my_references (arenas w a) /\
    my_co_cache (arenas w' a) = my_co_cache (arenas w a) /\
    tds w' = tds w /\
    dispatchers w' = dispatchers w /\
    suspend_points w' sp =
      mk_suspend_point (m_arena (suspend_points w sp))
        (next_random c (m_random (suspend_points w sp)))
        (m_is_owner_recalled (suspend_points w sp))
        (m_resume_task_target (suspend_points w sp)) /\
    (forall sp', sp' <> sp -> suspend_points w' sp' = suspend_points w sp').
Proof.
  intros Harena Hfree.
  unfold resume, bind, emit, get, TBB_ASSERT, deref. simpl.
  rewrite Harena, Hfree. simpl.
  destruct (critical_task_allowed
              (m_properties
                 (dispatchers w (m_resume_task_target (suspend_points w sp)))));
    unfold stream_push, bind, emit, get, modify; simpl;
    eexists _, _, _; (split; [reflexivity|]); simpl;
    rewrite !upd_same; simpl;
    (split; [lia|]); (split; [reflexivity|]); (split; [reflexivity|]);
    (split; [reflexivity|]); (split; [rewrite Harena; reflexivity|]);
    intros sp' Hne; unfold upd; apply Nat.eqb_neq in Hne; rewrite Hne;
    reflexivity.
Qed.

End ResumeCall.

Section SwapGuards.

Variable c : collaborators.

(** The assertions of [task_dispatcher::resume] are checked before the
    swap: when they do not all hold for the thread attached to [this],
    the call stops at an assertion and has not swapped. *)
Theorem task_dispatcher_resume_rejects this target w :
  (forall td, ~ resume_precondition this target td w) ->
  task_dispatcher_resume c this target w = ([], Stop AssertionFailure).
Proof.
  intros Hno. unfold task_dispatcher_resume. sched.
  destruct (Nat.eqb target this) eqn:Hne; sched; [reflexivity|].
  destruct (m_thread_data (dispatchers w this)) as [td|] eqn:Htd; sched;
    [|reflexivity].
  destruct (ptr_eqb (my_task_dispatcher (tds w td)) (Some this)) eqn:Hdisp;
    sched; [|reflexivity].
  apply ptr_eqb_eq in Hdisp.
  destruct (my_post_resume_action (tds w td)) eqn:Ea; sched;
    try reflexivity;
    (destruct (my_post_resume_arg (tds w td)) as [arg|] eqn:Earg; sched;
     [|reflexivity]).
  all: unfold detach_task_dispatcher; sched; rewrite Hdisp; sched.
  all: unfold attach_task_dispatcher; sched; rewrite upd_same; sched.
  all: unfold upd at 1; rewrite Hne.
  all: destruct (m_thread_data (dispatchers w target)) as [td2|] eqn:Hfree;
       sched; [reflexivity|].
  all: assert (Hne2 : Nat.eqb this target = false)
         by (rewrite Nat.eqb_sym; exact Hne).
  all: unfold upd; rewrite ?Nat.eqb_refl, ?Hne, ?Hne2; sched.
  all: destruct (m_suspend_point (dispatchers w this)) as [sp1|] eqn:Hs1;
       sched; [|reflexivity].
  all: destruct (m_suspend_point (dispatchers w target)) as [sp2|] eqn:Hs2;
       sched; [|reflexivity].
  all: exfalso; apply (Hno td); unfold resume_precondition;
       apply Nat.eqb_neq in Hne;
       rewrite Htd, Hdisp, Ea, Earg, Hfree, Hs1, Hs2;
       repeat split; congruence.
Qed.

(** [task_dispatcher::suspend] with a null callback, a null argument, a
    dispatcher that no thread is attached to, or a thread without arena
    slot: the call stops at an assertion before it chooses a target; no
    dispatcher is popped from the cache or allocated and nothing is
    swapped. *)
Theorem task_dispatcher_suspend_rejects this f u frame w :
  f = None \/ u = None \/
  match m_thread_data (dispatchers w this) with
  | Some td => my_arena_slot (tds w td) = None
  | None => True
  end ->
  task_dispatcher_suspend c this f u frame w = ([], Stop AssertionFailure).
Proof.
  intros H. unfold task_dispatcher_suspend. sched.
  destruct f as [f|]; sched; [|reflexivity].
  destruct u as [u|]; sched; [|reflexivity].
  destruct H as [H|[H|H]]; try discriminate.
  destruct (m_thread_data (dispatchers w this)) as [td|]; sched;
    [|reflexivity].
  rewrite H. reflexivity.
Qed.

End SwapGuards.

Section CoroutineCache.

Variable c : collaborators.

(** The references of a coroutine on its arena.  [create_coroutine]
    takes one external reference on the thread's arena, whether the
    cache hands out a dispatcher or a dispatcher is allocated.  The
    [cleanup] action releases one and is cleared.  So a [cleanup]
    followed by [create_coroutine] on the same thread leaves the
    reference count of the arena as it was, whichever dispatcher
    [create_coroutine] returns. *)
Theorem cleanup_and_create_coroutine_balance td :
  (forall w,
     exists l disp w',
       create_coroutine c td w = (l, Ok disp w') /\
       my_references (arenas w' (my_arena (tds w td)))
       = my_references (arenas w (my_arena (tds w td))) + ref_external c /\
       tds w' = tds w) /\
  (forall d w,
     my_post_resume_action (tds w td) = cleanup ->
     my_post_resume_arg (tds w td) = Some d ->
     exists w1 l disp w2,
       do_post_resume_action c td w
         = ([EvCleanup d; EvLeave (my_arena (tds w td))], Ok tt w1) /\
       my_references (arenas w1 (my_arena (tds w td)))
       = my_references (arenas w (my_arena (tds w td))) - ref_external c /\
       my_post_resume_action (tds w1 td) = none /\
       my_post_resume_arg (tds w1 td) = None /\
       create_coroutine c td w1 = (l, Ok disp w2) /\
       my_references (arenas w2 (my_arena (tds w td)))
       = my_references (arenas w (my_arena (tds w td)))).
Proof.
  assert (Hcreate : forall w,
     exists l disp w',
       create_coroutine c td w = (l, Ok disp w') /\
       my_references (arenas w' (my_arena (tds w td)))
       = my_references (arenas w (my_arena (tds w td))) + ref_external c /\
       tds w' = tds w).
  { intros w. unfold create_coroutine, co_cache_pop, add_references. sched.
    destruct (my_co_cache (arenas w (my_arena (tds w td)))) as [|d rest].
    - unfold allocate_task_dispatcher. sched.
      eexists _, _, _. split; [reflexivity|]. sched.
      rewrite !upd_same. split; reflexivity.
    - sched. eexists _, _, _. split; [reflexivity|]. sched.
      rewrite !upd_same. split; reflexivity. }
  split; [exact Hcreate|].
  intros d w Hact Harg.
  assert (Hclean : exists w1,
    do_post_resume_action c td w
      = ([EvCleanup d; EvLeave (my_arena (tds w td))], Ok tt w1) /\
    my_references (arenas w1 (my_arena (tds w td)))
    = my_references (arenas w (my_arena (tds w td))) - ref_external c /\
    my_post_resume_action (tds w1 td) = none /\
    my_post_resume_arg (tds w1 td) = None /\
    my_arena (tds w1 td) = my_arena (tds w td)).
  { unfold do_post_resume_action. sched. rewrite Hact, Harg. sched.
    unfold on_thread_leaving, add_references, co_cache_push. sched.
    rewrite !upd_same. sched.
    eexists. split; [reflexivity|]. sched. rewrite !upd_same. sched.
    repeat split; try reflexivity; lia. }
  destruct Hclean as (w1 & Hrun & Hrefs & Hnone & Hnull & Harena).
  destruct (Hcreate w1) as (l & disp & w2 & Hrun2 & Hrefs2 & _).
  exists w1, l, disp, w2.
  rewrite Harena in Hrefs2.
  repeat split; try assumption. lia.
Qed.

End CoroutineCache.

Section SuspendEntry.

Variable c : collaborators.


End SuspendEntry.

Section FinishedWork.

Variable c : collaborators.

(** The [register_waiter] action of a thread on a legacy wait context
    whose work is already done, with a free lock and no other thread at
    work on the wait context: [publish_wait_list] publishes nothing, and
    the action calls [r1::resume] on the suspend point of the node,
    which pushes its resume task, advertises the work and releases the
    arena.  The pending action is cleared, the counter is as it was and
    [m_wait_head] keeps the suspend point that the action stored. *)
Theorem finished_work_reschedules_waiter td arg a fuel w :
  my_post_resume_action (tds w td) = register_waiter ->
  my_post_resume_arg (tds w td) = Some arg ->
  let data := register_datas w arg in
  let wc := wait_contexts w (wo data) in
  let sp := my_suspend_point (wait_nodes w (node data)) in
  wait_interference c = [] ->
  wait_fuel c = (8 + fuel)%nat ->
  m_version_and_traits wc = 0 ->
  has_flag (m_ref_count wc) (lock_flag c) = false ->
  has_flag (m_ref_count wc) (waiter_flag c) = false ->
  work_count (lock_flag c) (waiter_flag c) (m_ref_count wc) <= 0 ->
  m_arena (suspend_points w sp) = Some a ->
  m_thread_data (dispatchers w (m_resume_task_target (suspend_points w sp)))
    = None ->
  exists tr critical lane w',
    do_post_resume_action c td w
      = ([EvRegisterWaiter (wo data) (node data) tr; EvResume (Some sp);
          EvPush critical lane sp; EvAdvertise a; EvLeave a], Ok tt w') /\
    my_post_resume_action (tds w' td) = none /\
    my_post_resume_arg (tds w' td) = None /\
    m_wait_head (wait_contexts w' (wo data)) = Some sp /\
    m_ref_count (wait_contexts w' (wo data)) = m_ref_count wc.
Proof.
  intros Hact Harg data wc sp Henv Hfuel Hv Hfree Hnew Hdone Harena Hdet.
  pose proof (@WaitContextProperties.run_register_legacy_done
                (lock_flag c) (waiter_flag c) (wait_externals c) fuel
                (mk_wstate wc (wait_nodes w)) (node data) sp
                Hv Hfree Hnew Hdone) as Hrun.
  unfold do_post_resume_action. sched. rewrite Hact, Harg. sched.
  unfold do_register_waiter. sched. rewrite Henv, Hfuel.
  fold data. fold wc. fold sp. rewrite Hrun. sched.
  cbn [resumed flat_map app resume_all].
  unfold resume. sched.
  rewrite Harena. sched. rewrite Hdet. sched.
  unfold add_references, advertise_new_work, on_thread_leaving,
    add_references. sched.
  destruct (critical_task_allowed
              (m_properties
                 (dispatchers w (m_resume_task_target (suspend_points w sp)))));
    unfold TBB_PREVIEW_CRITICAL_TASKS, stream_push; sched;
    eexists _, _, _, _; (split; [reflexivity|]);
    sched; rewrite !upd_same; sched;
    repeat split; reflexivity.
Qed.

End FinishedWork.

Section Recall.

Variable c : collaborators.

(** With its entry assertions satisfied, [task_dispatcher::resume]
    swaps to the target. *)
Lemma task_dispatcher_resume_swaps this target td w :
  resume_precondition this target td w ->
  exists l r,
    task_dispatcher_resume c this target w = (EvCoSwap this target :: l, r).
Proof.
  intros (Hne & Htd & Hdisp & Hact & Harg & Hfree & Hsp & Hsp').
  apply Nat.eqb_neq in Hne.
  assert (Hne2 : Nat.eqb this target = false)
    by (rewrite Nat.eqb_sym; exact Hne).
  unfold task_dispatcher_resume. sched.
  rewrite Hne, Htd. sched. rewrite Hdisp, ptr_eqb_refl. sched.
  destruct (my_post_resume_action (tds w td)) eqn:Ea; try congruence;
    destruct (my_post_resume_arg (tds w td)) as [arg|] eqn:Earg;
    try congruence; sched.
  all: unfold detach_task_dispatcher; sched; rewrite Hdisp; sched.
  all: unfold attach_task_dispatcher; sched; rewrite upd_same; sched.
  all: unfold upd at 1; rewrite Hne, Hfree; sched.
  all: unfold upd; rewrite ?Nat.eqb_refl, ?Hne, ?Hne2; sched.
  all: destruct (m_suspend_point (dispatchers w this)) as [sp1|];
         [|congruence];
       destruct (m_suspend_point (dispatchers w target)) as [sp2|];
         [|congruence]; sched.
  all: match goal with
       | |- context [let (l', r0) := ?X in (EvCoSwap _ _ :: l', r0)] =>
           destruct X as [l1 r1]; exists l1, r1; reflexivity
       end.
Qed.

(** The [notify] action followed by a suspension away from home: once a
    thread has run a pending [notify] on the recall flag of suspend
    point [dsp], a [task_dispatcher::suspend] from a dispatcher other
    than the slot's default dispatcher, whose suspend point is [dsp]
    and which no thread is attached to, swaps to that default
    dispatcher, and the swap is the first thing it does: nothing is
    popped from the cache and nothing is allocated. *)
Theorem notify_then_suspend_goes_home td0 td this f u frame w slot dflt dsp :
  my_post_resume_action (tds w td0) = notify ->
  my_post_resume_arg (tds w td0) = Some dsp ->
  m_thread_data (dispatchers w this) = Some td ->
  my_task_dispatcher (tds w td) = Some this ->
  my_arena_slot (tds w td) = Some slot ->
  my_default_task_dispatcher (slots w slot) = Some dflt ->
  dflt <> this ->
  m_thread_data (dispatchers w dflt) = None ->
  m_suspend_point (dispatchers w dflt) = Some dsp ->
  m_suspend_point (dispatchers w this) <> None ->
  exists w1 l r,
    do_post_resume_action c td0 w = ([EvNotify dsp], Ok tt w1) /\
    m_is_owner_recalled (suspend_points w1 dsp) = true /\
    task_dispatcher_suspend c this (Some f) (Some u) frame w1
      = (EvCoSwap this dflt :: l, r).
Proof.
  intros Hact Harg Htd Hdisp Hslot Hdflt Hne Hfree Hdsp Hsp.
  set (w1 :=
    set_td td0
      (mk_thread_data (my_task_dispatcher (tds w td0)) none None
         (my_arena_slot (tds w td0)) (my_arena (tds w td0)))
      (set_suspend_point dsp
         (mk_suspend_point (m_arena (suspend_points w dsp))
            (m_random (suspend_points w dsp)) true
            (m_resume_task_target (suspend_points w dsp))) w)).
  assert (Hnotify : do_post_resume_action c td0 w = ([EvNotify dsp], Ok tt w1)).
  { unfold do_post_resume_action. sched. rewrite Hact, Harg. sched.
    reflexivity. }
  assert (Hslot1 : my_arena_slot (tds w1 td) = Some slot).
  { unfold w1. sched. unfold upd.
    destruct (Nat.eqb td td0) eqn:E; [|exact Hslot].
    apply Nat.eqb_eq in E. subst td0. exact Hslot. }
  assert (Hdisp1 : my_task_dispatcher (tds w1 td) = Some this).
  { unfold w1. sched. unfold upd.
    destruct (Nat.eqb td td0) eqn:E; [|exact Hdisp].
    apply Nat.eqb_eq in E. subst td0. exact Hdisp. }
  exists w1.
  assert (Hsuspend : exists w_mid,
    task_dispatcher_suspend c this (Some f) (Some u) frame w1 =
      (task_dispatcher_resume c this dflt ;;;
       recall_if_outermost c this) w_mid /\
    resume_precondition this dflt td w_mid).
  { unfold task_dispatcher_suspend, get_suspend_point. sched.
    change (dispatchers w1) with (dispatchers w).
    change (slots w1) with (slots w).
    rewrite Htd. sched. rewrite Hslot1. sched. rewrite Hdflt. sched.
    change (dispatchers w1) with (dispatchers w).
    rewrite Hdsp. sched.
    replace (m_is_owner_recalled (suspend_points w1 dsp)) with true
      by (unfold w1; sched; rewrite upd_same; reflexivity).
    sched. unfold set_post_resume_action. sched.
    match goal with
    | |- context [task_dispatcher_resume c this dflt ?W] => exists W
    end.
    split.
    - destruct (task_dispatcher_resume c this dflt _) as [l [u0 w'|fl]];
        [destruct (recall_if_outermost c this w') as [l' r']|];
        reflexivity.
    - unfold resume_precondition. sched. rewrite !upd_same. sched.
      change (dispatchers w1) with (dispatchers w).
      rewrite Htd, Hdisp1, Hfree, Hdsp.
      repeat split; try congruence. }
  destruct Hsuspend as (w_mid & Hs & Hpre).
  destruct (task_dispatcher_resume_swaps Hpre) as (l & r & Hswap).
  assert (Hflag : m_is_owner_recalled (suspend_points w1 dsp) = true)
    by (unfold w1; sched; rewrite upd_same; reflexivity).
  rewrite Hs. unfold bind. rewrite Hswap.
  destruct r as [u0 w'|fl].
  - destruct (recall_if_outermost c this w') as [l' r'].
    exists (l ++ l'), r'.
    split; [exact Hnotify|]. split; [exact Hflag|reflexivity].
  - exists l, (Stop fl).
    split; [exact Hnotify|]. split; [exact Hflag|reflexivity].
Qed.

End Recall.

Section PendingAction.

Variable c : collaborators.

(** What each post-resume action does. *)
Lemma do_post_resume_action_effect td w arg :
  my_post_resume_action (tds w td) <> none ->
  my_post_resume_arg (tds w td) = Some arg ->
  (my_post_resume_action (tds w td) = register_waiter ->
   exists l w', do_register_waiter c arg w = (l, Ok tt w')) ->
  exists l w2,
    do_post_resume_action c td w = (l, Ok tt w2) /\
    match my_post_resume_action (tds w td) with
    | callback =>
        let cb := callback_wrappers w arg in
        l = [EvCallback (suspend_callback cb) (user_callback cb) (tag cb)] /\
        w2 = action_cleared td
               (user_code c (suspend_callback cb) (user_callback cb) (tag cb)
                  w)
    | cleanup =>
        l = [EvCleanup arg; EvLeave (my_arena (tds w td))] /\
        my_references (arenas w2 (my_arena (tds w td)))
        = my_references (arenas w (my_arena (tds w td))) - ref_external c /\
        In arg (my_co_cache (arenas w2 (my_arena (tds w td))))
    | notify =>
        l = [EvNotify arg] /\
        w2 = action_cleared td (recall_flag_set arg w)
    | register_waiter =>
        exists w',
          do_register_waiter c arg w = (l, Ok tt w') /\
          w2 = action_cleared td w'
    | none => False
    end.
Proof.
  intros Hact Harg Hreg.
  unfold do_post_resume_action. sched. rewrite Harg. sched.
  destruct (my_post_resume_action (tds w td)) eqn:Ea; try congruence; sched.
  - destruct (Hreg eq_refl) as (l & w' & Hrun). rewrite Hrun. sched.
    eexists _, _. split; [rewrite app_nil_r; reflexivity|].
    exists w'. split; reflexivity.
  - eexists _, _. split; [reflexivity|]. split; reflexivity.
  - unfold on_thread_leaving, add_references, co_cache_push. sched.
    rewrite !upd_same. sched.
    eexists _, _. split; [reflexivity|]. sched. rewrite !upd_same. sched.
    split; [reflexivity|]. simpl. split; [lia|]. left. reflexivity.
  - eexists _, _. split; [reflexivity|]. split; reflexivity.
Qed.

(** C2, as the code has it.  A call of [task_dispatcher::resume(target)]
    whose assertions hold, on entry (one post-resume action pending on
    the thread, with its argument) and when the swap has returned.

    The action pending on entry is not run by the call: it goes with
    the thread to the target, pending as it was, in the store that the
    swap starts from.

    When the swap has returned, the call runs exactly one post-resume
    action: the one pending then on the thread attached to [this] then,
    with its argument.  A [callback] calls the user's callback with the
    fields of the wrapper; a [cleanup] releases the reference on the
    arena and puts the dispatcher into the cache; a [notify] stores true
    into the recall flag; a [register_waiter] (taken to return) runs the
    registration.  After it the thread's [my_post_resume_action] is
    [none] and its [my_post_resume_arg] null, and another
    [do_post_resume_action] runs nothing: it stops at its first
    assertion. *)
Theorem resume_runs_pending_action_once this target td w td' arg' :
  resume_precondition this target td w ->
  let w0 := handed_over this target td w in
  let w1 := co_swap c this target w0 in
  resumed_condition this td' w1 ->
  my_post_resume_action (tds w1 td') <> none ->
  my_post_resume_arg (tds w1 td') = Some arg' ->
  (my_post_resume_action (tds w1 td') = register_waiter ->
   exists l w', do_register_waiter c arg' w1 = (l, Ok tt w')) ->
  (forall l2 w2,
     do_post_resume_action c td' w1 = (l2, Ok tt w2) ->
     slot_condition this td' w2) ->
  (my_task_dispatcher (tds w0 td) = Some target /\
   my_post_resume_action (tds w0 td) = my_post_resume_action (tds w td) /\
   my_post_resume_arg (tds w0 td) = my_post_resume_arg (tds w td)) /\
  exists l2 w2,
    do_post_resume_action c td' w1 = (l2, Ok tt w2) /\
    task_dispatcher_resume c this target w
      = (EvCoSwap this target :: l2, Ok tt (recall_cleared this td' w2)) /\
    actions_run l2 = [my_post_resume_action (tds w1 td')] /\
    match my_post_resume_action (tds w1 td') with
    | callback =>
        let cb := callback_wrappers w1 arg' in
        l2 = [EvCallback (suspend_callback cb) (user_callback cb) (tag cb)] /\
        w2 = action_cleared td'
               (user_code c (suspend_callback cb) (user_callback cb) (tag cb)
                  w1)
    | cleanup =>
        l2 = [EvCleanup arg'; EvLeave (my_arena (tds w1 td'))] /\
        my_references (arenas w2 (my_arena (tds w1 td')))
        = my_references (arenas w1 (my_arena (tds w1 td'))) - ref_external c /\
        In arg' (my_co_cache (arenas w2 (my_arena (tds w1 td'))))
    | notify =>
        l2 = [EvNotify arg'] /\
        w2 = action_cleared td' (recall_flag_set arg' w1)
    | register_waiter =>
        exists w',
          do_register_waiter c arg' w1 = (l2, Ok tt w') /\
          w2 = action_cleared td' w'
    | none => False
    end /\
    my_post_resume_action (tds (recall_cleared this td' w2) td') = none /\
    my_post_resume_arg (tds (recall_cleared this td' w2) td') = None /\
    do_post_resume_action c td' (recall_cleared this td' w2)
      = ([], Stop AssertionFailure).
Proof.
  intros Hpre w0 w1 Hres Hact Harg Hreg Hslot.
  split.
  { unfold w0, handed_over. sched. rewrite !upd_same. sched.
    repeat split; reflexivity. }
  destruct (@do_post_resume_action_effect td' w1 arg' Hact Harg Hreg)
    as (l2 & w2 & Hrun & Heffect).
  destruct (@do_post_resume_action_once c td' w1 arg' Hact Harg Hreg)
    as (l2' & w2' & Hrun' & Hone & Hnone & Hnull & _).
  rewrite Hrun in Hrun'. injection Hrun' as <- <-.
  exists l2, w2. split; [exact Hrun|].
  split; [apply (@task_dispatcher_resume_runs c this target td w td' l2 w2
                   Hpre Hres Hrun (Hslot _ _ Hrun))|].
  split; [exact Hone|]. split; [exact Heffect|].
  rewrite tds_recall_cleared.
  split; [exact Hnone|]. split; [exact Hnull|].
  apply do_post_resume_action_none. rewrite tds_recall_cleared. exact Hnone.
Qed.

End PendingAction.

End SchedulerProperties.

(** ** The operators of the conformance test's value type *)

Module ConformanceBlockedRangeFacts.
Import ConformanceBlockedRange.

Section Operators.

Variable size_bits : Z.
Hypothesis size_t_wide : 32 <= size_bits.

Lemma in_int_bounds z : in_int z = true <-> - 2 ^ 31 <= z <= 2 ^ 31 - 1.
Proof.
  unfold in_int, INT_MIN, INT_MAX. rewrite andb_true_iff, !Z.leb_le.
  reflexivity.
Qed.

(** Through [std::size_t] and back to [int]: the value is kept. *)
Lemma to_int_to_size_t z :
  in_int z = true -> to_int (to_size_t size_bits z) = z.
Proof.
  intros Hz. apply in_int_bounds in Hz. unfold to_int, to_size_t.
  assert (Hpow : 2 ^ size_bits = 2 ^ 32 * 2 ^ (size_bits - 32)).
  { rewrite <- Z.pow_add_r by lia. f_equal. lia. }
  rewrite (Z.mod_eq z (2 ^ size_bits)) by (apply Z.pow_nonzero; lia).
  rewrite Hpow.
  replace (z - 2 ^ 32 * 2 ^ (size_bits - 32) *
               (z / (2 ^ 32 * 2 ^ (size_bits - 32))) + 2 ^ 31)
    with (z + 2 ^ 31 +
          (- (2 ^ (size_bits - 32) * (z / (2 ^ 32 * 2 ^ (size_bits - 32)))))
          * 2 ^ 32) by ring.
  rewrite Z.mod_add by lia.
  rewrite Z.mod_small by lia. lia.
Qed.

(** [u + (v - u) == v], also when [v] is below [u]: the difference goes
    through [std::size_t], where a negative one wraps around, and comes
    back through [int(offset)].  Both values are [int]s and so is their
    difference. *)
Theorem plus_minus_round_trip u v :
  in_int (GetValueOf u) = true ->
  in_int (GetValueOf v) = true ->
  in_int (GetValueOf v - GetValueOf u) = true ->
  exists d,
    minus size_bits v u = Some d /\
    0 <= d < 2 ^ size_bits /\
    plus u d = Some v.
Proof.
  intros Hu Hv Hd. unfold minus, plus, int_result. rewrite Hd. simpl.
  eexists. split; [reflexivity|]. split.
  - unfold to_size_t. apply Z.mod_pos_bound. apply Z.pow_pos_nonneg; lia.
  - rewrite (to_int_to_size_t _ Hd).
    replace (GetValueOf u + (GetValueOf v - GetValueOf u))
      with (GetValueOf v) by ring.
    rewrite Hv. destruct v. reflexivity.
Qed.

(** [(u + k) - u == k] for an offset [k] that fits in an [int] and does
    not take the value out of [int]. *)
Theorem minus_plus_round_trip u k :
  0 <= k <= INT_MAX ->
  in_int (GetValueOf u + k) = true ->
  exists u',
    plus u k = Some u' /\
    GetValueOf u' = GetValueOf u + k /\
    less u u' = (0 <? k) /\
    minus size_bits u' u = Some k.
Proof.
  intros Hk Hsum. unfold INT_MAX in Hk.
  assert (Hint : to_int k = k).
  { unfold to_int. rewrite Z.mod_small by lia. lia. }
  unfold plus, int_result. rewrite Hint, Hsum. simpl.
  eexists. split; [reflexivity|]. split; [reflexivity|]. split.
  - unfold less. simpl.
    destruct (0 <? k) eqn:E; [apply Z.ltb_lt in E; apply Z.ltb_lt; lia|].
    apply Z.ltb_ge in E. apply Z.ltb_ge. lia.
  - unfold minus, int_result. simpl.
    replace (GetValueOf u + k - GetValueOf u) with k by ring.
    replace (in_int k) with true
      by (symmetry; apply in_int_bounds; lia).
    simpl. f_equal. unfold to_size_t. apply Z.mod_small.
    assert (2 ^ 32 <= 2 ^ size_bits) by (apply Z.pow_le_mono_r; lia). lia.
Qed.

End Operators.

End ConformanceBlockedRangeFacts.

(** ** The further properties on sample values *)

Module WaitContextPropertiesExamples.
Import WaitContext Monitors WaitContextFacts WaitContextExamples
  WaitContextProperties.

Lemma sample_flags_apart :
  Z.land sample_lock_flag (not64 sample_waiter_flag) = sample_lock_flag.
Proof. reflexivity. Qed.

Lemma idle_notify_all (h : addr) (s0 : wstate) :
  ws_wc (ext_notify_all idle_externals h s0) = ws_wc s0.
Proof. reflexivity. Qed.

Lemma idle_unlink (n : addr) (s0 : wstate) :
  ws_wc (ext_unlink idle_externals n s0) = ws_wc s0.
Proof. reflexivity. Qed.

(** A held lock and seven units of fuel: two rounds of load and pause,
    and a third load. *)
Lemma lock_spins_while_held_witness :
  exists tr,
    run idle_externals 7 [] (sample_state 1 (sample_lock_flag + 1) None)
      (lock sample_lock_flag) = OutOfFuel tr /\
    forallb is_wait tr = true.
Proof.
  apply (@lock_spins_while_held sample_lock_flag idle_externals 7 []
           (sample_state 1 (sample_lock_flag + 1) None)).
  - reflexivity.
  - constructor.
Defined.

Lemma lock_unlock_round_trip_witness :
  run idle_externals 6 [] (sample_state 1 5 None)
    (ITree.bind (lock sample_lock_flag) (fun _ => unlock sample_lock_flag))
  = Done tt (sample_state 1 5 None) 2
      [OLoad 5; OFetchOr sample_lock_flag 5;
       OLoad (Z.lor 5 sample_lock_flag);
       OFetchAnd (not64 sample_lock_flag) (Z.lor 5 sample_lock_flag)].
Proof.
  apply (@lock_unlock_round_trip sample_lock_flag idle_externals 2
           (sample_state 1 5 None)).
  - exact sample_lock_flag_nonzero.
  - vm_compute. split; [discriminate|reflexivity].
  - reflexivity.
Defined.

Lemma unlock_without_lock_fails_witness :
  run idle_externals 2 [] (sample_state 1 5 None) (unlock sample_lock_flag)
  = Failed [OLoad 5].
Proof.
  apply (@unlock_without_lock_fails sample_lock_flag idle_externals 0 []
           (sample_state 1 5 None)).
  reflexivity.
Defined.

(** Two units of work under the held lock: the flag is added. *)
Lemma publish_wait_list_alone_witness :
  exists fuel' tr,
    run idle_externals 6 [] (sample_state 1 (sample_lock_flag + 2) None)
      (publish_wait_list sample_lock_flag sample_waiter_flag)
    = Done true
        (sample_state 1 (Z.lor (sample_lock_flag + 2) sample_waiter_flag) None)
        fuel' tr /\
    no_cas_success tr = false.
Proof.
  apply (@publish_wait_list_alone sample_lock_flag sample_waiter_flag
           idle_externals 0 (sample_state 1 (sample_lock_flag + 2) None)).
  - exact sample_waiter_flag_nonzero.
  - right. reflexivity.
Defined.

Lemma publish_wait_list_needs_lock_witness :
  exists r,
    run idle_externals 4 [] (sample_state 1 2 None)
      (publish_wait_list sample_lock_flag sample_waiter_flag)
    = Failed [OLoad r; OLoad 2; OVersion 1].
Proof.
  apply (@publish_wait_list_needs_lock sample_lock_flag sample_waiter_flag
           idle_externals 0 [] (sample_state 1 2 None)).
  - simpl. lia.
  - reflexivity.
Defined.

Lemma unregister_waiter_alone_witness :
  exists s' fuel' tr,
    run idle_externals 8 [] two_nodes (unregister_waiter sample_lock_flag 3)
      = Done tt s' fuel' tr /\
    m_wait_head (ws_wc s') = Some 4%nat /\
    filter is_unlink tr = [OUnlink 3] /\
    ref_of s' = 1.
Proof.
  apply (@unregister_waiter_alone sample_lock_flag idle_externals 0
           two_nodes 3%nat).
  - exact sample_lock_flag_nonzero.
  - vm_compute. split; [discriminate|reflexivity].
  - reflexivity.
  - exact idle_unlink.
Defined.

Lemma notify_waiters_alone_witness :
  exists s' fuel' tr,
    run idle_externals 9 [] (sample_state 1 (sample_waiter_flag + 2)
                               (Some 3%nat))
      (notify_waiters sample_lock_flag sample_waiter_flag)
      = Done tt s' fuel' tr /\
    ws_wc s' = mk_wait_context 1 2 None /\
    has_flag (ref_of s') sample_waiter_flag = false /\
    has_flag (ref_of s') sample_lock_flag = false /\
    work_count sample_lock_flag sample_waiter_flag (ref_of s') = 2 /\
    filter is_resumption tr = [ONotifyAll 3].
Proof.
  apply (@notify_waiters_alone sample_lock_flag sample_waiter_flag
           idle_externals 0
           (sample_state 1 (sample_waiter_flag + 2) (Some 3%nat))).
  - exact sample_lock_flag_nonzero.
  - exact sample_flags_apart.
  - reflexivity.
  - exact idle_notify_all.
Defined.


(** The lock is released by another thread after the caller's first
    load: the caller spins once and takes it. *)
Lemma lock_returns_holding_witness :
  exists s' fuel' tr,
    run idle_externals 6 [no_interference; fun r => r - sample_lock_flag]
      (sample_state 1 (sample_lock_flag + 1) None) (lock sample_lock_flag)
      = Done tt s' fuel' tr /\
    has_flag (ref_of s') sample_lock_flag = true /\
    exists spin old,
      tr = spin ++ [OFetchOr sample_lock_flag old] /\
      has_flag old sample_lock_flag = false /\
      forallb (spin_op sample_lock_flag) spin = true.
Proof.
  eexists _, _, _. split; [vm_compute; reflexivity|].
  eapply (@lock_returns_holding sample_lock_flag idle_externals 6
            [no_interference; fun r => r - sample_lock_flag]
            (sample_state 1 (sample_lock_flag + 1) None) tt).
  - exact sample_lock_flag_nonzero.
  - vm_compute. reflexivity.
Defined.

Lemma unlock_returns_released_witness :
  exists s' fuel' tr,
    run idle_externals 2 [no_interference; fun r => r - 1]
      (sample_state 1 (sample_lock_flag + 1) None) (unlock sample_lock_flag)
      = Done tt s' fuel' tr /\
    has_flag (ref_of s') sample_lock_flag = false /\
    exists r1 r2,
      tr = [OLoad r1; OFetchAnd (not64 sample_lock_flag) r2] /\
      has_flag r1 sample_lock_flag = true.
Proof.
  eexists _, _, _. split; [vm_compute; reflexivity|].
  eapply (@unlock_returns_released sample_lock_flag idle_externals 2
            [no_interference; fun r => r - 1]
            (sample_state 1 (sample_lock_flag + 1) None) tt).
  vm_compute. reflexivity.
Defined.

(** A legacy wait context with two units of work: the suspend point is
    registered.  One whose work is done: it is resumed.  A current one
    whose registration routine refuses: it is resumed. *)
Lemma failed_registration_resumes_witness :
  (exists s' fuel' tr,
     run idle_externals 16 [] (sample_state 0 2 None)
       (register_waiter_action sample_lock_flag sample_waiter_flag 5 7)
       = Done tt s' fuel' tr /\
     m_wait_head (ws_wc s') = Some 7%nat /\
     has_flag (ref_of s') sample_waiter_flag = true /\
     existsb is_resumption tr = false) /\
  (exists s' fuel' tr,
     run idle_externals 16 [] (sample_state 0 0 None)
       (register_waiter_action sample_lock_flag sample_waiter_flag 5 7)
       = Done tt s' fuel' tr /\
     tr = [OVersion 0; OHeadWrite (Some 7%nat) 0; OLoad 0; OLoad 0;
           OVersion 0; OLoad 0; OResume 7] /\
     has_flag (ref_of s') sample_waiter_flag = false) /\
  (exists s' fuel' tr,
     run refusing_externals 16 [] (sample_state 1 1 None)
       (register_waiter_action sample_lock_flag sample_waiter_flag 5 7)
       = Done tt s' fuel' tr /\
     tr = [OVersion 1; OTryRegister 5 false; OResume 7]).
Proof.
  split; [|split].
  - destruct (@failed_registration_resumes sample_lock_flag
                sample_waiter_flag idle_externals sample_waiter_flag_nonzero
                16 [] (sample_state 0 2 None) 5%nat 7%nat)
      as (s' & fuel' & tr & Hrun & _); [simpl; lia|].
    exists s', fuel', tr. split; [exact Hrun|].
    vm_compute in Hrun. injection Hrun. intros <- <- <-.
    vm_compute. auto.
  - destruct (@failed_registration_resumes sample_lock_flag
                sample_waiter_flag idle_externals sample_waiter_flag_nonzero
                16 [] (sample_state 0 0 None) 5%nat 7%nat)
      as (s' & fuel' & tr & Hrun & _); [simpl; lia|].
    exists s', fuel', tr. split; [exact Hrun|].
    vm_compute in Hrun. injection Hrun. intros <- <- <-.
    vm_compute. auto.
  - destruct (@failed_registration_resumes sample_lock_flag
                sample_waiter_flag refusing_externals
                sample_waiter_flag_nonzero
                16 [] (sample_state 1 1 None) 5%nat 7%nat)
      as (s' & fuel' & tr & Hrun & _ & Hcur); [simpl; lia|].
    exists s', fuel', tr. split; [exact Hrun|].
    apply Hcur. simpl. lia.
Defined.

End WaitContextPropertiesExamples.

Module SchedulerPropertiesExamples.
Import WaitContext Scheduler EntryPoints SchedulerFacts SchedulerProperties.
Local Open Scope sched_scope.

(** Suspend point 11 belongs to dispatcher 1, which thread 0 is attached
    to; and a null suspend point. *)
Lemma resume_rejects_witness :
  resume sample_collaborators (Some 11%nat) sample_world
  = ([EvResume (Some 11%nat)], Stop AssertionFailure) /\
  resume sample_collaborators None sample_world
  = ([EvResume None], Stop NullDereference).
Proof.
  split.
  - apply (@resume_rejects sample_collaborators (Some 11%nat) sample_world).
    right. simpl. discriminate.
  - apply (@resume_rejects sample_collaborators None sample_world).
    exact I.
Defined.

Lemma resume_order_and_references_witness :
  exists critical lane w',
    resume sample_collaborators (Some 12%nat) sample_world
      = ([EvResume (Some 12%nat); EvPush critical lane 12%nat;
          EvAdvertise 0%nat; EvLeave 0%nat], Ok tt w') /\
    my_references (arenas w' 0%nat) = 1 /\
    my_co_cache (arenas w' 0%nat) = [2%nat] /\
    m_random (suspend_points w' 12%nat) = 8.
Proof.
  destruct (@resume_order_and_references sample_collaborators 12%nat 0%nat
              sample_world eq_refl eq_refl)
    as (critical & lane & w' & Hrun & Hrefs & Hcache & _ & _ & Hsp & _).
  exists critical, lane, w'. split; [exact Hrun|].
  split; [exact Hrefs|]. split; [exact Hcache|].
  rewrite Hsp. reflexivity.
Defined.

(** Dispatcher 1 asked to resume itself. *)
Lemma task_dispatcher_resume_rejects_witness :
  task_dispatcher_resume sample_collaborators 1 1 sample_world
  = ([], Stop AssertionFailure).
Proof.
  apply (@task_dispatcher_resume_rejects sample_collaborators 1%nat 1%nat
           sample_world).
  intros td [Hne _]. apply Hne. reflexivity.
Defined.

(** Dispatcher 2 has no thread. *)
Lemma task_dispatcher_suspend_rejects_witness :
  task_dispatcher_suspend sample_collaborators 2 (Some 30%nat) (Some 31%nat)
    40 sample_world
  = ([], Stop AssertionFailure).
Proof.
  apply (@task_dispatcher_suspend_rejects sample_collaborators 2%nat
           (Some 30%nat) (Some 31%nat) 40%nat sample_world).
  right. right. simpl. exact I.
Defined.

Lemma cleanup_and_create_coroutine_balance_witness :
  exists w1 l disp w2,
    do_post_resume_action sample_collaborators 0 cleanup_pending
      = ([EvCleanup 3; EvLeave 0], Ok tt w1) /\
    my_references (arenas w1 0%nat) = 0 /\
    create_coroutine sample_collaborators 0 w1 = (l, Ok disp w2) /\
    my_references (arenas w2 0%nat) = 1.
Proof.
  destruct (@cleanup_and_create_coroutine_balance sample_collaborators 0%nat)
    as [_ Hboth].
  destruct (Hboth 3%nat cleanup_pending eq_refl eq_refl)
    as (w1 & l & disp & w2 & Hclean & Hrefs & _ & _ & Hcreate & Hback).
  exists w1, l, disp, w2. auto.
Defined.


Lemma finished_work_reschedules_waiter_witness :
  exists tr critical lane w',
    do_post_resume_action sample_collaborators 0 finished_legacy
      = ([EvRegisterWaiter 0 0 tr; EvResume (Some 12%nat);
          EvPush critical lane 12%nat; EvAdvertise 0%nat; EvLeave 0%nat],
         Ok tt w') /\
    my_post_resume_action (tds w' 0%nat) = none /\
    my_post_resume_arg (tds w' 0%nat) = None /\
    m_wait_head (wait_contexts w' 0%nat) = Some 12%nat /\
    m_ref_count (wait_contexts w' 0%nat) = 0.
Proof.
  apply (@finished_work_reschedules_waiter sample_collaborators 0%nat 20%nat
           0%nat 8%nat finished_legacy);
    reflexivity.
Defined.


Lemma notify_then_suspend_goes_home_witness :
  exists w1 l r,
    do_post_resume_action sample_collaborators 0 away_from_home
      = ([EvNotify 11], Ok tt w1) /\
    m_is_owner_recalled (suspend_points w1 11%nat) = true /\
    task_dispatcher_suspend sample_collaborators 2 (Some 30%nat)
      (Some 31%nat) 40 w1
    = (EvCoSwap 2 1 :: l, r).
Proof.
  apply (@notify_then_suspend_goes_home sample_collaborators 0%nat 0%nat
           2%nat 30%nat 31%nat 40%nat away_from_home 0%nat 1%nat 11%nat);
    try reflexivity.
  - simpl. lia.
  - simpl. discriminate.
Defined.

(** Dispatcher 1 of thread 0 resumes dispatcher 2 with a [callback]
    pending; the swap comes back with a [notify] of the flag of suspend
    point 11 pending on thread 0.  The call runs the [notify]; the
    [callback] has gone to the target with the thread. *)
Lemma resume_runs_pending_action_once_witness :
  my_post_resume_action (tds (handed_over 1 2 0 sample_world) 0%nat)
    = callback /\
  exists w2,
    task_dispatcher_resume sample_collaborators 1 2 sample_world
      = ([EvCoSwap 1 2; EvNotify 11], Ok tt (recall_cleared 1 0 w2)) /\
    m_is_owner_recalled (suspend_points w2 11%nat) = true /\
    my_post_resume_action (tds (recall_cleared 1 0 w2) 0%nat) = none /\
    my_post_resume_arg (tds (recall_cleared 1 0 w2) 0%nat) = None /\
    do_post_resume_action sample_collaborators 0 (recall_cleared 1 0 w2)
      = ([], Stop AssertionFailure).
Proof.
  destruct (@resume_runs_pending_action_once sample_collaborators
              1%nat 2%nat 0%nat sample_world 0%nat 11%nat)
    as ((_ & Hkept & _) & l2 & w2 & _ & Hrun & _ & Heffect & Hnone & Hnull
        & Hagain).
  - exact sample_resume_precondition.
  - split; reflexivity.
  - discriminate.
  - reflexivity.
  - intros H. discriminate H.
  - exact sample_slot_condition.
  - split; [exact Hkept|].
    destruct Heffect as [Hl Hw]. subst l2.
    exists w2. split; [exact Hrun|].
    split; [rewrite Hw; reflexivity|]. auto.
Defined.

(** In that call the action pending on entry, the [callback] with
    argument 20, is not the one run after the swap: the call runs a
    [notify] and no callback. *)
Lemma entry_action_is_left_to_target :
  resume_precondition 1 2 0 sample_world /\
  my_post_resume_action (tds sample_world 0%nat) = callback /\
  my_post_resume_arg (tds sample_world 0%nat) = Some 20%nat /\
  (exists w3,
     task_dispatcher_resume sample_collaborators 1 2 sample_world
       = ([EvCoSwap 1 2; EvNotify 11], Ok tt w3)) /\
  actions_run [EvCoSwap 1 2; EvNotify 11] = [notify] /\
  my_post_resume_action (tds (handed_over 1 2 0 sample_world) 0%nat)
    = callback.
Proof.
  split; [exact sample_resume_precondition|].
  split; [reflexivity|]. split; [reflexivity|].
  split; [eexists; vm_compute; reflexivity|].
  split; reflexivity.
Qed.

End SchedulerPropertiesExamples.

Module ConformanceBlockedRangeExamples.
Import ConformanceBlockedRange ConformanceBlockedRangeFacts.

(** From 5 down to -3 with a 64-bit [std::size_t]: the difference is
    2^64 - 8. *)
Lemma plus_minus_round_trip_witness :
  exists d,
    minus 64 (MakeAbstractValueType (-3)) (MakeAbstractValueType 5) = Some d /\
    0 <= d < 2 ^ 64 /\
    plus (MakeAbstractValueType 5) d = Some (MakeAbstractValueType (-3)).
Proof.
  apply (@plus_minus_round_trip 64 ltac:(lia) (MakeAbstractValueType 5)
           (MakeAbstractValueType (-3)));
    reflexivity.
Defined.

Lemma minus_plus_round_trip_witness :
  exists u',
    plus (MakeAbstractValueType (-10)) 9 = Some u' /\
    GetValueOf u' = -1 /\
    less (MakeAbstractValueType (-10)) u' = true /\
    minus 64 u' (MakeAbstractValueType (-10)) = Some 9.
Proof.
  apply (@minus_plus_round_trip 64 ltac:(lia) (MakeAbstractValueType (-10)) 9).
  - unfold INT_MAX. lia.
  - reflexivity.
Defined.

End ConformanceBlockedRangeExamples.
